(** * medaCy sequence tagger: vocabulary indexing, vectorisation,
      segmentation, training loop and prediction guards

    Shallow embedding of [medacy/ner/model/pytorch_model.py] and
    [medacy/ner/learners/bilstm_crf.py].

    - Python lists are [list]; tokens and tags are [string]s.
    - A Python [dict] is an insertion-ordered association list with unique
      keys ([dict_set] overwrites in place, otherwise appends), because
      [devectorize] iterates [to_index.items()].
    - Exceptions are the [Raise] case of [result]; code that mutates [self]
      or consumes the random generator runs in the state-and-exception monad
      [M], whose state survives a raise as it does in Python.
    - The tensor library is external: the parameters of a network are a
      symbolic term [weights] recording how it was built and updated, a
      [network] object carries them with its gradient buffers, and the
      numbers a network computes are a field of the environment.  What is
      modelled of the library is what the methods depend on: the shape of
      the scores of a forward pass, and the errors a forward pass and the
      loss function raise on indices, shapes and lengths they cannot take.
      Scores are only compared by the code, with [>] and [==]; they are
      integers here.
    - A Python [set] of strings is the list of its elements; the order in
      which it is iterated comes from the string hashing of the
      interpreter, which is part of the environment. *)

From stdpp Require Import prelude strings sorting.

(** ** Exceptions and results *)

Inductive exn : Type :=
| TypeError
| ValueError
| RuntimeError
| KeyError
| IndexError
| ZeroDivisionError
| UnboundLocalError
| NameError
| FileNotFoundError.

Inductive result (A : Type) : Type :=
| Ok (a : A)
| Raise (e : exn).
Arguments Ok {A} a.
Arguments Raise {A} e.

Definition is_raise {A} (r : result A) : Prop :=
  match r with Ok _ => False | Raise _ => True end.

Definition rbind {A B} (r : result A) (k : A → result B) : result B :=
  match r with Ok a => k a | Raise e => Raise e end.

(** [[f x for x in l]] where [f] may raise: the first failure wins. *)
Fixpoint rmap {A B} (f : A → result B) (l : list A) : result (list B) :=
  match l with
  | [] => Ok []
  | x :: l' => rbind (f x) (λ y, rbind (rmap f l') (λ ys, Ok (y :: ys)))
  end.

(** ** Python dictionaries *)

Abbreviation dict K V := (list (K * V)).

Section dict.
Context {K V : Type} `{EqDecision K}.

(** [d[k]], as an option. *)
Fixpoint dict_get (d : dict K V) (k : K) : option V :=
  match d with
  | [] => None
  | (k', v) :: d' => if decide (k = k') then Some v else dict_get d' k
  end.

(** [k in d] *)
Definition dict_contains (d : dict K V) (k : K) : bool :=
  match dict_get d k with Some _ => true | None => false end.

(** [d[k] = v] *)
Fixpoint dict_set (d : dict K V) (k : K) (v : V) : dict K V :=
  match d with
  | [] => [(k, v)]
  | (k', v') :: d' =>
      if decide (k = k') then (k, v) :: d' else (k', v') :: dict_set d' k v
  end.

(** [d[k]] with its [KeyError]. *)
Definition dict_lookup (d : dict K V) (k : K) : result V :=
  match dict_get d k with Some v => Ok v | None => Raise KeyError end.
End dict.

(** ** Built-ins used by the code *)

(** [range(start, stop, step)] for a positive [step]. *)
Definition py_range (start stop step : nat) : list nat :=
  (λ k, start + k * step) <$> seq 0 ((stop - start + step - 1) / step).

(** [l[i:j]] for [0 <= i <= j]; slices clamp at the end of the list. *)
Definition slice {A} (l : list A) (i j : nat) : list A :=
  take (j - i) (drop i l).

(** [max(vector)]: the first maximal element, [ValueError] on no element. *)
Definition py_max (vector : list Z) : result Z :=
  match vector with
  | [] => Raise ValueError
  | x :: xs => Ok (foldl (λ m y, if bool_decide (m < y)%Z then y else m) x xs)
  end.

(** [l.index(v)]: position of the first element equal to [v]. *)
Definition py_index (l : list Z) (v : Z) : result nat :=
  match list_find (λ x, x = v) l with
  | Some (i, _) => Ok i
  | None => Raise ValueError
  end.

(** ** Constants *)

Definition SEGMENT_SIZE : nat := 100.
Definition LEARNING_RATE : QArith_base.Q := QArith_base.Qmake 1 10.
Definition EMBEDDING_DIM : nat := 64.
Definition HIDDEN_DIM : nat := 64.

(** ** Code shared by both classes *)

(** [if item not in to_index: to_index[item] = len(to_index)], the body of
    the indexing loops of [create_index_dictionary] and [get_training_data]. *)
Definition index_item (to_index : dict string nat) (item : string)
  : dict string nat :=
  if dict_contains to_index item then to_index
  else dict_set to_index item (length to_index).

(** [{y: x for x, y in to_index.items()}] *)
Definition invert (to_index : dict string nat) : dict nat string :=
  foldl (λ to_tag xy, dict_set to_tag xy.2 xy.1) [] to_index.

(** Body of the loop of [devectorize] and [devectorize_tags]:
    [max_value = max(vector); index = list(vector).index(max_value);
     tags.append(to_tag[index])]. *)
Definition devectorize_one (to_tag : dict nat string) (vector : list Z)
  : result string :=
  rbind (py_max vector) (λ max_value,
  rbind (py_index vector max_value) (λ index,
  dict_lookup to_tag index)).

(** ** The environment: random generator, tensor library, files *)

(** The module-level generator of [random]: an endless supply of raw draws
    and the number already consumed.  It is seeded by the interpreter, not by
    [torch.manual_seed]. *)
Record rng : Type := { draws : nat → nat; cursor : nat }.

(** [random.randrange(n)] *)
Definition randrange (n : nat) (g : rng) : result nat * rng :=
  if decide (n = 0) then (Raise ValueError, g)
  else (Ok (draws g (cursor g) `mod` n),
        {| draws := draws g; cursor := S (cursor g) |}).

(** One backward pass adds the gradient of the loss of one example
    (input indices, target indices) to the gradient buffers. *)
Definition example : Type := list nat * list nat.

(** Network parameters, symbolically: how the network was constructed and
    which optimiser steps (with which accumulated gradients) were applied. *)
Inductive weights : Type :=
| LSTMTagger (embedding_dim hidden_dim vocab_size tagset_size : nat)
             (bidirectional : bool)
| BiLstmCrfNetwork (vocab_size tagset_size : nat)
| SGD (lr : QArith_base.Q) (w : weights) (gradient : list example).

(** A network object: its parameters and the contents of their gradient
    buffers.  [optim.SGD(model.parameters(), lr)] works on these in place. *)
Record network : Type := { params : weights; grad : list example }.

Inductive torch_call : Type :=
| ZeroGrad
| Forward
| ForwardNoGrad
| Backward (e : example)
| Step.

(** What a call does to the network object it is made on:
    [optimizer.zero_grad()] empties the buffers, [loss.backward()] adds the
    gradient of one example to them, [optimizer.step()] updates the
    parameters from them, a forward pass changes nothing. *)
Definition transition (c : torch_call) (n : network) : network :=
  match c with
  | ZeroGrad => {| params := params n; grad := [] |}
  | Forward | ForwardNoGrad => n
  | Backward e => {| params := params n; grad := grad n ++ [e] |}
  | Step => {| params := SGD LEARNING_RATE (params n) (grad n);
               grad := grad n |}
  end.

Record world : Type := {
  rand : rng;
  (** the number [model(indices)[i][j]]: the score a network gives to tag
      [j] for the token at position [i] *)
  scores : weights → list nat → nat → nat → Z;
  (** the rank the interpreter's string hashing, seeded once per process,
      gives a string among the elements of a set *)
  str_hash : string → nat;
  (** what [torch.load(path)] finds *)
  files : string → option network;
  (** every call into the tensor library so far, oldest first, each with the
      gradient buffers of the network at the moment of the call *)
  calls : list (torch_call * list example)
}.

(** ** The monad of methods *)

Record state (S : Type) : Type := { self : S; env : world }.
Arguments self {S} _.
Arguments env {S} _.

Definition M (S A : Type) : Type := state S → result A * state S.

#[global] Instance M_ret {S} : MRet (M S) := λ A a st, (Ok a, st).
#[global] Instance M_bind {S} : MBind (M S) := λ A B k m st,
  match m st with
  | (Ok a, st') => k a st'
  | (Raise e, st') => (Raise e, st')
  end.

Definition raise {S A} (e : exn) : M S A := λ st, (Raise e, st).

Definition lift {S A} (r : result A) : M S A := λ st, (r, st).

Definition get_self {S} : M S S := λ st, (Ok (self st), st).

Definition set_self {S} (f : S → S) : M S unit :=
  λ st, (Ok (), {| self := f (self st); env := env st |}).

Definition get_env {S} : M S world := λ st, (Ok (env st), st).

(** [for x in l: acc = f(acc, x)] *)
Fixpoint for_each {S A B} (f : B → A → M S B) (acc : B) (l : list A) : M S B :=
  match l with
  | [] => mret acc
  | x :: l' => acc' ← f acc x; for_each f acc' l'
  end.

(** ** Calls into the tensor library *)

Definition log_call {S} (c : torch_call) (g : list example) : M S unit :=
  λ st, (Ok (), {| self := self st;
                   env := {| rand := rand (env st); scores := scores (env st);
                             str_hash := str_hash (env st);
                             files := files (env st);
                             calls := calls (env st) ++ [(c, g)] |} |}).

(** A freshly constructed network: no gradient has been computed yet. *)
Definition fresh (w : weights) : network := {| params := w; grad := [] |}.

(** Make call [c] on the network object [model]. *)
Definition perform {S} (c : torch_call) (model : network) : M S network :=
  _ ← log_call c (grad model);
  mret (transition c model).

(** [optimizer.zero_grad()] *)
Definition zero_grad {S} (model : network) : M S network :=
  perform ZeroGrad model.

(** The layers of a network by their sizes, as the constructors
    [LSTMTagger.__init__] and [BiLstmCrfNetwork.__init__] pass them to
    [nn.Embedding], [nn.LSTM] and [nn.Linear]. *)
Record layers : Type := {
  embedding_rows : nat;
  embedding_dim : nat;
  lstm_input : nat;
  lstm_hidden : nat;
  lstm_bidirectional : bool;
  linear_in : nat;
  linear_out : nat
}.

Fixpoint layers_of (w : weights) : layers :=
  match w with
  | LSTMTagger embedding_dim hidden_dim vocab_size tagset_size bidirectional =>
      {| embedding_rows := vocab_size;
         embedding_dim := embedding_dim; lstm_input := embedding_dim;
         lstm_hidden := hidden_dim; lstm_bidirectional := bidirectional;
         linear_in := hidden_dim; linear_out := tagset_size |}
  | BiLstmCrfNetwork vocab_size tagset_size =>
      {| embedding_rows := vocab_size;
         embedding_dim := EMBEDDING_DIM; lstm_input := EMBEDDING_DIM;
         lstm_hidden := HIDDEN_DIM; lstm_bidirectional := true;
         linear_in := HIDDEN_DIM * 2; linear_out := tagset_size |}
  | SGD _ w _ => layers_of w
  end.

(** Features per token that leave the recurrent layer: a bidirectional
    [nn.LSTM] concatenates the outputs of its two directions. *)
Definition lstm_features (l : layers) : nat :=
  if lstm_bidirectional l then 2 * lstm_hidden l else lstm_hidden l.

(** Scores per token computed by [forward], when each layer is given the
    number of features it was constructed for: the embedding feeds the
    recurrent layer, whose output [lstm_out.view(len(sentence), -1)] feeds
    [hidden2tag].  Both classes are only ever constructed with 64 hidden
    units; a recurrent layer without any is not one the library builds,
    and has no forward pass here. *)
Definition forward_features (w : weights) : option nat :=
  let l := layers_of w in
  if decide (0 < lstm_hidden l ∧ embedding_dim l = lstm_input l
             ∧ lstm_features l = linear_in l)
  then Some (linear_out l) else None.

(** One row per token, with the scores of [tagset_size] tags. *)
Definition score_matrix (sc : weights → list nat → nat → nat → Z)
    (w : weights) (indices : list nat) (tagset_size : nat) : list (list Z) :=
  (λ i, sc w indices i <$> seq 0 tagset_size) <$> seq 0 (length indices).

(** [forward(sentence)] of both network classes, line by line:
    - [self.word_embeddings(sentence)] looks every index up in the embedding
      table and raises [IndexError] for one that is not a row of it;
    - [embeds.view(len(sentence), 1, -1)] raises [RuntimeError] for no
      token: the size [-1] stands for cannot be inferred from no element;
    - [self.hidden2tag(lstm_out.view(len(sentence), -1))] raises
      [RuntimeError] when the recurrent layer emits another number of
      features than [hidden2tag] was constructed for;
    - [F.log_softmax(tag_space, dim=1)] is one row per token with one score
      per tag. *)
Definition forward (sc : weights → list nat → nat → nat → Z) (w : weights)
    (indices : list nat) : result (list (list Z)) :=
  if decide (Forall (λ i, i < embedding_rows (layers_of w)) indices) then
    if decide (indices = []) then Raise RuntimeError
    else match forward_features w with
         | Some tagset_size => Ok (score_matrix sc w indices tagset_size)
         | None => Raise RuntimeError
         end
  else Raise IndexError.

(** [loss_function(scores, targets)] for [nn.NLLLoss]: [ValueError] unless
    there is one target per row of scores, [IndexError] for a target that
    is not the position of a score of its row.  The value of the loss is
    not modelled. *)
Definition nll_loss (scores : list (list Z)) (targets : list nat)
  : result unit :=
  if decide (length scores = length targets) then
    if decide (Forall2 (λ row target, target < length row) scores targets)
    then Ok () else Raise IndexError
  else Raise ValueError.

(** [model(indices)] while gradients are recorded *)
Definition call_model {S} (model : network) (indices : list nat)
  : M S (list (list Z)) :=
  _ ← perform Forward model;
  w ← get_env;
  lift (forward (scores w) (params model) indices).

(** [model(indices)] under [torch.no_grad()] *)
Definition call_model_no_grad {S} (model : network) (indices : list nat)
  : M S (list (list Z)) :=
  _ ← perform ForwardNoGrad model;
  w ← get_env;
  lift (forward (scores w) (params model) indices).

(** [loss = loss_function(scores, targets); loss.backward()], for the
    scores of the forward pass on the inputs of [e] and the targets of [e]:
    when the loss function raises, no backward pass is made. *)
Definition backward {S} (model : network) (scores : list (list Z))
    (e : example) : M S network :=
  _ ← lift (nll_loss scores e.2);
  perform (Backward e) model.

(** [optimizer.step()] *)
Definition step {S} (model : network) : M S network :=
  perform Step model.

(** [torch.load(path)] *)
Definition torch_load {S} (path : string) : M S network :=
  w ← get_env;
  match files w path with
  | Some n => mret n
  | None => raise FileNotFoundError
  end.

(** [random.randrange(n)] on the generator of the environment. *)
Definition draw {S} (n : nat) : M S nat :=
  λ st, let '(r, g) := randrange n (rand (env st)) in
        (r, {| self := self st;
               env := {| rand := g; scores := scores (env st);
                         str_hash := str_hash (env st);
                         files := files (env st); calls := calls (env st) |} |}).

(** ** Objects passed to [fit] and [predict] *)

(** Modelled from the spec: [medacy.data.Dataset] is imported, not defined, by
    the source.  It is "a source of paired (token sequence, tag sequence)
    training examples, plus an enumerable set of valid tags": [get_labels()]
    returns the set of tags (its elements, without duplicates) and
    [get_training_data('pytorch')] the list of pairs. *)
Record Dataset : Type := {
  ds_labels : list string;
  ds_training_data : list (list string * list string)
}.

Definition get_labels (d : Dataset) : list string := remove_dups (ds_labels d).

(** [s.add(x)] on the elements of a set. *)
Definition set_add (x : string) (s : list string) : list string :=
  if decide (x ∈ s) then s else s ++ [x].

(** [for x in s] and [list(s)] for a set [s] of strings: a set is iterated
    slot by slot, and the slot of a string follows from its hash, which
    differs from one process to the next.  The elements come in the order
    of the rank [hash] gives them. *)
Definition set_iter (hash : string → nat) (s : list string) : list string :=
  @merge_sort _ (λ x y, hash x ≤ hash y) (λ x y, decide (hash x ≤ hash y)) s.

(** The values a caller can pass where a dataset or a text is expected. *)
Inductive pyobj : Type :=
| PyDataset (d : Dataset)
| PyStr (s : string)
| PyInt (z : Z)
| PyNone
| PyList (l : list (list string)).

(** ** [class PytorchModel] *)

Module PytorchModel.

Record t : Type := {
  model : option network;
  labels : list string;
  word_to_index : dict string nat;
  tag_to_index : dict string nat;
  bidirectional : bool
}.

(** [PytorchModel(bidirectional)]: the class attributes and the flag. *)
Definition init (bidirectional : bool) : t :=
  {| model := None; labels := []; word_to_index := []; tag_to_index := [];
     bidirectional := bidirectional |}.

(** [[to_index[w] for w in sequence]] *)
Definition vectorize (sequence : list string) (to_index : dict string nat)
  : result (list nat) :=
  rmap (dict_lookup to_index) sequence.

Definition devectorize (vectors : list (list Z)) (to_index : dict string nat)
  : result (list string) :=
  let to_tag := invert to_index in
  rmap (devectorize_one to_tag) vectors.

Definition get_segments {A} (source : list A) : list (list A) :=
  (λ i, slice source i (i + SEGMENT_SIZE))
    <$> py_range 0 (length source) SEGMENT_SIZE.

(** [for i in range(len(sentences)):
       preprocessed_data.append((sentences[i], tag_segments[i]))] *)
Definition pair_up (sentences tag_segments : list (list string))
    (preprocessed_data : list (list string * list string)) (i : nat)
  : M t (list (list string * list string)) :=
  match sentences !! i, tag_segments !! i with
  | Some s, Some g => mret (preprocessed_data ++ [(s, g)])
  | _, _ => raise IndexError
  end.

(** [for sent, tags in training_data: for word in sent: ...] *)
Definition index_words (training_data : list (list string * list string))
  : dict string nat :=
  foldl (λ word_to_index st, foldl index_item word_to_index st.1)
        [] training_data.

(** [for label in labels: tag_to_index[label] = len(tag_to_index)], for
    the labels in the order the set yields them. *)
Definition index_labels (labels : list string) : dict string nat :=
  foldl (λ tag_to_index label,
           dict_set tag_to_index label (length tag_to_index))
        [] labels.

(** [labels] is a set; what is kept of it in [self.labels] is its elements
    in the order it is iterated, here and in [fit]. *)
Definition get_training_data (dataset : Dataset)
  : M t (list (list string * list string)) :=
  w ← get_env;
  let labels := set_iter (str_hash w) (set_add "O" (get_labels dataset)) in
  let training_data := ds_training_data dataset in
  let word_to_index := index_words training_data in
  let tag_to_index := index_labels labels in
  preprocessed_data ←
    for_each (λ acc dt,
        let sentences := get_segments dt.1 in
        let tag_segments := get_segments dt.2 in
        for_each (pair_up sentences tag_segments) acc
                 (seq 0 (length sentences)))
      [] training_data;
  _ ← set_self (λ s, {| model := model s; labels := labels;
                        word_to_index := word_to_index;
                        tag_to_index := tag_to_index;
                        bidirectional := bidirectional s |});
  mret preprocessed_data.

(** A loss value, symbolically: the scores and the targets it compares. *)
Definition loss : Type := list (list Z) * list nat.

(** Body of the loop over [training_data] in [fit], steps 1 to 4. *)
Definition training_step (word_to_index tag_to_index : dict string nat)
    (acc : network * list loss) (ex : list string * list string)
  : M t (network * list loss) :=
  model ← zero_grad acc.1;
  sentence_in ← lift (vectorize ex.1 word_to_index);
  targets ← lift (vectorize ex.2 tag_to_index);
  tag_scores ← call_model model sentence_in;
  model ← backward model tag_scores (sentence_in, targets);
  model ← step model;
  mret (model, acc.2 ++ [(tag_scores, targets)]).

(** [sum(l) / len(l)]: only the division can fail. *)
Definition average {S A} (l : list A) : M S unit :=
  if decide (length l = 0) then raise ZeroDivisionError else mret ().

(** Body of [for epoch in range(epochs)]. *)
Definition run_epoch (word_to_index tag_to_index : dict string nat)
    (training_data : list (list string * list string))
    (model : network) (epoch : nat) : M t network :=
  r ← for_each (training_step word_to_index tag_to_index) (model, [])
               training_data;
  _ ← average r.2;
  mret r.1.

(** The per-label counting loop after training: per position, whether the
    correct tag and the prediction are the label.  The precision, recall and
    F1 quotients have a positive constant added to their divisors. *)
Definition sentence_scores (labels : list string) (length : nat)
    (devectorized_tag_scores correct_tags : list string)
  : result (list (list (bool * bool))) :=
  rmap (λ label,
      rmap (λ i,
          match devectorized_tag_scores !! i, correct_tags !! i with
          | Some prediction, Some correct_tag =>
              Ok (bool_decide (correct_tag = label),
                  bool_decide (prediction = label))
          | _, _ => Raise IndexError
          end)
        (seq 0 length))
    labels.

Definition fit (dataset : pyobj) (epochs : nat) : M t unit :=
  match dataset with
  | PyDataset ds =>
      training_data ← get_training_data ds;
      s ← get_self;
      let word_to_index := word_to_index s in
      let tag_to_index := tag_to_index s in
      let model :=
        fresh (LSTMTagger EMBEDDING_DIM HIDDEN_DIM (length word_to_index)
                          (length tag_to_index) (bidirectional s)) in
      model ← for_each (run_epoch word_to_index tag_to_index training_data)
                       model (seq 0 epochs);
      first ← match training_data !! 0 with
              | Some p => mret p
              | None => raise IndexError
              end;
      inputs ← lift (vectorize first.1 word_to_index);
      tag_scores ← call_model_no_grad model inputs;
      devectorized_tag_scores ← lift (devectorize tag_scores tag_to_index);
      s ← get_self;
      f1_scores ← lift (sentence_scores (labels s) (length tag_scores)
                                        devectorized_tag_scores first.2);
      _ ← average f1_scores;
      set_self (λ s, {| model := Some model; labels := labels s;
                        word_to_index := PytorchModel.word_to_index s;
                        tag_to_index := PytorchModel.tag_to_index s;
                        bidirectional := bidirectional s |})
  | _ => raise TypeError
  end.

(** [isinstance(dataset, (Dataset, str))] *)
Definition is_dataset_or_str (dataset : pyobj) : bool :=
  match dataset with PyDataset _ | PyStr _ => true | _ => false end.

(** [predict]: after the two guards, the [Dataset] branch reads the local
    [prediction_directory] before any assignment to it, and the [str] branch
    calls [nlp], a name the module never binds. *)
Definition predict (dataset : pyobj)
  : M t (option (list (nat * nat * string))) :=
  _ ← (if is_dataset_or_str dataset then mret () else raise TypeError);
  s ← get_self;
  model ← match model s with
          | None => raise ValueError
          | Some m => mret m
          end;
  _ ← match dataset with
      | PyDataset _ => raise UnboundLocalError
      | _ => mret ()
      end;
  match dataset with
  | PyStr _ => raise NameError
  | _ => mret None
  end.

(** [load]: the network read from [path] is bound to a local name only. *)
Definition load (path : string) : M t unit :=
  model ← torch_load path;
  mret ().

End PytorchModel.

(** ** [class BiLstmCrfLearner] *)

Module BiLstmCrfLearner.

Record t : Type := {
  model : option network;
  token_to_index : dict string nat;
  tag_to_index : dict string nat
}.

(** [BiLstmCrfLearner()]: the class attributes. *)
Definition init : t :=
  {| model := None; token_to_index := []; tag_to_index := [] |}.

Definition devectorize_tags (tags_vectors : list (list Z))
  : M t (list string) :=
  s ← get_self;
  let to_tag := invert (tag_to_index s) in
  lift (rmap (devectorize_one to_tag) tags_vectors).

Definition create_index_dictionary (sequences : list (list string))
  : dict string nat :=
  foldl (λ to_index sequence, foldl index_item to_index sequence) [] sequences.

(** Body of the loop of [vectorize]. *)
Definition vectorize_item {S} (to_index : dict string nat)
    (indices : list nat) (item : string) : M S (list nat) :=
  if dict_contains to_index item then
    i ← lift (dict_lookup to_index item);
    mret (indices ++ [i])
  else
    i ← draw (length to_index);
    mret (indices ++ [i]).

Definition vectorize {S} (sequence : list string) (to_index : dict string nat)
  : M S (list nat) :=
  for_each (vectorize_item to_index) [] sequence.

(** Body of the loop of [fit], steps 1 to 4. *)
Definition training_step (model : network) (ex : list string * list string)
  : M t network :=
  model ← zero_grad model;
  s ← get_self;
  tokens_vector ← vectorize ex.1 (token_to_index s);
  s ← get_self;
  correct_tags_vector ← vectorize ex.2 (tag_to_index s);
  prediction_scores ← call_model model tokens_vector;
  model ← backward model prediction_scores
                   (tokens_vector, correct_tags_vector);
  step model.

Definition fit (x_data y_data : list (list string)) : M t unit :=
  _ ← set_self (λ s, {| model := model s;
                        token_to_index := create_index_dictionary x_data;
                        tag_to_index := tag_to_index s |});
  _ ← set_self (λ s, {| model := model s;
                        token_to_index := token_to_index s;
                        tag_to_index := create_index_dictionary y_data |});
  s ← get_self;
  let vocab_size := length (token_to_index s) in
  let tagset_size := length (tag_to_index s) in
  let model := fresh (BiLstmCrfNetwork vocab_size tagset_size) in
  model ← for_each training_step model (zip x_data y_data);
  set_self (λ s, {| model := Some model;
                    token_to_index := token_to_index s;
                    tag_to_index := tag_to_index s |}).

(** Body of the loop of [predict]; calling [self.model] when it is [None]
    is a [TypeError]. *)
Definition predict_one (predictions : list (list string))
    (sequence : list string) : M t (list (list string)) :=
  s ← get_self;
  vectorized_tokens ← vectorize sequence (token_to_index s);
  s ← get_self;
  tag_scores ← match model s with
               | Some m => call_model_no_grad m vectorized_tokens
               | None => raise TypeError
               end;
  tags ← devectorize_tags tag_scores;
  mret (predictions ++ [tags]).

Definition predict (sequences : list (list string))
  : M t (list (list string)) :=
  s ← get_self;
  if decide (length (token_to_index s) = 0) then raise RuntimeError
  else for_each predict_one [] sequences.

End BiLstmCrfLearner.

(** ** Vocabulary of the specification *)

(** ⌈n / w⌉ *)
Definition ceil_div (n w : nat) : nat :=
  n / w + (if decide (n `mod` w = 0) then 0 else 1).

(** The distinct items of [l], each at the place of its first occurrence. *)
Definition see (seen : list string) (x : string) : list string :=
  if decide (x ∈ seen) then seen else seen ++ [x].

Definition first_seen (l : list string) : list string := foldl see [] l.

(** A mapping whose keys are distinct and whose indices count up from 0 in
    insertion order: the indices are exactly [0 .. |V|-1]. *)
Definition index_mapping (d : dict string nat) : Prop :=
  NoDup d.*1 ∧ d.*2 = seq 0 (length d).

(** The items of [l] numbered from 0 in order. *)
Definition enumerate (l : list string) : dict string nat :=
  zip l (seq 0 (length l)).

(** Position [i] holds a maximum of [v] and every earlier position holds a
    strictly smaller score: the first occurrence of the maximum. *)
Definition is_first_max (v : list Z) (i : nat) : Prop :=
  ∃ m, v !! i = Some m
       ∧ (∀ j x, v !! j = Some x → (x ≤ m)%Z)
       ∧ (∀ j x, v !! j = Some x → j < i → (x < m)%Z).

(** The score vector of length [n] that is 1 at position [i], 0 elsewhere. *)
Definition one_hot (n i : nat) : list Z :=
  (λ j, if decide (j = i) then 1%Z else 0%Z) <$> seq 0 n.

(** The calls of a log, made one after the other on a network object in
    state [n], each logged with the buffers of the state it is made in,
    leave the object in state [n']. *)
Inductive run : network → list (torch_call * list example) → network → Prop :=
| run_nil n : run n [] n
| run_call n c log n' :
    run (transition c n) log n' → run n ((c, grad n) :: log) n'.

(** A logged forward pass of a training step has empty gradient buffers. *)
Definition clean_forward (c : torch_call * list example) : Prop :=
  c.1 = Forward → c.2 = [].

(** In the run of [log] from [start], every forward pass of a training step
    leaves from a state whose gradient buffers are empty. *)
Definition forward_from_clean_state (start : network)
    (log : list (torch_call * list example)) : Prop :=
  ∀ pre g post, log = pre ++ (Forward, g) :: post →
    ∃ n, run start pre n ∧ grad n = [].

(** [m] makes no call into the tensor library. *)
Definition silent {S A} (m : M S A) : Prop :=
  ∀ st, calls (env (m st).2) = calls (env st).

(** Started with the network object in state [n], [m] appends to the log a
    run from [n] to some [n'] in which forward passes are clean, and a value
    it returns is related to [n'] by [Q]. *)
Definition runs {S A} (n : network) (Q : A → network → Prop) (m : M S A)
  : Prop :=
  ∀ st, ∃ new n',
    calls (env (m st).2) = calls (env st) ++ new
    ∧ run n new n'
    ∧ Forall clean_forward new
    ∧ ∀ a, (m st).1 = Ok a → Q a n'.

(** [m] appends to the log a run of a freshly constructed network in which
    forward passes are clean. *)
Definition trains {S A} (m : M S A) : Prop :=
  ∀ st, ∃ w new final,
    calls (env (m st).2) = calls (env st) ++ new
    ∧ run (fresh w) new final
    ∧ Forall clean_forward new.

(** The number of forward passes of training steps in a log. *)
Definition is_forward (c : torch_call * list example) : bool :=
  match c.1 with Forward => true | _ => false end.

Definition forwards (log : list (torch_call * list example)) : nat :=
  length (List.filter is_forward log).

(** [m] appends at most [k] forward passes of training steps to the log. *)
Definition at_most_forwards {S A} (k : nat) (m : M S A) : Prop :=
  ∀ st, ∃ new,
    calls (env (m st).2) = calls (env st) ++ new ∧ forwards new ≤ k.

(** The network object [n] has an embedding row for each of [vocab_size]
    indices, and layers that fit and end in [tagset_size] scores. *)
Definition fits (n : network) (vocab_size tagset_size : nat) : Prop :=
  embedding_rows (layers_of (params n)) = vocab_size
  ∧ forward_features (params n) = Some tagset_size.

(** The indices of the items of [l] in [d] (0 for an item not in [d]). *)
Definition indices_of (d : dict string nat) (l : list string) : list nat :=
  (λ item, default 0 (dict_get d item)) <$> l.

(** The state [st] with [new] appended to the log of calls. *)
Definition with_calls {S} (st : state S) (new : list (torch_call * list example))
  : state S :=
  {| self := self st;
     env := {| rand := rand (env st); scores := scores (env st);
               str_hash := str_hash (env st);
               files := files (env st); calls := calls (env st) ++ new |} |}.

(** The four calls of one training step on example [e], made on a network
    in state [n], and the state they leave. *)
Definition step_calls (n : network) (e : example)
  : list (torch_call * list example) :=
  [(ZeroGrad, grad n); (Forward, []); (Backward e, []); (Step, [e])].

Definition after_step (n : network) (e : example) : network :=
  {| params := SGD LEARNING_RATE (params n) [e]; grad := [e] |}.

(** The calls of the training steps on the examples [es], from state [n]. *)
Fixpoint steps_calls (n : network) (es : list example)
  : list (torch_call * list example) :=
  match es with
  | [] => []
  | e :: es' => step_calls n e ++ steps_calls (after_step n e) es'
  end.

(** ** Concrete inputs used in examples *)

(** An environment whose generator yields 0, 1, 2, ..., whose networks
    score tag [j] with [j], whose sets are iterated from short strings to
    long ones, and whose file system is empty. *)
Definition counting_world : world :=
  {| rand := {| draws := λ k, k; cursor := 0 |};
     scores := λ _ _ _ j, Z.of_nat j;
     str_hash := String.length;
     files := λ _, None;
     calls := [] |}.

Definition three_tags : dict string nat := [("O", 0); ("DRUG", 1); ("DOSE", 2)].

(** One document of two tokens with a single tag. *)
Definition mismatched_dataset : Dataset :=
  {| ds_labels := ["DRUG"];
     ds_training_data := [(["Give"; "Aspirin"], ["O"])] |}.

(** One document whose tokens and tags line up. *)
Definition aligned_dataset : Dataset :=
  {| ds_labels := ["DRUG"];
     ds_training_data := [(["Give"; "Aspirin"; "now"], ["O"; "DRUG"; "O"])] |}.

(** ** Further vocabulary *)

(** The number of items of [l] that are not keys of [d]. *)
Definition oov_count (d : dict string nat) (l : list string) : nat :=
  length (List.filter (λ item, negb (dict_contains d item)) l).

(** A (tokens, tags) pair a training step can work on: at least one token,
    and as many tags as tokens. *)
Definition trainable (ex : list string * list string) : Prop :=
  ex.1 ≠ [] ∧ length ex.1 = length ex.2.

(** What a training step of [PytorchModel.fit] needs of a segment pair:
    tokens and tags it can work on, all of them keys of the mappings. *)
Definition usable_with (word_to_index tag_to_index : dict string nat)
    (ex : list string * list string) : Prop :=
  trainable ex
  ∧ Forall (λ item, dict_contains word_to_index item = true) ex.1
  ∧ Forall (λ item, dict_contains tag_to_index item = true) ex.2.

(** The examples a trainer makes of (tokens, tags) pairs. *)
Definition examples_of (token_to_index tag_to_index : dict string nat)
    (pairs : list (list string * list string)) : list example :=
  (λ ex, (indices_of token_to_index ex.1, indices_of tag_to_index ex.2))
    <$> pairs.

(** The (token segment, tag segment) pairs of the documents of a dataset,
    paired by position. *)
Definition segment_pairs (training_data : list (list string * list string))
  : list (list string * list string) :=
  concat ((λ dt, zip (PytorchModel.get_segments dt.1)
                     (PytorchModel.get_segments dt.2)) <$> training_data).

(** The labels of [ds] and ['O'], as the set of them is iterated in the
    environment [w]. *)
Definition labels_of (w : world) (ds : Dataset) : list string :=
  set_iter (str_hash w) (set_add "O" (get_labels ds)).

(** The instance after [get_training_data] has returned for [ds] in the
    environment [w]. *)
Definition installed (w : world) (ds : Dataset) (s : PytorchModel.t)
  : PytorchModel.t :=
  {| PytorchModel.model := PytorchModel.model s;
     PytorchModel.labels := labels_of w ds;
     PytorchModel.word_to_index :=
       PytorchModel.index_words (ds_training_data ds);
     PytorchModel.tag_to_index := PytorchModel.index_labels (labels_of w ds);
     PytorchModel.bidirectional := PytorchModel.bidirectional s |}.

(** One document with a tag that is not among the labels. *)
Definition unlabelled_dataset : Dataset :=
  {| ds_labels := ["DRUG"];
     ds_training_data := [(["Give"; "5mg"], ["O"; "DOSE"])] |}.

(** [st] has the learner, the scores, the files and the supply of draws of
    [st0]. *)
Definition same_learner {S} (st0 st : state S) : Prop :=
  self st = self st0
  ∧ scores (env st) = scores (env st0)
  ∧ files (env st) = files (env st0)
  ∧ draws (rand (env st)) = draws (rand (env st0)).

(** An environment whose networks score every tag 0 for every token, and
    whose sets are iterated from long strings to short ones. *)
Definition uniform_world : world :=
  {| rand := {| draws := λ k, k; cursor := 0 |};
     scores := λ _ _ _ _, 0%Z;
     str_hash := λ x, 100 - String.length x;
     files := λ _, None;
     calls := [] |}.

(** * Properties *)

(** ** Segmenter *)

Section segments.
Context {A : Type} (W : nat) (HW : 0 < W).

Lemma py_range_from_0 n :
  py_range 0 n W = (λ k, k * W) <$> seq 0 ((n + W - 1) / W).
Proof. unfold py_range. by rewrite Nat.sub_0_r. Qed.

Lemma range_count n : (n + W - 1) / W = ceil_div n W.
Proof.
  unfold ceil_div.
  pose proof (Nat.div_mod_eq n W) as E.
  pose proof (Nat.mod_upper_bound n W ltac:(lia)) as B.
  set (q := n / W) in *. set (r := n `mod` W) in *.
  case_decide as Hr.
  - symmetry. apply (Nat.div_unique _ _ _ (W - 1)); lia.
  - symmetry. apply (Nat.div_unique _ _ _ (r - 1)); lia.
Qed.

Lemma range_count_covers n : n ≤ (n + W - 1) / W * W.
Proof.
  rewrite range_count. unfold ceil_div.
  pose proof (Nat.div_mod_eq n W) as E.
  pose proof (Nat.mod_upper_bound n W ltac:(lia)) as B.
  case_decide; nia.
Qed.

Lemma range_count_tight n : ((n + W - 1) / W - 1) * W < n ∨ n = 0.
Proof.
  rewrite range_count. unfold ceil_div.
  pose proof (Nat.div_mod_eq n W) as E.
  pose proof (Nat.mod_upper_bound n W ltac:(lia)) as B.
  destruct (decide (n = 0)) as [|Hn]; [by right|left].
  case_decide as Hr.
  - assert (0 < n / W) by (destruct (n / W); lia). nia.
  - nia.
Qed.

Lemma concat_windows m (l : list A) :
  length l ≤ m * W →
  concat ((λ k, take W (drop (k * W) l)) <$> seq 0 m) = l.
Proof.
  revert l. induction m as [|m IH]; intros l Hl.
  - destruct l; [done | simpl in Hl; lia].
  - rewrite <- cons_seq, fmap_cons. simpl concat.
    rewrite <- fmap_S_seq, <- list_fmap_compose.
    erewrite (list_fmap_ext _ (λ k, take W (drop (k * W) (drop W l)))).
    + rewrite IH; [apply take_drop|]. rewrite length_drop. lia.
    + intros i k _. simpl. rewrite drop_drop. by rewrite (Nat.add_comm W).
Qed.

Lemma windows_lookup (l : list A) i seg :
  ((λ i, slice l i (i + W)) <$> py_range 0 (length l) W) !! i = Some seg →
  seg = take W (drop (i * W) l) ∧ i < (length l + W - 1) / W.
Proof.
  rewrite py_range_from_0, <- list_fmap_compose, list_lookup_fmap.
  intros H. apply fmap_Some in H as (k & Hk & ->).
  apply lookup_seq in Hk as [-> Hlt]. simpl. unfold slice.
  split; [|done]. f_equal. lia.
Qed.

Lemma windows_spec (l : list A) :
  let segs := (λ i, slice l i (i + W)) <$> py_range 0 (length l) W in
  length segs = ceil_div (length l) W
  ∧ concat segs = l
  ∧ (∀ i seg, segs !! i = Some seg → seg = take W (drop (i * W) l))
  ∧ (∀ i seg, segs !! i = Some seg → S i < length segs → length seg = W)
  ∧ (∀ i seg, segs !! i = Some seg → 0 < length seg ≤ W).
Proof.
  intros segs.
  assert (Hlen : length segs = (length l + W - 1) / W).
  { unfold segs. by rewrite py_range_from_0, !length_fmap, length_seq. }
  split_and!.
  - by rewrite Hlen, range_count.
  - unfold segs. rewrite py_range_from_0, <- list_fmap_compose.
    erewrite (list_fmap_ext _ (λ k, take W (drop (k * W) l))).
    + apply concat_windows, range_count_covers.
    + intros i k _. simpl. unfold slice. f_equal. lia.
  - intros i seg H. by apply windows_lookup in H as [? _].
  - intros i seg H Hi. apply windows_lookup in H as [-> Hlt].
    rewrite length_take, length_drop. rewrite Hlen in Hi.
    pose proof (range_count_tight (length l)) as [T | T];
      [|rewrite T, Nat.div_small in Hi; lia].
    assert (S i * W ≤ ((length l + W - 1) / W - 1) * W) by (apply Nat.mul_le_mono_r; lia).
    lia.
  - intros i seg H. apply windows_lookup in H as [-> Hlt].
    rewrite length_take, length_drop.
    pose proof (range_count_tight (length l)) as [T | T].
    + assert (i * W ≤ ((length l + W - 1) / W - 1) * W) by (apply Nat.mul_le_mono_r; lia).
      lia.
    + rewrite T in Hlt. rewrite Nat.div_small in Hlt; lia.
Qed.
End segments.

(** Lengths of the segments of a sequence of length [n]. *)
Lemma segment_lengths {A} (source : list A) :
  length <$> PytorchModel.get_segments source
  = (λ i, SEGMENT_SIZE `min` (length source - i))
      <$> py_range 0 (length source) SEGMENT_SIZE.
Proof.
  unfold PytorchModel.get_segments. rewrite <- list_fmap_compose.
  apply list_fmap_ext. intros _ i _. unfold compose, slice.
  rewrite length_take, length_drop. lia.
Qed.

(** C3: [get_segments] cuts a sequence of length N into ⌈N/100⌉ windows,
    the i-th being the items from position 100*i up to (not including)
    100*(i+1); their concatenation is the sequence, every window but the
    last has exactly 100 items and none is empty.  250 items give windows
    of 100, 100 and 50 items; 100 items give one window of 100 items. *)
Theorem get_segments_spec {A} (source : list A) :
  let segs := PytorchModel.get_segments source in
  length segs = ceil_div (length source) 100
  ∧ concat segs = source
  ∧ (∀ i seg, segs !! i = Some seg → seg = take 100 (drop (i * 100) source))
  ∧ (∀ i seg, segs !! i = Some seg → S i < length segs → length seg = 100)
  ∧ (∀ i seg, segs !! i = Some seg → 0 < length seg ≤ 100)
  ∧ (length source = 250 → length <$> segs = [100; 100; 50])
  ∧ (length source = 100 → length <$> segs = [100]).
Proof.
  intros segs.
  destruct (windows_spec SEGMENT_SIZE ltac:(unfold SEGMENT_SIZE; lia) source)
    as (H1 & H2 & H3 & H4 & H5).
  change SEGMENT_SIZE with 100 in *.
  split_and!; try done.
  - intros Hn. unfold segs. rewrite segment_lengths, Hn. by vm_compute.
  - intros Hn. unfold segs. rewrite segment_lengths, Hn. by vm_compute.
Qed.

Lemma get_segments_spec_witness :
  length <$> PytorchModel.get_segments (replicate 250 "tok") = [100; 100; 50].
Proof.
  apply (get_segments_spec (replicate 250 "tok")). by vm_compute.
Defined.

(** ** Dictionaries *)

Section dict_facts.
Context {K V : Type} `{EqDecision K}.
Implicit Types (d : dict K V) (k : K) (v : V).

Lemma dict_get_None d k : dict_get d k = None ↔ k ∉ d.*1.
Proof.
  induction d as [|[k' v'] d IH]; simpl.
  - split; [intros _; apply not_elem_of_nil | done].
  - case_decide as E.
    + subst. split; [done | intros Hn; destruct Hn; left].
    + rewrite IH, not_elem_of_cons. tauto.
Qed.

Lemma dict_contains_true d k : dict_contains d k = true ↔ k ∈ d.*1.
Proof.
  unfold dict_contains. pose proof (dict_get_None d k) as Hn.
  destruct (dict_get d k); split; intros; try done.
  - destruct (decide (k ∈ d.*1)) as [|Hk]; [done|]. apply Hn in Hk. done.
  - exfalso. by apply Hn.
Qed.

Lemma dict_get_Some d k v :
  NoDup d.*1 → dict_get d k = Some v ↔ (k, v) ∈ d.
Proof.
  induction d as [|[k' v'] d IH]; simpl; intros Hnd.
  - split; [done | intros Hin; by apply elem_of_nil in Hin].
  - apply NoDup_cons in Hnd as [Hk' Hnd]. rewrite elem_of_cons.
    case_decide as E.
    + subst. split; [intros [= ->]; by left|].
      intros [[= ->]|Hin]; [done|]. destruct Hk'.
      apply list_elem_of_fmap. by exists (k', v).
    + rewrite IH by done. split; [tauto|]. intros [[= -> ->]|?]; done.
Qed.

Lemma dict_set_fresh d k v : k ∉ d.*1 → dict_set d k v = d ++ [(k, v)].
Proof.
  induction d as [|[k' v'] d IH]; simpl; intros Hk; [done|].
  apply not_elem_of_cons in Hk as [Hne Hk].
  case_decide; [done|]. by rewrite IH.
Qed.

End dict_facts.

(** ** Vocabulary Indexer *)

Lemma enumerate_keys l : (enumerate l).*1 = l.
Proof. unfold enumerate. apply fst_zip. by rewrite length_seq. Qed.

Lemma enumerate_values l : (enumerate l).*2 = seq 0 (length l).
Proof. unfold enumerate. apply snd_zip. by rewrite length_seq. Qed.

Lemma enumerate_length l : length (enumerate l) = length l.
Proof. unfold enumerate. rewrite length_zip_with, length_seq. lia. Qed.

Lemma enumerate_snoc l x : enumerate (l ++ [x]) = enumerate l ++ [(x, length l)].
Proof.
  unfold enumerate. rewrite length_app, seq_app. simpl.
  rewrite zip_with_app by (by rewrite length_seq). done.
Qed.

Lemma enumerate_lookup l x i :
  NoDup l → dict_get (enumerate l) x = Some i ↔ l !! i = Some x.
Proof.
  intros Hnd. rewrite dict_get_Some by (by rewrite enumerate_keys).
  unfold enumerate. rewrite elem_of_lookup_zip_with. split.
  - intros (j & x' & i' & [= -> ->] & Hx & Hi).
    apply lookup_seq in Hi as [-> _]. done.
  - intros Hx. exists i, x, i. split_and!; [done..|].
    apply lookup_seq. split; [done|]. by eapply lookup_lt_Some.
Qed.

(** One round of the indexing loop on a numbered list of distinct items. *)
Lemma index_item_enumerate seen x :
  index_item (enumerate seen) x
  = enumerate (see seen x).
Proof.
  unfold index_item, see.
  pose proof (dict_contains_true (enumerate seen) x) as Hc.
  rewrite enumerate_keys in Hc.
  case_decide as Hin.
  - apply Hc in Hin. by rewrite Hin.
  - destruct (dict_contains (enumerate seen) x); [by destruct Hin; apply Hc|].
    rewrite dict_set_fresh by (by rewrite enumerate_keys).
    by rewrite enumerate_snoc, enumerate_length.
Qed.

Lemma index_items_enumerate l seen :
  foldl index_item (enumerate seen) l
  = enumerate (foldl see seen l).
Proof.
  revert seen. induction l as [|x l IH]; intros seen; simpl; [done|].
  by rewrite index_item_enumerate, IH.
Qed.

Lemma foldl_concat {A B} (f : A → B → A) (a : A) (ls : list (list B)) :
  foldl (λ a l, foldl f a l) a ls = foldl f a (concat ls).
Proof.
  revert a. induction ls as [|l ls IH]; intros a; simpl; [done|].
  by rewrite foldl_app, IH.
Qed.

Lemma create_index_dictionary_enumerate sequences :
  BiLstmCrfLearner.create_index_dictionary sequences
  = enumerate (first_seen (concat sequences)).
Proof.
  unfold BiLstmCrfLearner.create_index_dictionary, first_seen.
  rewrite foldl_concat. apply (index_items_enumerate _ []).
Qed.

Lemma first_seen_from_spec l seen :
  NoDup seen →
  let r := foldl see seen l in
  NoDup r ∧ (∀ x, x ∈ r ↔ x ∈ seen ∨ x ∈ l) ∧ seen `prefix_of` r.
Proof.
  revert seen. induction l as [|y l IH]; intros seen Hnd; simpl.
  - split_and!; [done| |done]. intros x. rewrite elem_of_nil. tauto.
  - destruct (decide (y ∈ seen)) as [Hy|Hy].
    + assert (see seen y = seen) as -> by (unfold see; by rewrite decide_True).
      destruct (IH seen Hnd) as (H1 & H2 & H3). split_and!; [done| |done].
      intros x. rewrite H2, elem_of_cons. split; [tauto|].
      intros [?|[->|?]]; tauto.
    + assert (see seen y = seen ++ [y]) as ->
        by (unfold see; by rewrite decide_False).
      destruct (IH (seen ++ [y])) as (H1 & H2 & H3).
      { apply NoDup_app. split_and!; [done| |apply NoDup_singleton].
        intros x Hx ->%list_elem_of_singleton. done. }
      split_and!; [done| |].
      * intros x. rewrite H2, elem_of_app, list_elem_of_singleton, elem_of_cons.
        tauto.
      * etrans; [|exact H3]. by apply prefix_app_r.
Qed.

Lemma first_seen_NoDup l : NoDup (first_seen l).
Proof. apply (first_seen_from_spec l []), NoDup_nil_2. Qed.

Lemma first_seen_elem_of l x : x ∈ first_seen l ↔ x ∈ l.
Proof.
  destruct (first_seen_from_spec l [] (NoDup_nil_2)) as (_ & H & _).
  unfold first_seen. rewrite H, elem_of_nil. tauto.
Qed.

Lemma enumerate_index_mapping l : NoDup l → index_mapping (enumerate l).
Proof.
  intros Hnd. split.
  - by rewrite enumerate_keys.
  - by rewrite enumerate_values, enumerate_length.
Qed.

Lemma create_index_dictionary_index_mapping sequences :
  index_mapping (BiLstmCrfLearner.create_index_dictionary sequences).
Proof.
  rewrite create_index_dictionary_enumerate.
  apply enumerate_index_mapping, first_seen_NoDup.
Qed.

Lemma index_labels_enumerate labels :
  NoDup labels → PytorchModel.index_labels labels = enumerate labels.
Proof.
  unfold PytorchModel.index_labels. intros Hnd.
  cut (∀ seen, NoDup (seen ++ labels) →
         foldl (λ d label, dict_set d label (length d)) (enumerate seen) labels
         = enumerate (seen ++ labels)).
  { intros Hc. apply (Hc []). done. }
  clear Hnd. induction labels as [|x l IH]; intros seen Hnd; simpl.
  - by rewrite app_nil_r.
  - rewrite dict_set_fresh.
    + rewrite enumerate_length, <- enumerate_snoc, IH; rewrite <- app_assoc; done.
    + rewrite enumerate_keys. apply NoDup_app in Hnd as (_ & Hd & _).
      intros Hx. apply (Hd x Hx). left.
Qed.

Lemma labels_NoDup ds : NoDup (set_add "O" (get_labels ds)).
Proof.
  unfold set_add, get_labels. case_decide as Hin; [apply NoDup_remove_dups|].
  apply NoDup_app. split_and!; [apply NoDup_remove_dups| |apply NoDup_singleton].
  intros x Hx ->%list_elem_of_singleton. done.
Qed.

(** The label set, in whatever order it is iterated. *)

Lemma set_iter_Permutation hash s : set_iter hash s ≡ₚ s.
Proof. apply merge_sort_Permutation. Qed.

Lemma labels_of_Permutation w ds :
  labels_of w ds ≡ₚ set_add "O" (get_labels ds).
Proof. apply set_iter_Permutation. Qed.

Lemma labels_of_NoDup w ds : NoDup (labels_of w ds).
Proof. rewrite labels_of_Permutation. apply labels_NoDup. Qed.

Lemma set_add_elem_of x s : x ∈ set_add x s.
Proof.
  unfold set_add. case_decide; [done|].
  apply elem_of_app. right. left.
Qed.

Lemma labels_elem_of ds tag :
  tag ∈ set_add "O" (get_labels ds) ↔ tag = "O" ∨ tag ∈ ds_labels ds.
Proof.
  unfold set_add, get_labels. case_decide as Hin.
  - rewrite elem_of_remove_dups in *. split; [by right|].
    intros [->|?]; done.
  - rewrite elem_of_app, elem_of_remove_dups, list_elem_of_singleton. tauto.
Qed.

Lemma index_labels_contains w ds tag :
  dict_contains (PytorchModel.index_labels (labels_of w ds)) tag = true
  ↔ tag ∈ set_add "O" (get_labels ds).
Proof.
  rewrite index_labels_enumerate by apply labels_of_NoDup.
  by rewrite dict_contains_true, enumerate_keys, labels_of_Permutation.
Qed.

Lemma index_labels_index_mapping w ds :
  index_mapping (PytorchModel.index_labels (labels_of w ds)).
Proof.
  rewrite index_labels_enumerate by apply labels_of_NoDup.
  apply enumerate_index_mapping, labels_of_NoDup.
Qed.

(** ** Devectorizer *)

Lemma foldl_max_spec (xs : list Z) (x : Z) :
  let m := foldl (λ m y, if bool_decide (m < y)%Z then y else m) x xs in
  (m = x ∨ m ∈ xs) ∧ (x ≤ m)%Z ∧ ∀ y, y ∈ xs → (y ≤ m)%Z.
Proof.
  revert x. induction xs as [|z xs IH]; intros x; simpl.
  - split_and!; [by left | lia | intros y Hy; by apply elem_of_nil in Hy].
  - destruct (IH (if bool_decide (x < z)%Z then z else x)) as (H1 & H2 & H3).
    case_bool_decide as Hlt.
    + split_and!.
      * right. destruct H1 as [->|]; [left | by right].
      * lia.
      * intros y [->|Hy]%elem_of_cons; [lia | by apply H3].
    + split_and!.
      * destruct H1 as [->|]; [by left | right; by right].
      * lia.
      * intros y [->|Hy]%elem_of_cons; [lia | by apply H3].
Qed.

Lemma py_max_spec (v : list Z) :
  v ≠ [] → ∃ m, py_max v = Ok m ∧ m ∈ v ∧ ∀ y, y ∈ v → (y ≤ m)%Z.
Proof.
  destruct v as [|x xs]; [done|]. intros _. simpl.
  destruct (foldl_max_spec xs x) as (H1 & H2 & H3).
  eexists. split_and!; [done | |].
  - destruct H1 as [->|]; [left | by right].
  - intros y [->|Hy]%elem_of_cons; [done | by apply H3].
Qed.

Lemma py_index_spec (v : list Z) (m : Z) :
  m ∈ v →
  ∃ i, py_index v m = Ok i ∧ v !! i = Some m
       ∧ ∀ j y, v !! j = Some y → j < i → y ≠ m.
Proof.
  intros Hm. unfold py_index.
  destruct (list_find (λ x, x = m) v) as [[i x]|] eqn:Hf.
  - apply list_find_Some in Hf as (Hi & -> & Hmin).
    exists i. split_and!; [done..|]. intros j y Hj Hlt. by eapply Hmin.
  - apply list_find_None in Hf. rewrite Forall_forall in Hf.
    by destruct (Hf m Hm).
Qed.

Lemma first_max_exists (v : list Z) :
  v ≠ [] →
  ∃ m i, py_max v = Ok m ∧ py_index v m = Ok i ∧ is_first_max v i.
Proof.
  intros Hv. destruct (py_max_spec v Hv) as (m & Hmax & Hin & Hle).
  destruct (py_index_spec v m Hin) as (i & Hidx & Hi & Hmin).
  exists m, i. split_and!; [done..|]. exists m. split_and!; [done| |].
  - intros j x Hj. apply Hle, list_elem_of_lookup. by exists j.
  - intros j x Hj Hlt.
    assert (x ≤ m)%Z by (apply Hle, list_elem_of_lookup; by exists j).
    assert (x ≠ m) by (by eapply Hmin). lia.
Qed.

Lemma is_first_max_unique (v : list Z) i j :
  is_first_max v i → is_first_max v j → i = j.
Proof.
  intros (m & Hi & Hle & Hlt) (m' & Hj & Hle' & Hlt').
  destruct (Nat.lt_trichotomy i j) as [H|[H|H]]; [|done|].
  - pose proof (Hlt' _ _ Hi H). pose proof (Hle _ _ Hj). lia.
  - pose proof (Hlt _ _ Hj H). pose proof (Hle' _ _ Hi). lia.
Qed.

Lemma is_first_max_lt (v : list Z) i : is_first_max v i → i < length v.
Proof. intros (m & Hi & _). by eapply lookup_lt_Some. Qed.

Lemma rmap_Ok {A B} (f : A → result B) (l : list A) (ys : list B) :
  rmap f l = Ok ys ↔ Forall2 (λ x y, f x = Ok y) l ys.
Proof.
  revert ys. induction l as [|x l IH]; intros ys; simpl.
  - split; [intros [= <-]; constructor | by intros ->%Forall2_nil_inv_l].
  - destruct (f x) as [y|e] eqn:Hx; simpl.
    + destruct (rmap f l) as [ys'|e] eqn:Hl; simpl.
      * split.
        -- intros [= <-]. constructor; [done | by apply IH].
        -- intros (y' & ys'' & Hy & Hys & ->)%Forall2_cons_inv_l.
           apply IH in Hys. congruence.
      * split; [done|].
        intros (y' & ys'' & Hy & Hys & ->)%Forall2_cons_inv_l.
        apply IH in Hys. done.
    + split; [done|].
      intros (y' & ys'' & Hy & Hys & ->)%Forall2_cons_inv_l. congruence.
Qed.

Lemma rmap_raise {A B} (f : A → result B) (l : list A) :
  is_raise (rmap f l) ↔ Exists (λ x, is_raise (f x)) l.
Proof.
  induction l as [|x l IH]; simpl.
  - split; [done | by intros ?%Exists_nil].
  - rewrite Exists_cons, <- IH.
    destruct (f x); simpl; [|tauto].
    destruct (rmap f l); simpl; tauto.
Qed.

Lemma invert_from (d : dict string nat) (acc : dict nat string) :
  NoDup (acc.*1 ++ d.*2) →
  foldl (λ to_tag xy, dict_set to_tag xy.2 xy.1) acc d
  = acc ++ (prod_swap <$> d).
Proof.
  revert acc. induction d as [|[x y] d IH]; intros acc Hnd; simpl.
  - by rewrite app_nil_r.
  - simpl in Hnd. rewrite dict_set_fresh.
    + rewrite IH; [by rewrite <- app_assoc|].
      by rewrite fmap_app, <- app_assoc.
    + apply NoDup_app in Hnd as (_ & Hd & _). intros Hy. apply (Hd y Hy). left.
Qed.

Lemma invert_index_mapping (d : dict string nat) :
  index_mapping d → invert d = prod_swap <$> d.
Proof.
  intros [_ Hv]. unfold invert. rewrite invert_from; [done|].
  simpl. rewrite Hv. apply NoDup_seq.
Qed.

Lemma invert_get (d : dict string nat) (i : nat) (tag : string) :
  index_mapping d →
  dict_get (invert d) i = Some tag ↔ dict_get d tag = Some i.
Proof.
  intros Hd. rewrite (invert_index_mapping d Hd). destruct Hd as [Hk Hv].
  assert (NoDup (prod_swap <$> d).*1) as Hk'.
  { rewrite <- list_fmap_compose.
    replace (fst ∘ prod_swap) with (@snd string nat) by done.
    rewrite Hv. apply NoDup_seq. }
  rewrite (dict_get_Some _ _ _ Hk'), (dict_get_Some _ _ _ Hk).
  rewrite list_elem_of_fmap. split.
  - intros ([x y] & [= -> ->] & Hin). done.
  - intros Hin. by exists (tag, i).
Qed.

Lemma index_mapping_get_lt (d : dict string nat) (tag : string) (i : nat) :
  index_mapping d → dict_get d tag = Some i → i < length d.
Proof.
  intros [Hk Hv] Hg. apply dict_get_Some in Hg; [|done].
  assert (i ∈ d.*2) as Hi by (apply list_elem_of_fmap; by exists (tag, i)).
  rewrite Hv in Hi. apply elem_of_seq in Hi. lia.
Qed.

Lemma index_mapping_tag_at (d : dict string nat) (i : nat) :
  index_mapping d → i < length d → ∃ tag, dict_get d tag = Some i.
Proof.
  intros [Hk Hv] Hi.
  destruct (lookup_lt_is_Some_2 d i Hi) as [[tag j] Hl].
  assert (d.*2 !! i = Some j) as Hj by (by rewrite list_lookup_fmap, Hl).
  rewrite Hv in Hj. apply lookup_seq in Hj as [-> _].
  exists tag. apply dict_get_Some; [done|].
  apply list_elem_of_lookup. by exists i.
Qed.

Lemma lookup_invert (d : dict string nat) (i : nat) :
  index_mapping d →
  (∀ tag, dict_lookup (invert d) i = Ok tag ↔ dict_get d tag = Some i)
  ∧ (length d ≤ i → dict_lookup (invert d) i = Raise KeyError).
Proof.
  intros Hd. unfold dict_lookup. split.
  - intros tag. rewrite <- invert_get by done.
    destruct (dict_get (invert d) i); split; congruence.
  - intros Hi. destruct (dict_get (invert d) i) as [tag|] eqn:Hg; [|done].
    apply invert_get in Hg; [|done].
    apply index_mapping_get_lt in Hg; [lia | done].
Qed.

Lemma devectorize_one_first_max to_tag (v : list Z) (i : nat) :
  is_first_max v i → devectorize_one to_tag v = dict_lookup to_tag i.
Proof.
  intros Hi. assert (v ≠ []) as Hv.
  { destruct Hi as (m & Hm & _). by intros ->. }
  destruct (first_max_exists v Hv) as (m & j & Hmax & Hidx & Hj).
  rewrite (is_first_max_unique v i j Hi Hj).
  unfold devectorize_one. rewrite Hmax. simpl. by rewrite Hidx.
Qed.

Lemma devectorize_one_Ok (d : dict string nat) (v : list Z) (tag : string) :
  index_mapping d →
  devectorize_one (invert d) v = Ok tag
  ↔ ∃ i, is_first_max v i ∧ dict_get d tag = Some i.
Proof.
  intros Hd. destruct (decide (v = [])) as [->|Hv].
  - split; [done|]. intros (i & (m & Hm & _) & _). done.
  - destruct (first_max_exists v Hv) as (m & j & _ & _ & Hj).
    rewrite (devectorize_one_first_max _ v j Hj).
    rewrite (proj1 (lookup_invert d j Hd)). split.
    + intros Hg. by exists j.
    + intros (i & Hi & Hg). by rewrite (is_first_max_unique v j i Hj Hi).
Qed.

Lemma devectorize_one_raise (d : dict string nat) (v : list Z) :
  index_mapping d →
  is_raise (devectorize_one (invert d) v)
  ↔ v = [] ∨ ∃ i, is_first_max v i ∧ length d ≤ i.
Proof.
  intros Hd. destruct (decide (v = [])) as [->|Hv].
  - split; [by left | done].
  - destruct (first_max_exists v Hv) as (m & j & _ & _ & Hj).
    rewrite (devectorize_one_first_max _ v j Hj). split.
    + intros Hr. right. exists j. split; [done|].
      destruct (decide (j < length d)) as [Hlt|]; [|lia].
      destruct (index_mapping_tag_at d j Hd Hlt) as [tag Hg].
      apply (lookup_invert d j Hd) in Hg. by rewrite Hg in Hr.
    + intros [?|(i & Hi & Hle)]; [done|].
      rewrite (is_first_max_unique v j i Hj Hi).
      by rewrite (proj2 (lookup_invert d i Hd) Hle).
Qed.

Lemma devectorize_tags_eq vectors (st : state BiLstmCrfLearner.t) :
  BiLstmCrfLearner.devectorize_tags vectors st
  = (PytorchModel.devectorize vectors
       (BiLstmCrfLearner.tag_to_index (self st)), st).
Proof. done. Qed.

(** C6, as the code has it: for a mapping with distinct tags numbered
    0..n-1 ([n > 0]) and score vectors of length [n], [devectorize] returns
    one tag per vector, the tag whose index is the position of the first
    occurrence of the vector's maximum.  It raises exactly when some vector
    is empty or the position of its first maximum is not an index of the
    mapping; so it raises for an empty mapping when there is a vector.
    [devectorize_tags] is the same function on [self.tag_to_index]. *)
Theorem devectorize_spec (d : dict string nat) (vectors : list (list Z)) :
  index_mapping d →
  (d ≠ [] → Forall (λ v, length v = length d) vectors →
   ∃ tags, PytorchModel.devectorize vectors d = Ok tags
     ∧ length tags = length vectors
     ∧ ∀ k v tag, vectors !! k = Some v → tags !! k = Some tag →
         ∃ i, is_first_max v i ∧ dict_get d tag = Some i)
  ∧ (is_raise (PytorchModel.devectorize vectors d)
     ↔ Exists (λ v, v = [] ∨ ∃ i, is_first_max v i ∧ length d ≤ i) vectors)
  ∧ (d = [] → vectors ≠ [] → is_raise (PytorchModel.devectorize vectors d))
  ∧ (∀ st : state BiLstmCrfLearner.t,
       BiLstmCrfLearner.tag_to_index (self st) = d →
       BiLstmCrfLearner.devectorize_tags vectors st
       = (PytorchModel.devectorize vectors d, st)).
Proof.
  intros Hd.
  assert (Hraise : is_raise (PytorchModel.devectorize vectors d)
     ↔ Exists (λ v, v = [] ∨ ∃ i, is_first_max v i ∧ length d ≤ i) vectors).
  { unfold PytorchModel.devectorize. rewrite rmap_raise.
    apply Exists_proper; [|done]. intros v. by apply devectorize_one_raise. }
  split_and!; [| done | |].
  - intros Hne Hlen.
    destruct (PytorchModel.devectorize vectors d) as [tags|e] eqn:Hr.
    + exists tags. apply rmap_Ok in Hr. split_and!; [done| |].
      * symmetry. by eapply Forall2_length.
      * intros k v tag Hv Ht.
        pose proof (Forall2_lookup_lr _ _ _ _ _ _ Hr Hv Ht) as Hone.
        by apply devectorize_one_Ok in Hone.
    + exfalso. assert (Hex : is_raise (@Raise (list string) e)) by done.
      apply Hraise, Exists_exists in Hex as (v & Hv & Hbad).
      rewrite Forall_forall in Hlen. specialize (Hlen v Hv).
      destruct Hbad as [->|(i & Hi%is_first_max_lt & Hle)].
      * destruct d; [done | simpl in Hlen; lia].
      * lia.
  - intros -> Hne. apply Hraise. destruct vectors as [|v vs]; [done|].
    apply Exists_cons_hd. destruct (decide (v = [])) as [|Hv]; [by left|].
    destruct (first_max_exists v Hv) as (m & i & _ & _ & Hi).
    right. exists i. split; [done | simpl; lia].
  - intros st <-. apply devectorize_tags_eq.
Qed.

Lemma devectorize_spec_witness :
  ∃ tags, PytorchModel.devectorize [[1; 7; 7]%Z; [0; (-2); (-1)]%Z] three_tags
          = Ok tags
    ∧ length tags = 2.
Proof.
  assert (Hm : index_mapping three_tags)
    by (split; [apply (bool_decide_unpack _); by vm_compute | done]).
  destruct (devectorize_spec three_tags [[1; 7; 7]%Z; [0; (-2); (-1)]%Z] Hm)
    as (H & _).
  destruct H as (tags & Ht & Hl & _); [done | by repeat constructor |].
  by exists tags.
Defined.

(** C6, counterexample: a score vector shorter than the tag set is decoded,
    not rejected; and with no vector an empty mapping is accepted. *)
Lemma devectorize_accepts_length_mismatch :
  length [5; 1]%Z ≠ length three_tags
  ∧ PytorchModel.devectorize [[5; 1]%Z] three_tags = Ok ["O"]
  ∧ PytorchModel.devectorize [] [] = Ok [].
Proof. split_and!; [by vm_compute | done | done]. Qed.

(** ** Vectorizer *)

Lemma lookup_one_hot n i j x :
  one_hot n i !! j = Some x ↔ j < n ∧ x = if decide (j = i) then 1%Z else 0%Z.
Proof.
  unfold one_hot. rewrite list_lookup_fmap, fmap_Some. split.
  - intros (k & [-> Hk]%lookup_seq & ->). done.
  - intros [Hj ->]. exists j. split; [|done]. by apply lookup_seq.
Qed.

Lemma one_hot_first_max n i : i < n → is_first_max (one_hot n i) i.
Proof.
  intros Hi. exists 1%Z. split_and!.
  - apply lookup_one_hot. by rewrite decide_True.
  - intros j x [_ ->]%lookup_one_hot. case_decide; lia.
  - intros j x [_ ->]%lookup_one_hot Hlt. rewrite decide_False; lia.
Qed.

Lemma dict_contains_get {V} (d : dict string V) (k : string) :
  dict_contains d k = true → ∃ v, dict_get d k = Some v.
Proof. unfold dict_contains. destruct (dict_get d k); [eauto | done]. Qed.

(** The indices of in-vocabulary items. *)
Lemma vectorize_in_vocabulary {S} (d : dict string nat) (sequence : list string)
    (acc : list nat) (st : state S) :
  Forall (λ item, dict_contains d item = true) sequence →
  for_each (BiLstmCrfLearner.vectorize_item d) acc sequence st
  = (Ok (acc ++ ((λ item, default 0 (dict_get d item)) <$> sequence)), st).
Proof.
  revert acc. induction sequence as [|x l IH]; intros acc Hall; simpl.
  - by rewrite app_nil_r.
  - apply Forall_cons in Hall as [Hx Hl].
    unfold mbind, M_bind, BiLstmCrfLearner.vectorize_item at 1.
    rewrite Hx. destruct (dict_contains_get d x Hx) as [i Hi].
    unfold mbind, M_bind, lift, dict_lookup. rewrite Hi. simpl.
    unfold mret, M_ret. rewrite IH by done. by rewrite <- app_assoc.
Qed.

Lemma vectorize_strict_in_vocabulary (d : dict string nat) sequence :
  Forall (λ item, dict_contains d item = true) sequence →
  PytorchModel.vectorize sequence d
  = Ok ((λ item, default 0 (dict_get d item)) <$> sequence).
Proof.
  unfold PytorchModel.vectorize. intros Hall. apply rmap_Ok.
  apply Forall2_fmap_r, Forall_Forall2_diag.
  eapply Forall_impl; [exact Hall|]. intros x Hx. simpl.
  destruct (dict_contains_get d x Hx) as [i Hi].
  unfold dict_lookup. by rewrite Hi.
Qed.

Lemma devectorize_one_hot (d : dict string nat) (tags : list string) :
  index_mapping d →
  Forall (λ tag, dict_contains d tag = true) tags →
  PytorchModel.devectorize
    (one_hot (length d) <$> ((λ tag, default 0 (dict_get d tag)) <$> tags)) d
  = Ok tags.
Proof.
  intros Hd Hall. unfold PytorchModel.devectorize. apply rmap_Ok.
  apply Forall2_fmap_l, Forall2_fmap_l, Forall_Forall2_diag.
  eapply Forall_impl; [exact Hall|]. intros tag Htag. simpl.
  destruct (dict_contains_get d tag Htag) as [i Hi]. rewrite Hi. simpl.
  apply devectorize_one_Ok; [done|]. exists i. split; [|done].
  apply one_hot_first_max. by eapply index_mapping_get_lt.
Qed.

(** C7: for a mapping with distinct tags numbered 0..n-1 and a tag sequence
    whose tags are all in it, [vectorize] returns their indices, one per tag
    and in order, without touching the random generator, and devectorizing
    the one-hot encodings of these indices gives back the tag sequence. *)
Theorem vectorize_devectorize_roundtrip {S} (d : dict string nat)
    (tags : list string) (st : state S) :
  index_mapping d →
  Forall (λ tag, dict_contains d tag = true) tags →
  ∃ indices,
    BiLstmCrfLearner.vectorize tags d st = (Ok indices, st)
    ∧ PytorchModel.vectorize tags d = Ok indices
    ∧ length indices = length tags
    ∧ (∀ k tag, tags !! k = Some tag →
         ∃ i, indices !! k = Some i ∧ dict_get d tag = Some i)
    ∧ PytorchModel.devectorize (one_hot (length d) <$> indices) d = Ok tags
    ∧ (∀ st' : state BiLstmCrfLearner.t,
         BiLstmCrfLearner.tag_to_index (self st') = d →
         BiLstmCrfLearner.devectorize_tags (one_hot (length d) <$> indices) st'
         = (Ok tags, st')).
Proof.
  intros Hd Hall.
  exists ((λ tag, default 0 (dict_get d tag)) <$> tags). split_and!.
  - unfold BiLstmCrfLearner.vectorize. by rewrite vectorize_in_vocabulary.
  - by apply vectorize_strict_in_vocabulary.
  - by rewrite length_fmap.
  - intros k tag Hk. rewrite Forall_forall in Hall.
    destruct (dict_contains_get d tag) as [i Hi].
    { apply Hall, list_elem_of_lookup. by exists k. }
    exists i. split; [|done]. rewrite list_lookup_fmap, Hk. simpl. by rewrite Hi.
  - by apply devectorize_one_hot.
  - intros st' <-. rewrite devectorize_tags_eq.
    by rewrite devectorize_one_hot.
Qed.

Lemma vectorize_devectorize_roundtrip_witness :
  let tag_to_index :=
    BiLstmCrfLearner.create_index_dictionary [["O"; "DRUG"; "O"]; ["DOSE"]] in
  ∃ indices,
    PytorchModel.vectorize ["O"; "DRUG"; "O"] tag_to_index = Ok indices
    ∧ PytorchModel.devectorize (one_hot 3 <$> indices) tag_to_index
      = Ok ["O"; "DRUG"; "O"].
Proof.
  intros tag_to_index.
  destruct (vectorize_devectorize_roundtrip tag_to_index ["O"; "DRUG"; "O"]
              {| self := (); env := counting_world |}
              (create_index_dictionary_index_mapping _))
    as (indices & _ & H2 & _ & _ & H5 & _); [by repeat constructor|].
  by exists indices.
Defined.

(** C1, what the code does: an item absent from the mapping is given the
    next draw of the random generator, reduced modulo the size of the
    mapping, so two successive calls on the same sequence and mapping return
    different indices; [PytorchModel.vectorize] raises [KeyError] instead. *)
Theorem vectorize_oov_is_random :
  let to_index := BiLstmCrfLearner.create_index_dictionary [["Give"; "now"]] in
  let st := {| self := (); env := counting_world |} in
  let first := BiLstmCrfLearner.vectorize ["Aspirin"] to_index st in
  let second := BiLstmCrfLearner.vectorize ["Aspirin"] to_index first.2 in
  dict_contains to_index "Aspirin" = false
  ∧ first.1 = Ok [0]
  ∧ second.1 = Ok [1]
  ∧ (∀ other : state (),
       (BiLstmCrfLearner.vectorize ["Aspirin"] to_index other).1
       = Ok [draws (rand (env other)) (cursor (rand (env other))) `mod` 2])
  ∧ PytorchModel.vectorize ["Aspirin"] to_index = Raise KeyError.
Proof. split_and!; by vm_compute. Qed.

(** ** Calls into the tensor library made by a method *)

Lemma run_app n l1 n' l2 n'' : run n l1 n' → run n' l2 n'' → run n (l1 ++ l2) n''.
Proof.
  induction 1 as [|n c log n' H1 IH]; intros H2; simpl; [done|].
  constructor. by apply IH.
Qed.

Lemma run_app_inv n l1 l2 n'' :
  run n (l1 ++ l2) n'' → ∃ n', run n l1 n' ∧ run n' l2 n''.
Proof.
  revert n. induction l1 as [|[c g] l1 IH]; intros n H; simpl in *.
  - exists n. split; [constructor | done].
  - inversion H as [|? ? ? ? H']; subst.
    destruct (IH _ H') as (n' & H1 & H2).
    exists n'. split; [by constructor | done].
Qed.

(** In a run whose logged forward passes are clean, each forward pass
    leaves from a state with empty buffers. *)
Lemma clean_run_forward start log final :
  run start log final → Forall clean_forward log →
  forward_from_clean_state start log.
Proof.
  intros Hrun Hclean pre g post ->.
  apply run_app_inv in Hrun as (n & Hpre & Hpost).
  exists n. split; [done|].
  inversion Hpost; subst.
  apply Forall_app in Hclean as [_ Hc]. apply Forall_cons in Hc as [Hc _].
  by apply Hc.
Qed.

Section silent.
Context {S : Type}.

Lemma silent_ret {A} (a : A) : silent (mret a : M S A).
Proof. done. Qed.

Lemma silent_raise {A} (e : exn) : silent (raise e : M S A).
Proof. done. Qed.

Lemma silent_lift {A} (r : result A) : silent (lift r : M S A).
Proof. done. Qed.

Lemma silent_get_self : silent (get_self : M S S).
Proof. done. Qed.

Lemma silent_get_env : silent (get_env : M S world).
Proof. done. Qed.

Lemma silent_set_self (f : S → S) : silent (set_self f).
Proof. done. Qed.

Lemma silent_draw (n : nat) : silent (draw n : M S nat).
Proof.
  intros st. unfold draw. by destruct (randrange n (rand (env st))).
Qed.

Lemma silent_bind {A B} (m : M S A) (k : A → M S B) :
  silent m → (∀ a, silent (k a)) → silent (m ≫= k).
Proof.
  intros Hm Hk st. unfold mbind, M_bind. specialize (Hm st).
  destruct (m st) as [[a|e] st']; simpl in *; [|done].
  by rewrite Hk.
Qed.

Lemma silent_for_each {A B} (f : B → A → M S B) (l : list A) acc :
  (∀ b x, silent (f b x)) → silent (for_each f acc l).
Proof.
  intros Hf. revert acc. induction l as [|x l IH]; intros acc; simpl.
  - apply silent_ret.
  - apply silent_bind; [apply Hf | apply IH].
Qed.

Lemma silent_vectorize sequence to_index :
  silent (BiLstmCrfLearner.vectorize sequence to_index : M S (list nat)).
Proof.
  apply silent_for_each. intros indices item.
  unfold BiLstmCrfLearner.vectorize_item. destruct (dict_contains to_index item).
  - apply silent_bind; [apply silent_lift | intros; apply silent_ret].
  - apply silent_bind; [apply silent_draw | intros; apply silent_ret].
Qed.

Lemma silent_average {A} (l : list A) : silent (PytorchModel.average l : M S unit).
Proof.
  unfold PytorchModel.average. case_decide; [apply silent_raise | apply silent_ret].
Qed.
End silent.

Lemma silent_get_training_data ds : silent (PytorchModel.get_training_data ds).
Proof.
  unfold PytorchModel.get_training_data.
  apply silent_bind; [apply silent_get_env|]. intros w. apply silent_bind.
  - apply silent_for_each. intros acc dt. apply silent_for_each. intros acc' i.
    unfold PytorchModel.pair_up.
    destruct (_ !! i); [|apply silent_raise].
    destruct (_ !! i); [apply silent_ret | apply silent_raise].
  - intros data. apply silent_bind; [apply silent_set_self|].
    intros. apply silent_ret.
Qed.

Section runs.
Context {S : Type}.

Lemma runs_silent {A} (n : network) (m : M S A) :
  silent m → runs n (λ _ n', n' = n) m.
Proof.
  intros Hm st. exists [], n. rewrite app_nil_r.
  split_and!; [apply Hm | constructor | constructor | done].
Qed.

Lemma runs_ret {A} (n : network) (Q : A → network → Prop) (a : A) :
  Q a n → runs n Q (mret a : M S A).
Proof.
  intros HQ st. exists [], n. rewrite app_nil_r.
  split_and!; [done | constructor | constructor |]. by intros ? [= <-].
Qed.

Lemma runs_raise {A} (n : network) (Q : A → network → Prop) (e : exn) :
  runs n Q (raise e : M S A).
Proof.
  intros st. exists [], n. rewrite app_nil_r.
  split_and!; [done | constructor | constructor | done].
Qed.

Lemma runs_perform (c : torch_call) (n : network) :
  clean_forward (c, grad n) →
  runs n (λ model n', model = n' ∧ n' = transition c n) (perform c n : M S _).
Proof.
  intros Hc st. exists [(c, grad n)], (transition c n).
  split_and!; [done | repeat constructor | by constructor |].
  by intros ? [= <-].
Qed.

Lemma runs_bind {A B} (n : network) (Q : A → network → Prop)
    (R : B → network → Prop) (m : M S A) (k : A → M S B) :
  runs n Q m → (∀ a n', Q a n' → runs n' R (k a)) → runs n R (m ≫= k).
Proof.
  intros Hm Hk st. destruct (Hm st) as (new & n' & H1 & H2 & H3 & H4).
  unfold mbind, M_bind. destruct (m st) as [[a|e] st'] eqn:E; simpl in *.
  - destruct (Hk a n' (H4 a eq_refl) st') as (new' & n'' & H1' & H2' & H3' & H4').
    exists (new ++ new'), n''. split_and!.
    + by rewrite H1', H1, app_assoc.
    + by eapply run_app.
    + by apply Forall_app.
    + done.
  - exists new, n'. split_and!; done.
Qed.

Lemma runs_for_each {A B} (I : B → network → Prop) (f : B → A → M S B)
    (l : list A) (acc : B) (n : network) :
  I acc n → (∀ b x n, I b n → runs n I (f b x)) →
  runs n I (for_each f acc l).
Proof.
  intros Hacc Hf. revert acc n Hacc.
  induction l as [|x l IH]; intros acc n Hacc; simpl.
  - by apply runs_ret.
  - eapply runs_bind; [by apply Hf|]. intros b n' Hb. by apply IH.
Qed.

Lemma runs_weaken {A} (n : network) (Q Q' : A → network → Prop) (m : M S A) :
  runs n Q m → (∀ a n', Q a n' → Q' a n') → runs n Q' m.
Proof.
  intros Hm HQ st. destruct (Hm st) as (new & n' & H1 & H2 & H3 & H4).
  exists new, n'. split_and!; [done..|]. intros a Ha. by apply HQ, H4.
Qed.

(** [optimizer.zero_grad()] leaves empty buffers behind. *)
Lemma runs_zero_grad (n : network) :
  runs n (λ model n', model = n' ∧ grad n' = []) (zero_grad n : M S _).
Proof.
  eapply runs_weaken; [by apply (runs_perform ZeroGrad)|].
  by intros model n' [-> ->].
Qed.

(** A forward pass may be logged as clean only from empty buffers. *)
Lemma runs_call_model (n : network) indices :
  grad n = [] → runs n (λ _ n', n' = n) (call_model n indices : M S _).
Proof.
  intros Hg. unfold call_model.
  eapply runs_bind; [apply (runs_perform Forward); by intros _|].
  intros model n' [-> ->].
  eapply runs_bind; [apply runs_silent, silent_get_env|].
  intros w n' ->. apply runs_silent, silent_lift.
Qed.

Lemma runs_call_model_no_grad (n : network) indices :
  runs n (λ _ n', n' = n) (call_model_no_grad n indices : M S _).
Proof.
  unfold call_model_no_grad.
  eapply runs_bind; [by apply (runs_perform ForwardNoGrad)|].
  intros model n' [-> ->].
  eapply runs_bind; [apply runs_silent, silent_get_env|].
  intros w n' ->. apply runs_silent, silent_lift.
Qed.

Lemma runs_backward (n : network) scores e :
  runs n (λ model n', model = n') (backward n scores e : M S _).
Proof.
  unfold backward.
  eapply runs_bind; [apply runs_silent, silent_lift|]. intros _ ? ->.
  eapply runs_weaken; [by apply (runs_perform (Backward e))|].
  by intros model n' [-> ->].
Qed.

Lemma runs_step (n : network) :
  runs n (λ model n', model = n') (step n : M S _).
Proof.
  eapply runs_weaken; [by apply (runs_perform Step)|].
  by intros model n' [-> ->].
Qed.

Lemma trains_of_runs {A} w (Q : A → network → Prop) (m : M S A) :
  runs (fresh w) Q m → trains m.
Proof.
  intros Hm st. destruct (Hm st) as (new & final & H1 & H2 & H3 & _).
  by exists w, new, final.
Qed.

Lemma trains_raise {A} (e : exn) : trains (raise e : M S A).
Proof. apply (trains_of_runs (BiLstmCrfNetwork 0 0) (λ _ _, True)), runs_raise. Qed.

Lemma trains_silent_bind {A B} (m : M S A) (k : A → M S B) :
  silent m → (∀ a, trains (k a)) → trains (m ≫= k).
Proof.
  intros Hm Hk st. unfold mbind, M_bind. specialize (Hm st).
  destruct (m st) as [[a|e] st']; simpl in *.
  - destruct (Hk a st') as (w & new & final & H1 & H2 & H3).
    exists w, new, final. by rewrite H1, Hm.
  - exists (BiLstmCrfNetwork 0 0), [], (fresh (BiLstmCrfNetwork 0 0)).
    rewrite app_nil_r. split_and!; [done | constructor | constructor].
Qed.
End runs.

(** Continue after a computation that makes no call. *)
Tactic Notation "after_silent" uconstr(lem) :=
  eapply runs_bind; [apply runs_silent; apply lem|]; intros ? ? ->.

Lemma runs_training_step_pytorch word_to_index tag_to_index acc ex :
  runs acc.1 (λ r n', r.1 = n')
    (PytorchModel.training_step word_to_index tag_to_index acc ex).
Proof.
  unfold PytorchModel.training_step.
  eapply runs_bind; [apply runs_zero_grad|]. intros model n [-> Hclean].
  after_silent silent_lift. after_silent silent_lift.
  eapply runs_bind; [by apply runs_call_model|]. intros tag_scores ? ->.
  eapply runs_bind; [apply runs_backward|]. intros after_backward ? ->.
  eapply runs_bind; [apply runs_step|]. intros after_step ? ->.
  by apply runs_ret.
Qed.

Lemma runs_training_step_bilstm model ex :
  runs model (λ r n', r = n') (BiLstmCrfLearner.training_step model ex).
Proof.
  unfold BiLstmCrfLearner.training_step.
  eapply runs_bind; [apply runs_zero_grad|]. intros model' n [-> Hclean].
  after_silent silent_get_self. after_silent silent_vectorize.
  after_silent silent_get_self. after_silent silent_vectorize.
  eapply runs_bind; [by apply runs_call_model|]. intros scores ? ->.
  eapply runs_bind; [apply runs_backward|]. intros after_backward ? ->.
  apply runs_step.
Qed.

Lemma runs_run_epoch word_to_index tag_to_index training_data model epoch :
  runs model (λ r n', r = n')
    (PytorchModel.run_epoch word_to_index tag_to_index training_data
                            model epoch).
Proof.
  unfold PytorchModel.run_epoch. eapply runs_bind.
  - apply (runs_for_each (λ r n', r.1 = n')); [done|].
    intros acc ex n <-. apply runs_training_step_pytorch.
  - intros r n <-. after_silent silent_average. by apply runs_ret.
Qed.

Lemma trains_fit_pytorch dataset epochs :
  trains (PytorchModel.fit dataset epochs).
Proof.
  unfold PytorchModel.fit. destruct dataset; try apply trains_raise.
  apply trains_silent_bind; [apply silent_get_training_data|].
  intros training_data.
  apply trains_silent_bind; [apply silent_get_self|]. intros s. cbv zeta.
  eapply (trains_of_runs _ (λ _ _, True)). eapply runs_bind.
  - apply (runs_for_each (λ r n', r = n')); [done|].
    intros model epoch n <-. apply runs_run_epoch.
  - intros model n <-. eapply runs_bind.
    { apply (runs_silent model).
      destruct (_ !! 0); [apply silent_ret | apply silent_raise]. }
    intros first ? ->. after_silent silent_lift.
    eapply runs_bind; [apply runs_call_model_no_grad|]. intros tag_scores ? ->.
    after_silent silent_lift. after_silent silent_get_self.
    after_silent silent_lift. after_silent silent_average.
    eapply runs_weaken; [apply runs_silent, silent_set_self | done].
Qed.

Lemma trains_fit_bilstm x_data y_data :
  trains (BiLstmCrfLearner.fit x_data y_data).
Proof.
  unfold BiLstmCrfLearner.fit.
  apply trains_silent_bind; [apply silent_set_self|]. intros _.
  apply trains_silent_bind; [apply silent_set_self|]. intros _.
  apply trains_silent_bind; [apply silent_get_self|]. intros s. cbv zeta.
  eapply (trains_of_runs _ (λ _ _, True)). eapply runs_bind.
  - apply (runs_for_each (λ r n', r = n')); [done|].
    intros model ex n <-. apply runs_training_step_bilstm.
  - intros model n <-.
    eapply runs_weaken; [apply runs_silent, silent_set_self | done].
Qed.

(** *** The single-pass trainer, call by call *)

Lemma with_calls_nil {S} (st : state S) : with_calls st [] = st.
Proof. destruct st as [s []]. unfold with_calls. simpl. by rewrite app_nil_r. Qed.

Lemma with_calls_app {S} (st : state S) l1 l2 :
  with_calls (with_calls st l1) l2 = with_calls st (l1 ++ l2).
Proof. unfold with_calls. simpl. by rewrite app_assoc. Qed.

Lemma in_vocabulary sequences sequence :
  sequence ∈ sequences →
  Forall (λ item,
      dict_contains (BiLstmCrfLearner.create_index_dictionary sequences) item
      = true) sequence.
Proof.
  intros Hin. apply Forall_forall. intros item Hitem.
  apply dict_contains_true.
  rewrite create_index_dictionary_enumerate, enumerate_keys.
  apply first_seen_elem_of, list_elem_of_In, in_concat.
  exists sequence. split; by apply list_elem_of_In.
Qed.

(** What the library accepts. *)

Lemma score_matrix_shape sc w indices t :
  length (score_matrix sc w indices t) = length indices
  ∧ Forall (λ row, length row = t) (score_matrix sc w indices t).
Proof.
  unfold score_matrix. split; [by rewrite length_fmap, length_seq|].
  apply Forall_fmap, Forall_forall. intros i _. simpl.
  by rewrite length_fmap, length_seq.
Qed.

Lemma forward_Ok sc w indices t :
  forward_features w = Some t → indices ≠ [] →
  Forall (λ i, i < embedding_rows (layers_of w)) indices →
  forward sc w indices = Ok (score_matrix sc w indices t).
Proof.
  intros Hf Hne Hin. unfold forward.
  by rewrite decide_True, decide_False, Hf by done.
Qed.

Lemma forward_misfit sc w indices :
  forward_features w = None →
  Forall (λ i, i < embedding_rows (layers_of w)) indices →
  forward sc w indices = Raise RuntimeError.
Proof.
  intros Hf Hin. unfold forward. rewrite decide_True, Hf by done.
  by case_decide.
Qed.

Lemma nll_loss_Ok scores targets t :
  length scores = length targets →
  Forall (λ row, length row = t) scores →
  Forall (λ target, target < t) targets →
  nll_loss scores targets = Ok ().
Proof.
  intros Hlen Hrows Htargets. unfold nll_loss.
  rewrite decide_True by done. rewrite decide_True; [done|].
  apply Forall2_same_length_lookup. split; [done|].
  intros i row target Hrow Htarget.
  rewrite Forall_lookup in Hrows. rewrite Forall_lookup in Htargets.
  rewrite (Hrows _ _ Hrow). by eapply Htargets.
Qed.

Lemma nll_loss_mismatch scores targets :
  length scores ≠ length targets → nll_loss scores targets = Raise ValueError.
Proof. intros Hne. unfold nll_loss. by rewrite decide_False. Qed.

Lemma indices_of_length d l : length (indices_of d l) = length l.
Proof. unfold indices_of. by rewrite length_fmap. Qed.

Lemma indices_of_lt (d : dict string nat) (l : list string) :
  index_mapping d →
  Forall (λ item, dict_contains d item = true) l →
  Forall (λ i, i < length d) (indices_of d l).
Proof.
  intros Hd Hall. unfold indices_of. apply Forall_fmap.
  eapply Forall_impl; [exact Hall|]. intros item Hitem. simpl.
  destruct (dict_contains_get d item Hitem) as [i Hi]. rewrite Hi. simpl.
  by eapply index_mapping_get_lt.
Qed.

Lemma fits_after_step n e vocab_size tagset_size :
  fits n vocab_size tagset_size → fits (after_step n e) vocab_size tagset_size.
Proof. done. Qed.

Lemma fits_foldl n es vocab_size tagset_size :
  fits n vocab_size tagset_size →
  fits (foldl after_step n es) vocab_size tagset_size.
Proof.
  revert n. induction es as [|e es IH]; intros n Hn; [done|].
  simpl. by apply IH, fits_after_step.
Qed.

(** A forward pass on the indices of a sequence of the vocabulary, by a
    network that fits the mappings, followed by the loss against the
    indices of as many tags. *)
Lemma forward_then_loss sc n (tok tg : dict string nat) ex :
  index_mapping tok → index_mapping tg →
  fits n (length tok) (length tg) →
  trainable ex →
  Forall (λ item, dict_contains tok item = true) ex.1 →
  Forall (λ item, dict_contains tg item = true) ex.2 →
  ∃ scores,
    forward sc (params n) (indices_of tok ex.1) = Ok scores
    ∧ nll_loss scores (indices_of tg ex.2) = Ok ().
Proof.
  intros Htok Htg [Hrows Hfit] [Hne Hlen] Hin1 Hin2.
  eexists. split.
  - apply forward_Ok; [exact Hfit | |].
    + unfold indices_of. by destruct ex.1.
    + rewrite Hrows. by apply indices_of_lt.
  - destruct (score_matrix_shape sc (params n) (indices_of tok ex.1)
                (length tg)) as [Hl Hr].
    eapply nll_loss_Ok; [|exact Hr|by apply indices_of_lt].
    by rewrite Hl, !indices_of_length.
Qed.

Lemma training_step_bilstm_calls model ex (st : state BiLstmCrfLearner.t) :
  index_mapping (BiLstmCrfLearner.token_to_index (self st)) →
  index_mapping (BiLstmCrfLearner.tag_to_index (self st)) →
  fits model (length (BiLstmCrfLearner.token_to_index (self st)))
             (length (BiLstmCrfLearner.tag_to_index (self st))) →
  trainable ex →
  Forall (λ item, dict_contains (BiLstmCrfLearner.token_to_index (self st)) item
                  = true) ex.1 →
  Forall (λ item, dict_contains (BiLstmCrfLearner.tag_to_index (self st)) item
                  = true) ex.2 →
  let e := (indices_of (BiLstmCrfLearner.token_to_index (self st)) ex.1,
            indices_of (BiLstmCrfLearner.tag_to_index (self st)) ex.2) in
  BiLstmCrfLearner.training_step model ex st
  = (Ok (after_step model e), with_calls st (step_calls model e)).
Proof.
  intros Hm1 Hm2 Hfits Hex Htok Htag e.
  destruct (forward_then_loss (scores (env st)) model _ _ ex Hm1 Hm2
              Hfits Hex Htok Htag) as (v & Hv & Hloss).
  unfold BiLstmCrfLearner.training_step, zero_grad, call_model, backward, step,
    perform, BiLstmCrfLearner.vectorize, mbind, M_bind.
  simpl. rewrite (vectorize_in_vocabulary _ _ [] _ Htok).
  simpl. rewrite (vectorize_in_vocabulary _ _ [] _ Htag).
  unfold lift. simpl. unfold indices_of in Hv, Hloss. rewrite Hv.
  simpl. rewrite Hloss.
  simpl. unfold with_calls, step_calls, after_step. simpl.
  by rewrite <- !app_assoc.
Qed.

Lemma training_loop_bilstm_exact exs model (st : state BiLstmCrfLearner.t) :
  index_mapping (BiLstmCrfLearner.token_to_index (self st)) →
  index_mapping (BiLstmCrfLearner.tag_to_index (self st)) →
  fits model (length (BiLstmCrfLearner.token_to_index (self st)))
             (length (BiLstmCrfLearner.tag_to_index (self st))) →
  Forall (λ ex,
      trainable ex
      ∧ Forall (λ item, dict_contains (BiLstmCrfLearner.token_to_index (self st))
                                      item = true) ex.1
      ∧ Forall (λ item, dict_contains (BiLstmCrfLearner.tag_to_index (self st))
                                      item = true) ex.2) exs →
  let es := examples_of (BiLstmCrfLearner.token_to_index (self st))
                        (BiLstmCrfLearner.tag_to_index (self st)) exs in
  for_each BiLstmCrfLearner.training_step model exs st
  = (Ok (foldl after_step model es), with_calls st (steps_calls model es)).
Proof.
  revert model st.
  induction exs as [|ex exs IH]; intros model st Hm1 Hm2 Hfits Hall es.
  - simpl. by rewrite with_calls_nil.
  - apply Forall_cons in Hall as [(Hex & Htok & Htag) Hall]. simpl.
    unfold mbind, M_bind.
    rewrite (training_step_bilstm_calls model ex st Hm1 Hm2 Hfits Hex Htok Htag).
    set (e := (indices_of _ ex.1, indices_of _ ex.2)).
    rewrite (IH (after_step model e) (with_calls st (step_calls model e))
               Hm1 Hm2 (fits_after_step _ _ _ _ Hfits) Hall).
    by rewrite with_calls_app.
Qed.

Lemma steps_calls_forwards n es : forwards (steps_calls n es) = length es.
Proof.
  unfold forwards. revert n.
  induction es as [|e es IH]; intros n; simpl; [done|]. by rewrite IH.
Qed.

(** On (tokens, tags) pairs it can work on, [BiLstmCrfLearner.fit] returns
    and makes the four calls of a training step once for every pair. *)
Lemma fit_bilstm_exact x_data y_data (st : state BiLstmCrfLearner.t) :
  Forall trainable (zip x_data y_data) →
  let token_to_index := BiLstmCrfLearner.create_index_dictionary x_data in
  let tag_to_index := BiLstmCrfLearner.create_index_dictionary y_data in
  let es := examples_of token_to_index tag_to_index (zip x_data y_data) in
  let start :=
    fresh (BiLstmCrfNetwork (length token_to_index) (length tag_to_index)) in
  BiLstmCrfLearner.fit x_data y_data st
  = (Ok (),
     with_calls
       {| self := {| BiLstmCrfLearner.model := Some (foldl after_step start es);
                     BiLstmCrfLearner.token_to_index := token_to_index;
                     BiLstmCrfLearner.tag_to_index := tag_to_index |};
          env := env st |}
       (steps_calls start es)).
Proof.
  intros Hall. cbv zeta. unfold BiLstmCrfLearner.fit, mbind, M_bind. simpl.
  set (st1 := {| self := _; env := env st |}).
  rewrite (training_loop_bilstm_exact (zip x_data y_data) _ st1).
  - done.
  - apply create_index_dictionary_index_mapping.
  - apply create_index_dictionary_index_mapping.
  - done.
  - apply Forall_forall. intros [x y] Hxy. simpl.
    rewrite Forall_forall in Hall.
    split_and!; [by apply (Hall (x, y)) | |]; apply in_vocabulary.
    + by eapply elem_of_zip_l.
    + by eapply elem_of_zip_r.
Qed.

Lemma for_each_app {S A B} (f : B → A → M S B) acc (l1 l2 : list A)
    (st : state S) :
  for_each f acc (l1 ++ l2) st
  = match for_each f acc l1 st with
    | (Ok b, st') => for_each f b l2 st'
    | (Raise e, st') => (Raise e, st')
    end.
Proof.
  revert acc st. induction l1 as [|x l1 IH]; intros acc st; [done|].
  simpl. unfold mbind, M_bind. destruct (f acc x st) as [[b|e] st']; [|done].
  apply IH.
Qed.

(** A training step on a pair it cannot work on stops in the forward pass
    when there is no token, and in the loss function otherwise. *)
Lemma training_step_bilstm_stops model ex (st : state BiLstmCrfLearner.t) :
  index_mapping (BiLstmCrfLearner.token_to_index (self st)) →
  fits model (length (BiLstmCrfLearner.token_to_index (self st)))
             (length (BiLstmCrfLearner.tag_to_index (self st))) →
  ¬ trainable ex →
  Forall (λ item, dict_contains (BiLstmCrfLearner.token_to_index (self st)) item
                  = true) ex.1 →
  Forall (λ item, dict_contains (BiLstmCrfLearner.tag_to_index (self st)) item
                  = true) ex.2 →
  BiLstmCrfLearner.training_step model ex st
  = (Raise (if decide (ex.1 = []) then RuntimeError else ValueError),
     with_calls st [(ZeroGrad, grad model); (Forward, [])]).
Proof.
  intros Hm1 [Hrows Hfit] Hex Htok Htag.
  unfold BiLstmCrfLearner.training_step, zero_grad, call_model, backward, step,
    perform, BiLstmCrfLearner.vectorize, mbind, M_bind.
  simpl. rewrite (vectorize_in_vocabulary _ _ [] _ Htok).
  simpl. rewrite (vectorize_in_vocabulary _ _ [] _ Htag).
  unfold lift. simpl. case_decide as Hnil.
  - rewrite Hnil. simpl. unfold with_calls. simpl.
    by rewrite <- !app_assoc.
  - erewrite forward_Ok; [|exact Hfit| |].
    + simpl. rewrite nll_loss_mismatch.
      * unfold with_calls. simpl. by rewrite <- !app_assoc.
      * destruct (score_matrix_shape (scores (env st)) (params model)
                    (indices_of (BiLstmCrfLearner.token_to_index (self st)) ex.1)
                    (length (BiLstmCrfLearner.tag_to_index (self st))))
          as [Hl _].
        unfold indices_of in Hl. rewrite Hl, !length_fmap.
        intros Heq. by apply Hex.
    + by destruct ex.1.
    + rewrite Hrows. by apply indices_of_lt.
Qed.

(** [BiLstmCrfLearner.fit] stops at the first pair it cannot work on: the
    mappings are installed, the model is not. *)
Lemma fit_bilstm_stops x_data y_data pre ex post
    (st : state BiLstmCrfLearner.t) :
  zip x_data y_data = pre ++ ex :: post →
  Forall trainable pre → ¬ trainable ex →
  let token_to_index := BiLstmCrfLearner.create_index_dictionary x_data in
  let tag_to_index := BiLstmCrfLearner.create_index_dictionary y_data in
  let es := examples_of token_to_index tag_to_index pre in
  let start :=
    fresh (BiLstmCrfNetwork (length token_to_index) (length tag_to_index)) in
  BiLstmCrfLearner.fit x_data y_data st
  = (Raise (if decide (ex.1 = []) then RuntimeError else ValueError),
     with_calls
       {| self := {| BiLstmCrfLearner.model := BiLstmCrfLearner.model (self st);
                     BiLstmCrfLearner.token_to_index := token_to_index;
                     BiLstmCrfLearner.tag_to_index := tag_to_index |};
          env := env st |}
       (steps_calls start es
        ++ [(ZeroGrad, grad (foldl after_step start es)); (Forward, [])])).
Proof.
  intros Hzip Hpre Hex. cbv zeta.
  assert (Hvoc : Forall (λ p,
      Forall (λ item, dict_contains
                (BiLstmCrfLearner.create_index_dictionary x_data) item = true)
             p.1
      ∧ Forall (λ item, dict_contains
                (BiLstmCrfLearner.create_index_dictionary y_data) item = true)
               p.2) (zip x_data y_data)).
  { apply Forall_forall. intros [x y] Hxy. simpl. split; apply in_vocabulary.
    - by eapply elem_of_zip_l.
    - by eapply elem_of_zip_r. }
  rewrite Hzip in Hvoc. apply Forall_app in Hvoc as [Hvpre Hvex].
  apply Forall_cons in Hvex as [[Hvex1 Hvex2] _].
  unfold BiLstmCrfLearner.fit, mbind, M_bind. simpl.
  set (st1 := {| self := _; env := env st |}).
  rewrite Hzip, for_each_app.
  rewrite (training_loop_bilstm_exact pre _ st1).
  - simpl. unfold mbind, M_bind.
    rewrite training_step_bilstm_stops; try done.
    + by rewrite with_calls_app.
    + simpl. apply create_index_dictionary_index_mapping.
    + by apply fits_foldl.
  - apply create_index_dictionary_index_mapping.
  - apply create_index_dictionary_index_mapping.
  - done.
  - apply Forall_forall. intros p Hp. rewrite Forall_forall in Hpre, Hvpre.
    destruct (Hvpre p Hp). split_and!; [by apply Hpre | done | done].
Qed.

(** Counting the forward passes of training steps. *)

Section at_most_forwards.
Context {S : Type}.

Lemma at_most_silent {A} (m : M S A) : silent m → at_most_forwards 0 m.
Proof.
  intros Hm st. exists []. rewrite app_nil_r. split; [apply Hm | done].
Qed.

Lemma at_most_perform (c : torch_call) (n : network) :
  at_most_forwards (if is_forward (c, grad n) then 1 else 0)
                   (perform c n : M S _).
Proof.
  intros st. exists [(c, grad n)]. split; [done|].
  unfold forwards. simpl. by destruct (is_forward _).
Qed.

Lemma at_most_bind {A B} (j k : nat) (m : M S A) (f : A → M S B) :
  at_most_forwards j m → (∀ a, at_most_forwards k (f a)) →
  at_most_forwards (j + k) (m ≫= f).
Proof.
  intros Hm Hf st. destruct (Hm st) as (new & H1 & H2).
  unfold mbind, M_bind. destruct (m st) as [[a|e] st']; simpl in *.
  - destruct (Hf a st') as (new' & H1' & H2').
    exists (new ++ new'). split; [by rewrite H1', H1, app_assoc|].
    unfold forwards in *. rewrite List.filter_app, length_app. lia.
  - exists new. split; [done | lia].
Qed.

Lemma at_most_weaken {A} (j k : nat) (m : M S A) :
  j ≤ k → at_most_forwards j m → at_most_forwards k m.
Proof.
  intros Hjk Hm st. destruct (Hm st) as (new & H1 & H2).
  exists new. split; [done | lia].
Qed.

Lemma at_most_for_each {A B} (k : nat) (f : B → A → M S B) (l : list A) acc :
  (∀ b x, at_most_forwards k (f b x)) →
  at_most_forwards (length l * k) (for_each f acc l).
Proof.
  intros Hf. revert acc. induction l as [|x l IH]; intros acc; simpl.
  - apply at_most_silent, silent_ret.
  - apply at_most_bind; [apply Hf | intros; apply IH].
Qed.
End at_most_forwards.

Lemma at_most_training_step_bilstm model ex :
  at_most_forwards 1 (BiLstmCrfLearner.training_step model ex).
Proof.
  unfold BiLstmCrfLearner.training_step.
  apply (at_most_bind 0 1); [apply (at_most_perform ZeroGrad)|]. intros ?.
  apply (at_most_bind 0 1); [apply at_most_silent, silent_get_self|]. intros ?.
  apply (at_most_bind 0 1); [apply at_most_silent, silent_vectorize|]. intros ?.
  apply (at_most_bind 0 1); [apply at_most_silent, silent_get_self|]. intros ?.
  apply (at_most_bind 0 1); [apply at_most_silent, silent_vectorize|]. intros ?.
  apply (at_most_bind 1 0).
  { unfold call_model.
    apply (at_most_bind 1 0); [apply (at_most_perform Forward)|]. intros ?.
    apply (at_most_bind 0 0); [apply at_most_silent, silent_get_env|]. intros ?.
    apply at_most_silent, silent_lift. }
  intros ?. apply (at_most_bind 0 0).
  { unfold backward.
    apply (at_most_bind 0 0); [apply at_most_silent, silent_lift|]. intros ?.
    apply (at_most_perform (Backward _)). }
  intros ?. apply (at_most_perform Step).
Qed.

Lemma at_most_fit_bilstm x_data y_data :
  at_most_forwards (length (zip x_data y_data))
                   (BiLstmCrfLearner.fit x_data y_data).
Proof.
  unfold BiLstmCrfLearner.fit.
  apply (at_most_bind 0); [apply at_most_silent, silent_set_self|]. intros ?.
  apply (at_most_bind 0); [apply at_most_silent, silent_set_self|]. intros ?.
  apply (at_most_bind 0); [apply at_most_silent, silent_get_self|]. intros ?.
  cbv zeta. eapply at_most_weaken;
    [|apply (at_most_bind (length (zip x_data y_data) * 1) 0)].
  - change (length (zip x_data y_data) * 1 + 0 ≤ length (zip x_data y_data)).
    lia.
  - apply at_most_for_each. intros. apply at_most_training_step_bilstm.
  - intros ?. apply at_most_silent, silent_set_self.
Qed.

(** C9: the calls into the tensor library that [fit] makes, whether it
    returns or raises, are a run of the network object it constructs: each
    call is made in the state the previous one left.  In that run every
    forward pass of a training step leaves from a state whose gradient
    buffers are empty, because [zero_grad] is the first call of each step.
    This holds for both trainers and from any state; the single-pass
    trainer makes at most one such forward pass for every (tokens, tags)
    pair, and exactly one when every pair has at least one token and as
    many tags as tokens. *)
Theorem fit_resets_before_forward :
  (∀ dataset epochs (st : state PytorchModel.t),
     ∃ w new final,
       calls (env (PytorchModel.fit dataset epochs st).2)
       = calls (env st) ++ new
       ∧ run (fresh w) new final
       ∧ forward_from_clean_state (fresh w) new
       ∧ ∀ g, (Forward, g) ∈ new → g = [])
  ∧ (∀ x_data y_data (st : state BiLstmCrfLearner.t),
     ∃ w new final,
       calls (env (BiLstmCrfLearner.fit x_data y_data st).2)
       = calls (env st) ++ new
       ∧ run (fresh w) new final
       ∧ forward_from_clean_state (fresh w) new
       ∧ (∀ g, (Forward, g) ∈ new → g = [])
       ∧ forwards new ≤ length (zip x_data y_data)
       ∧ (Forall trainable (zip x_data y_data) →
          forwards new = length (zip x_data y_data))).
Proof.
  split.
  - intros dataset epochs st.
    destruct (trains_fit_pytorch dataset epochs st)
      as (w & new & final & H1 & H2 & H3).
    exists w, new, final.
    split_and!; [done | done | by eapply clean_run_forward |].
    intros g Hg. rewrite Forall_forall in H3. by apply (H3 _ Hg).
  - intros x_data y_data st.
    destruct (trains_fit_bilstm x_data y_data st)
      as (w & new & final & H1 & H2 & H3).
    exists w, new, final.
    split_and!; [done | done | by eapply clean_run_forward | | |].
    + intros g Hg. rewrite Forall_forall in H3. by apply (H3 _ Hg).
    + destruct (at_most_fit_bilstm x_data y_data st) as (new' & Hcalls & Hle).
      rewrite H1 in Hcalls. by apply app_inv_head in Hcalls as ->.
    + intros Hall. rewrite (fit_bilstm_exact x_data y_data st Hall) in H1.
      simpl in H1. apply app_inv_head in H1 as <-.
      unfold examples_of. by rewrite steps_calls_forwards, length_fmap.
Qed.

(** The log of one run of the single-pass trainer on two examples: each
    step resets, runs forward on empty buffers, then accumulates and
    updates; the reset of the second step clears what the first left. *)
Example fit_trace_two_steps :
  calls (env (BiLstmCrfLearner.fit [["Give"; "Aspirin"]; ["now"]]
                                   [["O"; "DRUG"]; ["O"]]
                {| self := BiLstmCrfLearner.init; env := uniform_world |}).2)
  = [ (ZeroGrad, []); (Forward, []); (Backward ([0; 1], [0; 1]), []);
      (Step, [([0; 1], [0; 1])]);
      (ZeroGrad, [([0; 1], [0; 1])]); (Forward, []);
      (Backward ([2], [0]), []); (Step, [([2], [0])]) ].
Proof. by vm_compute. Qed.

(** The log of two epochs of the full trainer on one document, followed by
    the evaluation pass under [torch.no_grad()], which is made with the
    buffers the last step left. *)
Example fit_trace_two_epochs :
  calls (env (PytorchModel.fit (PyDataset aligned_dataset) 2
                {| self := PytorchModel.init false; env := uniform_world |}).2)
  = [ (ZeroGrad, []); (Forward, []); (Backward ([0; 1; 2], [1; 0; 1]), []);
      (Step, [([0; 1; 2], [1; 0; 1])]);
      (ZeroGrad, [([0; 1; 2], [1; 0; 1])]); (Forward, []);
      (Backward ([0; 1; 2], [1; 0; 1]), []);
      (Step, [([0; 1; 2], [1; 0; 1])]);
      (ForwardNoGrad, [([0; 1; 2], [1; 0; 1])]) ].
Proof. by vm_compute. Qed.

(** ** Segmentation of training pairs *)

Lemma pair_up_loop sentences tag_segments (n i : nat) acc
    (st : state PytorchModel.t) :
  i + n ≤ length sentences → i + n ≤ length tag_segments →
  for_each (PytorchModel.pair_up sentences tag_segments) acc (seq i n) st
  = (Ok (acc ++ take n (drop i (zip sentences tag_segments))), st).
Proof.
  revert i acc. induction n as [|n IH]; intros i acc Hs Ht; simpl.
  - by rewrite app_nil_r.
  - unfold mbind, M_bind, PytorchModel.pair_up at 1.
    destruct (lookup_lt_is_Some_2 sentences i ltac:(lia)) as [s Hsi].
    destruct (lookup_lt_is_Some_2 tag_segments i ltac:(lia)) as [g Hgi].
    rewrite Hsi, Hgi. unfold mret, M_ret.
    rewrite IH by lia. rewrite <- app_assoc. simpl.
    assert (zip sentences tag_segments !! i = Some (s, g)) as Hz.
    { apply lookup_zip_with_Some. by exists s, g. }
    by rewrite (drop_S _ _ _ Hz).
Qed.

Lemma pair_up_loop_short sentences tag_segments (n i : nat) acc
    (st : state PytorchModel.t) :
  i ≤ length tag_segments → length tag_segments < i + n →
  for_each (PytorchModel.pair_up sentences tag_segments) acc (seq i n) st
  = (Raise IndexError, st).
Proof.
  revert i acc. induction n as [|n IH]; intros i acc Hi Hn; simpl; [lia|].
  unfold mbind, M_bind, PytorchModel.pair_up at 1.
  destruct (decide (i = length tag_segments)) as [->|Hne].
  - rewrite (lookup_ge_None_2 tag_segments) by lia.
    by destruct (sentences !! length tag_segments).
  - destruct (lookup_lt_is_Some_2 tag_segments i ltac:(lia)) as [g Hgi].
    rewrite Hgi. destruct (sentences !! i); [|done].
    unfold mret, M_ret. apply IH; lia.
Qed.

(** The loop of [get_training_data] over the documents. *)
Lemma segment_loop training_data acc (st : state PytorchModel.t) :
  Forall (λ dt, length (PytorchModel.get_segments dt.1)
                ≤ length (PytorchModel.get_segments dt.2)) training_data →
  for_each (λ acc dt,
      for_each (PytorchModel.pair_up (PytorchModel.get_segments dt.1)
                                     (PytorchModel.get_segments dt.2))
               acc (seq 0 (length (PytorchModel.get_segments dt.1))))
    acc training_data st
  = (Ok (acc ++ concat ((λ dt, zip (PytorchModel.get_segments dt.1)
                                   (PytorchModel.get_segments dt.2))
                          <$> training_data)), st).
Proof.
  revert acc. induction training_data as [|dt l IH]; intros acc Hall; simpl.
  - by rewrite app_nil_r.
  - apply Forall_cons in Hall as [Hdt Hl].
    unfold mbind, M_bind. rewrite pair_up_loop by (simpl; lia).
    rewrite IH by done. rewrite <- app_assoc, drop_0.
    rewrite take_ge; [done|]. rewrite length_zip_with. lia.
Qed.

Lemma segment_loop_short training_data acc (st : state PytorchModel.t) :
  Exists (λ dt, length (PytorchModel.get_segments dt.2)
                < length (PytorchModel.get_segments dt.1)) training_data →
  for_each (λ acc dt,
      for_each (PytorchModel.pair_up (PytorchModel.get_segments dt.1)
                                     (PytorchModel.get_segments dt.2))
               acc (seq 0 (length (PytorchModel.get_segments dt.1))))
    acc training_data st
  = (Raise IndexError, st).
Proof.
  revert acc. induction training_data as [|dt l IH]; intros acc Hex; simpl.
  - by apply Exists_nil in Hex.
  - unfold mbind, M_bind.
    destruct (decide (length (PytorchModel.get_segments dt.2)
                      < length (PytorchModel.get_segments dt.1))) as [Hlt|Hge].
    + by rewrite pair_up_loop_short by lia.
    + rewrite pair_up_loop by (simpl; lia).
      apply IH. apply Exists_cons in Hex as [?|?]; [lia | done].
Qed.

Lemma zip_segments_aligned (document tags : list string) :
  length document = length tags →
  length (PytorchModel.get_segments document)
  = length (PytorchModel.get_segments tags)
  ∧ Forall (λ p, length p.1 = length p.2)
      (zip (PytorchModel.get_segments document) (PytorchModel.get_segments tags)).
Proof.
  intros Hlen.
  assert (0 < SEGMENT_SIZE) as HW by (unfold SEGMENT_SIZE; lia).
  destruct (windows_spec SEGMENT_SIZE HW document) as (Hn & _ & Hseg & _).
  destruct (windows_spec SEGMENT_SIZE HW tags) as (Hn' & _ & Hseg' & _).
  fold (PytorchModel.get_segments document) in Hn, Hseg.
  fold (PytorchModel.get_segments tags) in Hn', Hseg'.
  split; [by rewrite Hn, Hn', Hlen|].
  apply Forall_lookup. intros i [s g] Hi.
  apply lookup_zip_with_Some in Hi as (s' & g' & [= -> ->] & Hs & Hg).
  simpl. rewrite (Hseg _ _ Hs), (Hseg' _ _ Hg).
  by rewrite !length_take, !length_drop, Hlen.
Qed.

Lemma zip_segments_tokens (training_data : list (list string * list string)) :
  Forall (λ dt, length (PytorchModel.get_segments dt.1)
                ≤ length (PytorchModel.get_segments dt.2)) training_data →
  (concat ((λ dt, zip (PytorchModel.get_segments dt.1)
                      (PytorchModel.get_segments dt.2)) <$> training_data)).*1
  = concat ((λ dt, PytorchModel.get_segments dt.1) <$> training_data).
Proof.
  induction 1 as [|dt l Hdt Hl IH]; [done|].
  rewrite !fmap_cons, !concat_cons, fmap_app, IH. f_equal. by apply fst_zip.
Qed.

(** C5, as the code has it: [get_training_data] cuts the tokens and the tags
    of each pair separately and pairs the segments by position.  When the
    two sequences of every pair have the same length, the i-th token segment
    and the i-th tag segment have the same length and there are as many of
    each.  Lengths are not compared, only the numbers of segments matter:
    when the tags of every pair give at least as many segments as its
    tokens, every token segment is returned, paired with the tag segment at
    its position, and tag segments beyond the last token segment are
    dropped; when the tags of some pair give fewer segments than its
    tokens, [IndexError] is raised, with [self] untouched. *)
Theorem get_training_data_segments (ds : Dataset) (st : state PytorchModel.t) :
  let training_data := ds_training_data ds in
  let paired :=
    concat ((λ dt, zip (PytorchModel.get_segments dt.1)
                       (PytorchModel.get_segments dt.2)) <$> training_data) in
  (Forall (λ dt, length dt.1 = length dt.2) training_data →
     (PytorchModel.get_training_data ds st).1 = Ok paired
     ∧ Forall (λ p, length p.1 = length p.2) paired
     ∧ Forall (λ dt, length (PytorchModel.get_segments dt.1)
                     = length (PytorchModel.get_segments dt.2)) training_data)
  ∧ (Forall (λ dt, length (PytorchModel.get_segments dt.1)
                   ≤ length (PytorchModel.get_segments dt.2)) training_data →
     (PytorchModel.get_training_data ds st).1 = Ok paired
     ∧ paired.*1 = concat ((λ dt, PytorchModel.get_segments dt.1) <$> training_data))
  ∧ (Exists (λ dt, length (PytorchModel.get_segments dt.2)
                   < length (PytorchModel.get_segments dt.1)) training_data →
     PytorchModel.get_training_data ds st = (Raise IndexError, st)).
Proof.
  intros training_data paired.
  assert (Hok : Forall (λ dt, length (PytorchModel.get_segments dt.1)
                   ≤ length (PytorchModel.get_segments dt.2)) training_data →
     (PytorchModel.get_training_data ds st).1 = Ok paired).
  { intros Hall.
    unfold PytorchModel.get_training_data, mbind, M_bind, get_env.
    by rewrite segment_loop. }
  split_and!; [|intros Hall; split;
                [by apply Hok | by apply zip_segments_tokens]|].
  - intros Heq.
    assert (Hal : Forall (λ dt,
        length (PytorchModel.get_segments dt.1)
        = length (PytorchModel.get_segments dt.2)
        ∧ Forall (λ p, length p.1 = length p.2)
            (zip (PytorchModel.get_segments dt.1)
                 (PytorchModel.get_segments dt.2))) training_data).
    { eapply Forall_impl; [exact Heq|]. intros dt. apply zip_segments_aligned. }
    split_and!.
    + apply Hok. eapply Forall_impl; [exact Hal|]. intros dt [-> _]. done.
    + unfold paired. apply Forall_concat, Forall_fmap.
      eapply Forall_impl; [exact Hal|]. by intros dt [_ ?].
    + eapply Forall_impl; [exact Hal|]. by intros dt [? _].
  - intros Hex.
    unfold PytorchModel.get_training_data, mbind, M_bind, get_env.
    by rewrite segment_loop_short.
Qed.

Lemma get_training_data_segments_witness :
  (PytorchModel.get_training_data aligned_dataset
     {| self := PytorchModel.init false; env := counting_world |}).1
  = Ok [(["Give"; "Aspirin"; "now"], ["O"; "DRUG"; "O"])].
Proof.
  destruct (get_training_data_segments aligned_dataset
              {| self := PytorchModel.init false; env := counting_world |})
    as (H & _).
  destruct H as (H & _); [by repeat constructor|].
  rewrite H. by vm_compute.
Defined.

(** C5, counterexample: two tokens with one tag are not rejected; the pair
    comes back as one segment pair of unequal lengths. *)
Lemma get_training_data_accepts_length_mismatch :
  (PytorchModel.get_training_data mismatched_dataset
     {| self := PytorchModel.init false; env := counting_world |}).1
  = Ok [(["Give"; "Aspirin"], ["O"])].
Proof. by vm_compute. Qed.

(** [get_training_data] either returns the segment pairs and installs the
    labels and both mappings, or raises [IndexError] and installs nothing. *)
Lemma get_training_data_cases (ds : Dataset) (st : state PytorchModel.t) :
  (Forall (λ dt, length (PytorchModel.get_segments dt.1)
                 ≤ length (PytorchModel.get_segments dt.2))
          (ds_training_data ds)
   ∧ PytorchModel.get_training_data ds st
     = (Ok (segment_pairs (ds_training_data ds)),
        {| self := installed (env st) ds (self st); env := env st |}))
  ∨ (Exists (λ dt, length (PytorchModel.get_segments dt.2)
                   < length (PytorchModel.get_segments dt.1))
            (ds_training_data ds)
     ∧ PytorchModel.get_training_data ds st = (Raise IndexError, st)).
Proof.
  destruct (Forall_Exists_dec
    (λ dt : list string * list string,
       length (PytorchModel.get_segments dt.1)
       ≤ length (PytorchModel.get_segments dt.2))
    (λ dt, length (PytorchModel.get_segments dt.2)
           < length (PytorchModel.get_segments dt.1))
    (λ dt, le_lt_dec _ _) (ds_training_data ds)) as [Hall|Hex].
  - left. split; [done|].
    unfold PytorchModel.get_training_data, mbind, M_bind, get_env.
    by rewrite segment_loop.
  - right. split; [done|].
    unfold PytorchModel.get_training_data, mbind, M_bind, get_env.
    by rewrite segment_loop_short.
Qed.

Lemma index_words_create training_data :
  PytorchModel.index_words training_data
  = BiLstmCrfLearner.create_index_dictionary training_data.*1.
Proof.
  unfold PytorchModel.index_words, BiLstmCrfLearner.create_index_dictionary.
  by rewrite foldl_fmap.
Qed.

(** ** The mappings of items to indices *)

(** C4, as the code has it.  [create_index_dictionary] numbers the distinct
    items in the order of their first occurrence: the mapping is the list
    of first-seen items paired with 0, 1, ..., |V|-1; an item's index is
    the number of distinct items before its first occurrence; an item has
    an index exactly when it was observed and no two items share one; no
    input gives the empty mapping.  The word loop of [get_training_data]
    is the same function of the documents.  The label loop numbers the
    labels of the dataset and ['O'], each once, with 0, 1, ..., n-1, in
    the order in which the label set is iterated; these are the mappings
    [get_training_data] installs when it returns. *)
Theorem create_index_dictionary_spec (sequences : list (list string)) :
  let d := BiLstmCrfLearner.create_index_dictionary sequences in
  let items := concat sequences in
  d = zip (first_seen items) (seq 0 (length (first_seen items)))
  ∧ NoDup d.*1
  ∧ d.*2 = seq 0 (length d)
  ∧ (∀ x, x ∈ items ↔ is_Some (dict_get d x))
  ∧ (∀ x y i, dict_get d x = Some i → dict_get d y = Some i → x = y)
  ∧ (∀ pre x post, items = pre ++ x :: post → x ∉ pre →
       dict_get d x = Some (length (first_seen pre)))
  ∧ BiLstmCrfLearner.create_index_dictionary [] = []
  ∧ (∀ training_data,
       PytorchModel.index_words training_data
       = BiLstmCrfLearner.create_index_dictionary training_data.*1)
  ∧ (∀ w ds,
       let labels := set_iter (str_hash w) (set_add "O" (get_labels ds)) in
       let tags := PytorchModel.index_labels labels in
       tags = zip labels (seq 0 (length labels))
       ∧ labels ≡ₚ set_add "O" (get_labels ds)
       ∧ NoDup tags.*1
       ∧ tags.*2 = seq 0 (length tags)
       ∧ (∀ tag, tag = "O" ∨ tag ∈ ds_labels ds ↔ is_Some (dict_get tags tag))
       ∧ (∀ x y i, dict_get tags x = Some i → dict_get tags y = Some i →
            x = y))
  ∧ (∀ ds (st : state PytorchModel.t) data,
       (PytorchModel.get_training_data ds st).1 = Ok data →
       let s := self (PytorchModel.get_training_data ds st).2 in
       PytorchModel.word_to_index s
       = BiLstmCrfLearner.create_index_dictionary (ds_training_data ds).*1
       ∧ PytorchModel.tag_to_index s
         = PytorchModel.index_labels
             (set_iter (str_hash (env st)) (set_add "O" (get_labels ds)))).
Proof.
  intros d items.
  assert (Hd : d = enumerate (first_seen items))
    by apply create_index_dictionary_enumerate.
  pose proof (first_seen_NoDup items) as Hnd.
  assert (Hget : ∀ x i, dict_get d x = Some i ↔ first_seen items !! i = Some x).
  { intros x i. rewrite Hd. by apply enumerate_lookup. }
  split_and!.
  - done.
  - by rewrite Hd, enumerate_keys.
  - by rewrite Hd, enumerate_values, enumerate_length.
  - intros x. rewrite <- first_seen_elem_of, list_elem_of_lookup.
    split; intros [i Hi]; exists i; by apply Hget.
  - intros x y i Hx%Hget Hy%Hget. congruence.
  - intros pre x post Hitems Hx. apply Hget. rewrite Hitems.
    unfold first_seen. rewrite foldl_app. simpl.
    fold (first_seen pre).
    assert (see (first_seen pre) x = first_seen pre ++ [x]) as ->.
    { unfold see. rewrite decide_False; [done|]. by rewrite first_seen_elem_of. }
    destruct (first_seen_from_spec post (first_seen pre ++ [x])) as (_ & _ & Hp).
    { apply NoDup_app. split_and!; [apply first_seen_NoDup| |apply NoDup_singleton].
      intros y Hy Hy'%list_elem_of_singleton. subst y.
      apply (proj1 (first_seen_elem_of _ _)) in Hy. contradiction. }
    eapply prefix_lookup_Some; [|exact Hp]. by apply list_lookup_middle.
  - done.
  - apply index_words_create.
  - intros w ds labels tags.
    pose proof (labels_of_NoDup w ds) as Hlnd. fold labels in Hlnd.
    assert (Ht : tags = enumerate labels)
      by (by apply index_labels_enumerate).
    assert (Htget : ∀ x i, dict_get tags x = Some i ↔ labels !! i = Some x).
    { intros x i. rewrite Ht. by apply enumerate_lookup. }
    split_and!.
    + done.
    + apply labels_of_Permutation.
    + by rewrite Ht, enumerate_keys.
    + by rewrite Ht, enumerate_values, enumerate_length.
    + intros tag. rewrite <- labels_elem_of.
      rewrite <- (labels_of_Permutation w ds). fold labels.
      rewrite list_elem_of_lookup.
      split; intros [i Hi]; exists i; by apply Htget.
    + intros x y i Hx%Htget Hy%Htget. congruence.
  - intros ds st data Hok s0. unfold s0.
    destruct (get_training_data_cases ds st) as [[_ Hrun]|[_ Hrun]];
      rewrite Hrun in Hok |- *; [|done].
    simpl. split; [apply index_words_create | done].
Qed.

Lemma create_index_dictionary_spec_witness :
  BiLstmCrfLearner.create_index_dictionary
    [["Give"; "Aspirin"; "now"]; ["Give"; "Ibuprofen"]]
  = [("Give", 0); ("Aspirin", 1); ("now", 2); ("Ibuprofen", 3)]
  ∧ dict_get (BiLstmCrfLearner.create_index_dictionary
                [["Give"; "Aspirin"; "now"]; ["Give"; "Ibuprofen"]])
             "Ibuprofen"
    = Some (length (first_seen ["Give"; "Aspirin"; "now"; "Give"])).
Proof.
  split; [by vm_compute|].
  apply (create_index_dictionary_spec
           [["Give"; "Aspirin"; "now"]; ["Give"; "Ibuprofen"]]
         ) with (post := []); [done|].
  apply (bool_decide_unpack _). by vm_compute.
Defined.

(** C4, counterexample: the tag mapping is not a function of the dataset
    alone.  In two environments that differ in nothing but the string
    hashing, [get_training_data] numbers the labels of the same dataset
    differently. *)
Lemma tag_mapping_depends_on_hashing :
  PytorchModel.tag_to_index
    (self (PytorchModel.get_training_data aligned_dataset
             {| self := PytorchModel.init false;
                env := {| rand := rand counting_world;
                          scores := scores counting_world;
                          str_hash := String.length;
                          files := files counting_world;
                          calls := [] |} |}).2)
  = [("O", 0); ("DRUG", 1)]
  ∧ PytorchModel.tag_to_index
      (self (PytorchModel.get_training_data aligned_dataset
               {| self := PytorchModel.init false;
                  env := {| rand := rand counting_world;
                            scores := scores counting_world;
                            str_hash := λ x, 100 - String.length x;
                            files := files counting_world;
                            calls := [] |} |}).2)
    = [("DRUG", 0); ("O", 1)].
Proof. split; by vm_compute. Qed.

(** ** Guards of [fit], [predict] and [load] *)

Lemma fit_rejects_wrong_type dataset epochs (st : state PytorchModel.t) :
  (∀ ds, dataset ≠ PyDataset ds) →
  PytorchModel.fit dataset epochs st = (Raise TypeError, st).
Proof. intros Hne. destruct dataset; try done. by destruct (Hne d). Qed.

(** C2, what the code does on an empty training set: [PytorchModel.fit]
    raises [ZeroDivisionError] from the average of no losses (or
    [IndexError] from [training_data[0]] when [epochs] is 0), after
    [get_training_data] has already replaced the labels and both mappings of
    the instance; [BiLstmCrfLearner.fit] reports nothing and installs a
    network with an empty vocabulary. *)
Theorem fit_empty_training_set (tags : list string) (epochs : nat)
    (st : state PytorchModel.t) (st' : state BiLstmCrfLearner.t) :
  let ds := {| ds_labels := tags; ds_training_data := [] |} in
  let r := PytorchModel.fit (PyDataset ds) epochs st in
  r.1 = Raise (if decide (epochs = 0) then IndexError else ZeroDivisionError)
  ∧ PytorchModel.model (self r.2) = PytorchModel.model (self st)
  ∧ PytorchModel.labels (self r.2) = labels_of (env st) ds
  ∧ PytorchModel.word_to_index (self r.2) = []
  ∧ PytorchModel.tag_to_index (self r.2)
    = PytorchModel.index_labels (labels_of (env st) ds)
  ∧ BiLstmCrfLearner.fit [] [] st'
    = (Ok (), {| self := {| BiLstmCrfLearner.model :=
                              Some (fresh (BiLstmCrfNetwork 0 0));
                            BiLstmCrfLearner.token_to_index := [];
                            BiLstmCrfLearner.tag_to_index := [] |};
                 env := env st' |}).
Proof.
  intros ds r.
  unfold r, PytorchModel.fit, PytorchModel.get_training_data, labels_of.
  destruct epochs as [|epochs]; done.
Qed.

(** C8: [PytorchModel.predict] raises [TypeError] for an argument that is
    neither a [Dataset] nor a string, and [ValueError] for a [Dataset] or a
    string when no model is installed; [BiLstmCrfLearner.predict] raises
    [RuntimeError] when the token mapping is empty, as it is on an instance
    that was never fit.  In each case nothing else happens: the state is
    the one before the call. *)
Theorem predict_guards :
  (∀ dataset (st : state PytorchModel.t),
     PytorchModel.is_dataset_or_str dataset = false →
     PytorchModel.predict dataset st = (Raise TypeError, st))
  ∧ (∀ dataset (st : state PytorchModel.t),
     PytorchModel.is_dataset_or_str dataset = true →
     PytorchModel.model (self st) = None →
     PytorchModel.predict dataset st = (Raise ValueError, st))
  ∧ (∀ sequences (st : state BiLstmCrfLearner.t),
     BiLstmCrfLearner.token_to_index (self st) = [] →
     BiLstmCrfLearner.predict sequences st = (Raise RuntimeError, st))
  ∧ (∀ sequences w,
     BiLstmCrfLearner.predict sequences
       {| self := BiLstmCrfLearner.init; env := w |}
     = (Raise RuntimeError, {| self := BiLstmCrfLearner.init; env := w |})).
Proof.
  split_and!.
  - intros dataset st Hty. unfold PytorchModel.predict, mbind, M_bind.
    by rewrite Hty.
  - intros dataset st Hty Hnone. unfold PytorchModel.predict, mbind, M_bind.
    rewrite Hty. simpl. by rewrite Hnone.
  - intros sequences st Hempty.
    unfold BiLstmCrfLearner.predict, mbind, M_bind. simpl. by rewrite Hempty.
  - done.
Qed.

Lemma predict_guards_witness :
  PytorchModel.predict PyNone
    {| self := PytorchModel.init true; env := counting_world |}
  = (Raise TypeError,
     {| self := PytorchModel.init true; env := counting_world |})
  ∧ PytorchModel.predict (PyStr "Give Aspirin now")
      {| self := PytorchModel.init true; env := counting_world |}
    = (Raise ValueError,
       {| self := PytorchModel.init true; env := counting_world |})
  ∧ BiLstmCrfLearner.predict [["Give"]]
      {| self := BiLstmCrfLearner.init; env := counting_world |}
    = (Raise RuntimeError,
       {| self := BiLstmCrfLearner.init; env := counting_world |}).
Proof.
  destruct predict_guards as (H1 & H2 & H3 & _). split_and!.
  - by apply H1.
  - by apply H2.
  - by apply H3.
Defined.

(** C10: [load] leaves the instance and the environment as they were,
    whether or not the file can be read, so on a fresh instance [predict]
    after [load] behaves exactly as [predict] alone: it raises [ValueError]
    for a [Dataset] or a string (and [TypeError] for anything else). *)
Theorem load_does_not_install (path : string) :
  (∀ st : state PytorchModel.t, (PytorchModel.load path st).2 = st)
  ∧ (∀ bidirectional w dataset,
       let fresh_instance :=
         {| self := PytorchModel.init bidirectional; env := w |} in
       let loaded := (PytorchModel.load path fresh_instance).2 in
       PytorchModel.model (self loaded) = None
       ∧ PytorchModel.predict dataset loaded
         = PytorchModel.predict dataset fresh_instance
       ∧ PytorchModel.predict dataset loaded
         = (Raise (if PytorchModel.is_dataset_or_str dataset
                   then ValueError else TypeError), fresh_instance)).
Proof.
  assert (Hload : ∀ st : state PytorchModel.t, (PytorchModel.load path st).2 = st).
  { intros st. unfold PytorchModel.load, torch_load, mbind, M_bind. simpl.
    by destruct (files (env st) path). }
  split; [done|]. intros b w dataset fresh_instance loaded.
  unfold loaded. rewrite Hload. split_and!; [done..|].
  by destruct dataset.
Qed.

(** * Further properties *)

(** ** Segmenter: recursion and concatenation *)

Section segments_more.
Context {A : Type} (W : nat) (HW : 0 < W).

Lemma range_count_step n : 0 < n → (n + W - 1) / W = S ((n - W + W - 1) / W).
Proof.
  intros Hn. destruct (decide (W ≤ n)) as [Hle|Hlt].
  - replace (n + W - 1) with ((n - W + W - 1) + 1 * W) by lia.
    rewrite Nat.div_add by lia. lia.
  - replace (n - W) with 0 by lia. rewrite (Nat.div_small (0 + W - 1)) by lia.
    symmetry. apply (Nat.div_unique _ _ _ (n - 1)); lia.
Qed.

Lemma windows_unfold (l : list A) :
  l ≠ [] →
  (λ i, slice l i (i + W)) <$> py_range 0 (length l) W
  = take W l
    :: ((λ i, slice (drop W l) i (i + W))
          <$> py_range 0 (length (drop W l)) W).
Proof.
  intros Hl. assert (0 < length l) by (destruct l; [done | simpl; lia]).
  rewrite !py_range_from_0, length_drop, (range_count_step (length l)) by done.
  rewrite <- cons_seq, fmap_cons, <- fmap_S_seq, <- !list_fmap_compose.
  rewrite fmap_cons, <- list_fmap_compose. f_equal.
  - unfold slice. rewrite Nat.mul_0_l, drop_0. f_equal. lia.
  - apply list_fmap_ext. intros _ k _. unfold compose, slice.
    rewrite drop_drop. replace (S k * W + W - S k * W) with (k * W + W - k * W) by lia.
    done.
Qed.

Lemma windows_app (k : nat) (l1 l2 : list A) :
  length l1 = k * W →
  (λ i, slice (l1 ++ l2) i (i + W)) <$> py_range 0 (length (l1 ++ l2)) W
  = ((λ i, slice l1 i (i + W)) <$> py_range 0 (length l1) W)
    ++ ((λ i, slice l2 i (i + W)) <$> py_range 0 (length l2) W).
Proof.
  revert l1. induction k as [|k IH]; intros l1 Hlen.
  - destruct l1; [|simpl in Hlen; lia]. simpl app.
    unfold py_range at 2. simpl length.
    by rewrite Nat.sub_0_r, Nat.div_small by lia.
  - assert (W ≤ length l1) by lia.
    assert (l1 ≠ []) by (intros ->; simpl in *; lia).
    assert (l1 ++ l2 ≠ []) by (destruct l1; done).
    rewrite (windows_unfold (l1 ++ l2)), (windows_unfold l1) by done.
    rewrite take_app_le, drop_app_le by done.
    rewrite IH; [done|]. rewrite length_drop. lia.
Qed.
End segments_more.

(** X1: [get_segments] obeys the recursion it replaces: nothing for the
    empty sequence, otherwise the first 100 items followed by the segments
    of the rest; so a non-empty sequence of at most 100 items is its own
    single segment. *)
Theorem get_segments_unfold {A} (source : list A) :
  PytorchModel.get_segments source
  = match source with
    | [] => []
    | _ => take 100 source :: PytorchModel.get_segments (drop 100 source)
    end
  ∧ (source ≠ [] → length source ≤ 100 →
     PytorchModel.get_segments source = [source]).
Proof.
  assert (0 < SEGMENT_SIZE) as HW by (unfold SEGMENT_SIZE; lia).
  assert (Hunfold : source ≠ [] → PytorchModel.get_segments source
    = take 100 source :: PytorchModel.get_segments (drop 100 source)).
  { intros Hne. apply (windows_unfold SEGMENT_SIZE HW source Hne). }
  split.
  - destruct source as [|x l]; [done|]. by apply Hunfold.
  - intros Hne Hlen. rewrite Hunfold by done.
    rewrite take_ge, drop_ge by done. done.
Qed.

Lemma get_segments_unfold_witness :
  PytorchModel.get_segments ["Give"; "Aspirin"; "now"]
  = [["Give"; "Aspirin"; "now"]].
Proof. apply (get_segments_unfold ["Give"; "Aspirin"; "now"]); [done|]. simpl. lia. Defined.

(** X2: segmentation distributes over concatenation at a segment
    boundary: when the first part has a multiple of 100 items, the segments
    of the whole are the segments of the first part followed by those of
    the second. *)
Theorem get_segments_app {A} (k : nat) (l1 l2 : list A) :
  length l1 = k * 100 →
  PytorchModel.get_segments (l1 ++ l2)
  = PytorchModel.get_segments l1 ++ PytorchModel.get_segments l2.
Proof.
  assert (0 < SEGMENT_SIZE) as HW by (unfold SEGMENT_SIZE; lia).
  intros Hlen. by apply (windows_app SEGMENT_SIZE HW k).
Qed.

Lemma get_segments_app_witness :
  PytorchModel.get_segments (replicate 200 "a" ++ ["b"; "c"])
  = PytorchModel.get_segments (replicate 200 "a")
    ++ PytorchModel.get_segments ["b"; "c"].
Proof. apply (get_segments_app 2). by vm_compute. Defined.

(** ** Vocabulary Indexer: growing the corpus *)

Lemma first_seen_app l1 l2 :
  first_seen (l1 ++ l2) = foldl see (first_seen l1) l2.
Proof. unfold first_seen. by rewrite foldl_app. Qed.

Lemma enumerate_app l k :
  enumerate (l ++ k) = enumerate l ++ zip k (seq (length l) (length k)).
Proof.
  unfold enumerate. rewrite length_app, seq_app.
  by rewrite zip_with_app by (by rewrite length_seq).
Qed.

Lemma see_length_bound l seen :
  length (foldl see seen l) ≤ length seen + length l.
Proof.
  revert seen. induction l as [|x l IH]; intros seen; simpl; [lia|].
  etrans; [apply IH|]. unfold see. case_decide; [lia|].
  rewrite length_app. simpl. lia.
Qed.

(** X3: indexing more sequences keeps what was indexed: the mapping of a
    corpus is a prefix of the mapping of the corpus extended at its end, so
    every item keeps its index, and an item seen only in the extension gets
    an index past the old ones. *)
Theorem create_index_dictionary_app (s1 s2 : list (list string)) :
  let before := BiLstmCrfLearner.create_index_dictionary s1 in
  let after := BiLstmCrfLearner.create_index_dictionary (s1 ++ s2) in
  before `prefix_of` after
  ∧ (∀ x i, dict_get before x = Some i → dict_get after x = Some i)
  ∧ (∀ x, x ∈ concat s2 → dict_contains before x = false →
       ∃ i, dict_get after x = Some i ∧ length before ≤ i).
Proof.
  intros before after. unfold before, after.
  rewrite !create_index_dictionary_enumerate, concat_app, first_seen_app.
  pose proof (first_seen_NoDup (concat s1)) as Hnd1.
  destruct (first_seen_from_spec (concat s2) (first_seen (concat s1)) Hnd1)
    as (Hnd & Hin & [k Hk]).
  simpl in Hnd, Hin, Hk. rewrite Hk in *.
  split_and!.
  - rewrite enumerate_app. by apply prefix_app_r.
  - intros x i Hx. apply enumerate_lookup in Hx; [|done].
    apply enumerate_lookup; [done|]. by apply lookup_app_l_Some.
  - intros x Hx Hnew.
    assert (x ∉ first_seen (concat s1)) as Hnot.
    { intros Hc. rewrite <- enumerate_keys in Hc.
      apply dict_contains_true in Hc. congruence. }
    assert (x ∈ first_seen (concat s1) ++ k) as Hxk by (apply Hin; by right).
    apply list_elem_of_lookup in Hxk as [i Hi].
    exists i. split; [by apply enumerate_lookup|].
    rewrite enumerate_length.
    destruct (decide (i < length (first_seen (concat s1)))) as [Hlt|]; [|lia].
    rewrite lookup_app_l in Hi by done.
    destruct Hnot. apply list_elem_of_lookup. by exists i.
Qed.

Lemma create_index_dictionary_app_witness :
  dict_get (BiLstmCrfLearner.create_index_dictionary
              ([["Give"; "Aspirin"]] ++ [["Give"; "Ibuprofen"]])) "Aspirin"
  = Some 1.
Proof.
  apply (create_index_dictionary_app [["Give"; "Aspirin"]]
                                     [["Give"; "Ibuprofen"]]).
  by vm_compute.
Defined.

(** X4: only the stream of items matters to the indexer, not how it is cut
    into sequences; the mapping never has more entries than there are
    items, and it numbers a duplicate-free stream in its own order. *)
Theorem create_index_dictionary_flat (sequences : list (list string)) :
  BiLstmCrfLearner.create_index_dictionary sequences
  = BiLstmCrfLearner.create_index_dictionary [concat sequences]
  ∧ length (BiLstmCrfLearner.create_index_dictionary sequences)
    ≤ length (concat sequences)
  ∧ (NoDup (concat sequences) →
     BiLstmCrfLearner.create_index_dictionary sequences
     = zip (concat sequences) (seq 0 (length (concat sequences)))).
Proof.
  split_and!.
  - rewrite !create_index_dictionary_enumerate. simpl. by rewrite app_nil_r.
  - rewrite create_index_dictionary_enumerate, enumerate_length.
    apply (see_length_bound (concat sequences) []).
  - intros Hnd. rewrite create_index_dictionary_enumerate.
    fold (enumerate (concat sequences)). f_equal.
    cut (∀ l seen, NoDup (seen ++ l) → foldl see seen l = seen ++ l).
    { intros Hc. apply (Hc _ []). done. }
    clear. induction l as [|x l IH]; intros seen Hnd; simpl.
    + by rewrite app_nil_r.
    + assert (see seen x = seen ++ [x]) as ->.
      { unfold see. rewrite decide_False; [done|].
        apply NoDup_app in Hnd as (_ & Hd & _). intros Hx.
        apply (Hd x Hx). left. }
      rewrite IH; rewrite <- app_assoc; done.
Qed.

Lemma create_index_dictionary_flat_witness :
  BiLstmCrfLearner.create_index_dictionary [["Give"]; ["Aspirin"; "now"]]
  = zip ["Give"; "Aspirin"; "now"] (seq 0 3).
Proof.
  apply (create_index_dictionary_flat [["Give"]; ["Aspirin"; "now"]]).
  apply (bool_decide_unpack _). by vm_compute.
Defined.

(** ** Vectorizers *)

Lemma dict_lookup_raise (d : dict string nat) (item : string) :
  dict_contains d item = false → dict_lookup d item = Raise KeyError.
Proof.
  unfold dict_contains, dict_lookup. by destruct (dict_get d item).
Qed.

Lemma vectorize_strict_missing (d : dict string nat) (sequence : list string) :
  Exists (λ item, dict_contains d item = false) sequence →
  PytorchModel.vectorize sequence d = Raise KeyError.
Proof.
  unfold PytorchModel.vectorize.
  induction sequence as [|x l IH]; intros Hex; [by apply Exists_nil in Hex|].
  simpl. destruct (dict_contains d x) eqn:Hx.
  - destruct (dict_contains_get d x Hx) as [i Hi].
    unfold dict_lookup at 1. rewrite Hi. simpl. rewrite IH; [done|].
    apply Exists_cons in Hex as [?|?]; [congruence | done].
  - by rewrite dict_lookup_raise.
Qed.

(** X5: [PytorchModel.vectorize] returns exactly when every item is a key
    of the mapping, and then returns the items' indices in order; otherwise
    it raises [KeyError] and nothing else. *)
Theorem vectorize_strict_spec (sequence : list string) (to_index : dict string nat) :
  (Forall (λ item, dict_contains to_index item = true) sequence
   ↔ PytorchModel.vectorize sequence to_index
     = Ok (indices_of to_index sequence))
  ∧ (Exists (λ item, dict_contains to_index item = false) sequence
     ↔ PytorchModel.vectorize sequence to_index = Raise KeyError)
  ∧ (∀ indices, PytorchModel.vectorize sequence to_index = Ok indices →
       length indices = length sequence).
Proof.
  assert (Hdec : Forall (λ item, dict_contains to_index item = true) sequence
                 ∨ Exists (λ item, dict_contains to_index item = false) sequence).
  { induction sequence as [|x l IH]; [left; constructor|].
    destruct (dict_contains to_index x) eqn:Hx.
    - destruct IH as [IH|IH]; [left; by constructor | right; by constructor].
    - right. by constructor. }
  split_and!.
  - split; [apply vectorize_strict_in_vocabulary|].
    intros Hok. destruct Hdec as [|Hex]; [done|].
    rewrite vectorize_strict_missing in Hok; done.
  - split; [apply vectorize_strict_missing|].
    intros Hraise. destruct Hdec as [Hall|]; [|done].
    rewrite vectorize_strict_in_vocabulary in Hraise; done.
  - intros indices Hok. destruct Hdec as [Hall|Hex].
    + rewrite vectorize_strict_in_vocabulary in Hok by done.
      injection Hok as <-. by rewrite length_fmap.
    + rewrite vectorize_strict_missing in Hok; done.
Qed.

Lemma vectorize_strict_spec_witness :
  PytorchModel.vectorize ["O"; "DRUG"; "O"] three_tags = Ok [0; 1; 0]
  ∧ PytorchModel.vectorize ["O"; "DOSAGE"] three_tags = Raise KeyError.
Proof.
  split.
  - apply (proj1 (vectorize_strict_spec ["O"; "DRUG"; "O"] three_tags)).
    by repeat constructor.
  - apply (proj1 (proj2 (vectorize_strict_spec ["O"; "DOSAGE"] three_tags))).
    apply Exists_cons_tl, Exists_cons_hd. by vm_compute.
Defined.

Lemma oov_count_cons (d : dict string nat) (item : string) (l : list string) :
  oov_count d (item :: l)
  = (if dict_contains d item then 0 else 1) + oov_count d l.
Proof. unfold oov_count. simpl. by destruct (dict_contains d item). Qed.

(** The loop of [BiLstmCrfLearner.vectorize] against a non-empty mapping. *)
Lemma vectorize_loop {S} (d : dict string nat) (sequence : list string)
    (acc : list nat) (st : state S) :
  d ≠ [] →
  ∃ indices st',
    for_each (BiLstmCrfLearner.vectorize_item d) acc sequence st
    = (Ok (acc ++ indices), st')
    ∧ Forall2 (λ item i, if dict_contains d item then dict_get d item = Some i
                         else i < length d) sequence indices
    ∧ self st' = self st
    ∧ scores (env st') = scores (env st)
    ∧ files (env st') = files (env st)
    ∧ calls (env st') = calls (env st)
    ∧ draws (rand (env st')) = draws (rand (env st))
    ∧ cursor (rand (env st')) = cursor (rand (env st)) + oov_count d sequence.
Proof.
  intros Hd. assert (length d ≠ 0) as Hlen by (destruct d; done).
  revert acc st. induction sequence as [|item l IH]; intros acc st.
  - exists [], st. rewrite app_nil_r. unfold oov_count. simpl.
    split_and!; [done | constructor | done.. | lia].
  - simpl. unfold mbind, M_bind, BiLstmCrfLearner.vectorize_item at 1.
    rewrite oov_count_cons. destruct (dict_contains d item) eqn:Hitem.
    + destruct (dict_contains_get d item Hitem) as [i Hi].
      unfold mbind, M_bind, lift, dict_lookup. rewrite Hi. simpl.
      unfold mret, M_ret.
      destruct (IH (acc ++ [i]) st)
        as (indices & st' & Hrun & Hall & H1 & H2 & H3 & H4 & H5 & H6).
      exists (i :: indices), st'. rewrite Hrun, <- app_assoc.
      split_and!; try done.
      constructor; [by rewrite Hitem | done].
    + unfold mbind, M_bind, draw, randrange. rewrite decide_False by done.
      unfold mret, M_ret.
      set (i := draws (rand (env st)) (cursor (rand (env st))) `mod` length d).
      set (st1 := {| self := self st; env := _ |}).
      destruct (IH (acc ++ [i]) st1)
        as (indices & st' & Hrun & Hall & H1 & H2 & H3 & H4 & H5 & H6).
      exists (i :: indices), st'. rewrite Hrun, <- app_assoc.
      split_and!; try done.
      * constructor; [|done]. rewrite Hitem. by apply Nat.mod_upper_bound.
      * rewrite H6. simpl. lia.
Qed.

(** X6: against a non-empty mapping [BiLstmCrfLearner.vectorize] always
    returns, one index per item: a key's own index, and for any other item
    some index below the size of the mapping.  It advances the random
    generator by one draw per item that is not a key and changes nothing
    else.  For a mapping numbered 0..n-1 every index returned is below n. *)
Theorem vectorize_total {S} (to_index : dict string nat)
    (sequence : list string) (st : state S) :
  to_index ≠ [] →
  ∃ indices st',
    BiLstmCrfLearner.vectorize sequence to_index st = (Ok indices, st')
    ∧ length indices = length sequence
    ∧ Forall2 (λ item i, if dict_contains to_index item
                         then dict_get to_index item = Some i
                         else i < length to_index) sequence indices
    ∧ (index_mapping to_index → Forall (λ i, i < length to_index) indices)
    ∧ self st' = self st
    ∧ scores (env st') = scores (env st)
    ∧ files (env st') = files (env st)
    ∧ calls (env st') = calls (env st)
    ∧ draws (rand (env st')) = draws (rand (env st))
    ∧ cursor (rand (env st'))
      = cursor (rand (env st)) + oov_count to_index sequence.
Proof.
  intros Hd.
  destruct (vectorize_loop to_index sequence [] st Hd)
    as (indices & st' & Hrun & Hall & H1 & H2 & H3 & H4 & H5 & H6).
  exists indices, st'. split_and!; try done.
  - symmetry. by eapply Forall2_length.
  - intros Hm. apply Forall_lookup. intros k i Hk.
    destruct (Forall2_lookup_r _ _ _ _ _ Hall Hk) as (item & Hitem & Hi).
    destruct (dict_contains to_index item); [|done].
    by eapply index_mapping_get_lt.
Qed.

Lemma vectorize_total_witness :
  ∃ indices st',
    BiLstmCrfLearner.vectorize ["DRUG"; "Aspirin"; "O"] three_tags
      {| self := (); env := counting_world |} = (Ok indices, st')
    ∧ length indices = 3
    ∧ cursor (rand (env st')) = 1.
Proof.
  destruct (vectorize_total three_tags ["DRUG"; "Aspirin"; "O"]
              {| self := (); env := counting_world |})
    as (indices & st' & H1 & H2 & _ & _ & _ & _ & _ & _ & _ & H3); [done|].
  by exists indices, st'.
Defined.

(** X7: against an empty mapping every item is unknown and the draw is
    [randrange(0)]: a non-empty sequence raises [ValueError] at its first
    item, with the generator untouched; the empty sequence is vectorized to
    the empty list against any mapping. *)
Theorem vectorize_empty_mapping {S} (st : state S) :
  (∀ item rest,
     BiLstmCrfLearner.vectorize (item :: rest) [] st = (Raise ValueError, st))
  ∧ (∀ to_index, BiLstmCrfLearner.vectorize [] to_index st = (Ok [], st)).
Proof.
  split; [|done]. intros item rest. destruct st as [s [g sc f c]]. done.
Qed.

(** X8: a sequence that was part of the indexed corpus is vectorized, by
    either vectorizer, to the indices of its items without any draw from
    the random generator; the indices are below the size of the mapping,
    and two positions hold the same index only if they hold the same
    item. *)
Theorem vectorize_indexed {S} (sequences : list (list string))
    (sequence : list string) (st : state S) :
  sequence ∈ sequences →
  let to_index := BiLstmCrfLearner.create_index_dictionary sequences in
  BiLstmCrfLearner.vectorize sequence to_index st
  = (Ok (indices_of to_index sequence), st)
  ∧ PytorchModel.vectorize sequence to_index
    = Ok (indices_of to_index sequence)
  ∧ Forall (λ i, i < length to_index) (indices_of to_index sequence)
  ∧ (∀ j k a b i,
       sequence !! j = Some a → sequence !! k = Some b →
       indices_of to_index sequence !! j = Some i →
       indices_of to_index sequence !! k = Some i → a = b).
Proof.
  intros Hin to_index.
  pose proof (in_vocabulary sequences sequence Hin) as Hall.
  fold to_index in Hall.
  pose proof (create_index_dictionary_index_mapping sequences) as Hm.
  fold to_index in Hm.
  assert (Hidx : ∀ k a i, sequence !! k = Some a →
            indices_of to_index sequence !! k = Some i →
            dict_get to_index a = Some i).
  { intros k a i Hk Hi. unfold indices_of in Hi.
    rewrite list_lookup_fmap, Hk in Hi. simpl in Hi. injection Hi as <-.
    rewrite Forall_forall in Hall.
    destruct (dict_contains_get to_index a) as [ia Hia].
    { apply Hall, list_elem_of_lookup. by exists k. }
    by rewrite Hia. }
  split_and!.
  - unfold BiLstmCrfLearner.vectorize.
    by rewrite (vectorize_in_vocabulary _ _ [] st Hall).
  - by apply vectorize_strict_in_vocabulary.
  - apply Forall_lookup. intros k i Hi.
    destruct (lookup_lt_is_Some_2 sequence k) as [a Ha].
    { apply lookup_lt_Some in Hi. unfold indices_of in Hi.
      by rewrite length_fmap in Hi. }
    eapply index_mapping_get_lt; [done|]. by eapply Hidx.
  - intros j k a b i Hj Hk Hij Hik.
    pose proof (Hidx _ _ _ Hj Hij) as Ha. pose proof (Hidx _ _ _ Hk Hik) as Hb.
    unfold to_index in Ha, Hb. rewrite create_index_dictionary_enumerate in Ha, Hb.
    apply enumerate_lookup in Ha, Hb; try apply first_seen_NoDup. congruence.
Qed.

Lemma vectorize_indexed_witness :
  BiLstmCrfLearner.vectorize ["now"; "Give"]
    (BiLstmCrfLearner.create_index_dictionary
       [["Give"; "Aspirin"]; ["now"; "Give"]])
    {| self := (); env := counting_world |}
  = (Ok [2; 0], {| self := (); env := counting_world |}).
Proof.
  apply (vectorize_indexed [["Give"; "Aspirin"]; ["now"; "Give"]]
                           ["now"; "Give"]).
  apply (bool_decide_unpack _). by vm_compute.
Defined.

(** ** Devectorizer: any mapping *)

Lemma dict_get_set {K V} `{EqDecision K} (d : dict K V) (k k' : K) (v : V) :
  dict_get (dict_set d k v) k'
  = if decide (k' = k) then Some v else dict_get d k'.
Proof.
  induction d as [|[k0 v0] d IH]; simpl.
  - by case_decide.
  - destruct (decide (k = k0)) as [->|Hne]; simpl.
    + by case_decide.
    + rewrite IH. destruct (decide (k' = k0)) as [->|]; [|done].
      by rewrite decide_False.
Qed.

Lemma invert_from_get (d : dict string nat) (acc : dict nat string) i tag :
  dict_get (foldl (λ to_tag xy, dict_set to_tag xy.2 xy.1) acc d) i = Some tag →
  dict_get acc i = Some tag ∨ (tag, i) ∈ d.
Proof.
  revert acc. induction d as [|[x y] d IH]; intros acc Hget; simpl in *.
  - by left.
  - apply IH in Hget as [Hget|Hin]; [|right; by right].
    rewrite dict_get_set in Hget. case_decide as Hi; [|by left].
    injection Hget as ->. subst. right. left.
Qed.

(** X9: whatever the mapping, when [devectorize] returns it returns one
    tag per score vector, and each tag is a key of the mapping whose index
    is the position of the first maximum of its vector: no tag is made up. *)
Theorem devectorize_tags_from_mapping (vectors : list (list Z))
    (to_index : dict string nat) (tags : list string) :
  PytorchModel.devectorize vectors to_index = Ok tags →
  length tags = length vectors
  ∧ Forall2 (λ v tag, ∃ i, is_first_max v i ∧ (tag, i) ∈ to_index)
            vectors tags.
Proof.
  unfold PytorchModel.devectorize. intros Hok%rmap_Ok.
  split; [symmetry; by eapply Forall2_length|].
  eapply Forall2_impl; [exact Hok|]. intros v tag Hone. simpl in Hone.
  destruct (decide (v = [])) as [->|Hv]; [done|].
  destruct (first_max_exists v Hv) as (m & j & _ & _ & Hj).
  rewrite (devectorize_one_first_max _ v j Hj) in Hone.
  exists j. split; [done|]. unfold dict_lookup in Hone.
  destruct (dict_get (invert to_index) j) as [t|] eqn:Hget; [|done].
  injection Hone as ->. unfold invert in Hget.
  by apply invert_from_get in Hget as [?|?].
Qed.

Lemma devectorize_tags_from_mapping_witness :
  Forall2 (λ v tag, ∃ i, is_first_max v i
                         ∧ (tag, i) ∈ [("O", 0); ("DRUG", 1); ("DOSE", 1)])
          [[1; 7; 7]%Z; [3; (-2)]%Z] ["DOSE"; "O"].
Proof.
  apply (devectorize_tags_from_mapping [[1; 7; 7]%Z; [3; (-2)]%Z]
           [("O", 0); ("DRUG", 1); ("DOSE", 1)] ["DOSE"; "O"]).
  by vm_compute.
Defined.

(** ** [PytorchModel.predict] *)

(** X11: [PytorchModel.predict] never returns, for any argument and from
    any state, and leaves the state as it was.  Past its two guards, with a
    model installed, a [Dataset] argument raises [UnboundLocalError]
    (the local [prediction_directory] is read before it is assigned) and a
    string raises [NameError] (the module binds no [nlp]). *)
Theorem predict_never_returns (dataset : pyobj) (st : state PytorchModel.t) :
  is_raise (PytorchModel.predict dataset st).1
  ∧ (PytorchModel.predict dataset st).2 = st
  ∧ (PytorchModel.model (self st) ≠ None →
     (PytorchModel.predict dataset st).1
     = Raise (match dataset with
              | PyDataset _ => UnboundLocalError
              | PyStr _ => NameError
              | _ => TypeError
              end)).
Proof.
  unfold PytorchModel.predict, mbind, M_bind.
  destruct dataset; simpl; destruct (PytorchModel.model (self st)); done.
Qed.

Lemma predict_never_returns_witness :
  (PytorchModel.predict (PyStr "Give Aspirin now")
     (PytorchModel.fit (PyDataset aligned_dataset) 1
        {| self := PytorchModel.init false; env := counting_world |}).2).1
  = Raise NameError.
Proof.
  apply (predict_never_returns (PyStr "Give Aspirin now")).
  by vm_compute.
Defined.

(** ** The single-pass trainer in closed form *)

Lemma foldl_after_step_params n es :
  params (foldl after_step n es)
  = foldl (λ w e, SGD LEARNING_RATE w [e]) (params n) es.
Proof. revert n. induction es as [|e es IH]; intros n; simpl; [done|]. by rewrite IH. Qed.

Lemma foldl_after_step_grad n es :
  grad (foldl after_step n es)
  = match last es with Some e => [e] | None => grad n end.
Proof.
  revert n. induction es as [|e es IH]; intros n; [done|].
  change (foldl after_step n (e :: es)) with (foldl after_step (after_step n e) es).
  rewrite IH. destruct es as [|e' es']; [done|].
  rewrite last_cons_cons. destruct (last (e' :: es')) eqn:E; [done|].
  by apply last_None in E.
Qed.

(** X12: what [BiLstmCrfLearner.fit] does when every (tokens, tags) pair of
    [zip(x_data, y_data)] has at least one token and as many tags as
    tokens: it returns, whatever state it starts from; it installs the
    mappings indexed from [x_data] and [y_data] and a network built for
    their sizes, updated once per pair in order, each update from the
    gradient of that pair alone; it logs the four calls of each step and
    draws nothing from the random generator. *)
Theorem fit_bilstm_spec x_data y_data (st : state BiLstmCrfLearner.t) :
  Forall trainable (zip x_data y_data) →
  let token_to_index := BiLstmCrfLearner.create_index_dictionary x_data in
  let tag_to_index := BiLstmCrfLearner.create_index_dictionary y_data in
  let es := examples_of token_to_index tag_to_index (zip x_data y_data) in
  let start :=
    fresh (BiLstmCrfNetwork (length token_to_index) (length tag_to_index)) in
  let r := BiLstmCrfLearner.fit x_data y_data st in
  r.1 = Ok ()
  ∧ (∃ final,
       self r.2
       = {| BiLstmCrfLearner.model := Some final;
            BiLstmCrfLearner.token_to_index := token_to_index;
            BiLstmCrfLearner.tag_to_index := tag_to_index |}
       ∧ params final
         = foldl (λ w e, SGD LEARNING_RATE w [e])
                 (BiLstmCrfNetwork (length token_to_index)
                                   (length tag_to_index)) es
       ∧ grad final = match last es with Some e => [e] | None => [] end)
  ∧ length es = length x_data `min` length y_data
  ∧ calls (env r.2) = calls (env st) ++ steps_calls start es
  ∧ rand (env r.2) = rand (env st)
  ∧ files (env r.2) = files (env st).
Proof.
  intros Hall token_to_index tag_to_index es start r. unfold r.
  rewrite fit_bilstm_exact by done.
  fold token_to_index tag_to_index es start. simpl.
  split_and!; try done.
  - eexists. split_and!; [done | |].
    + by rewrite foldl_after_step_params.
    + by rewrite foldl_after_step_grad.
  - unfold es, examples_of. by rewrite length_fmap, length_zip_with.
Qed.

Lemma fit_bilstm_spec_witness :
  Forall trainable (zip [["Give"; "Aspirin"]; ["now"]] [["O"; "DRUG"]; ["O"]])
  ∧ (BiLstmCrfLearner.fit [["Give"; "Aspirin"]; ["now"]]
                          [["O"; "DRUG"]; ["O"]]
       {| self := BiLstmCrfLearner.init; env := counting_world |}).1 = Ok ()
  ∧ calls (env (BiLstmCrfLearner.fit [["Give"; "Aspirin"]; ["now"]]
                                     [["O"; "DRUG"]; ["O"]]
                  {| self := BiLstmCrfLearner.init;
                     env := counting_world |}).2)
    = steps_calls (fresh (BiLstmCrfNetwork 3 2))
                  [([0; 1], [0; 1]); ([2], [0])].
Proof.
  assert (H : Forall trainable
    (zip [["Give"; "Aspirin"]; ["now"]] [["O"; "DRUG"]; ["O"]])).
  { repeat constructor; done. }
  split; [exact H|].
  destruct (fit_bilstm_spec [["Give"; "Aspirin"]; ["now"]]
              [["O"; "DRUG"]; ["O"]]
              {| self := BiLstmCrfLearner.init; env := counting_world |} H)
    as (H1 & _ & _ & H2 & _).
  split; [exact H1 | exact H2].
Defined.

(** X13: the guard of [BiLstmCrfLearner.predict] looks at the token
    mapping, not at the model.  After [fit] on data without a single token
    the token mapping is empty and [predict] raises [RuntimeError],
    whether [fit] returned or not: with no (tokens, tags) pair to train on,
    [fit] returns and installs a network; with one, it raises
    [RuntimeError] in the forward pass on no token and installs none. *)
Theorem predict_after_fit_without_tokens x_data y_data sequences
    (st : state BiLstmCrfLearner.t) :
  concat x_data = [] →
  let r := BiLstmCrfLearner.fit x_data y_data st in
  BiLstmCrfLearner.token_to_index (self r.2) = []
  ∧ (zip x_data y_data = [] →
     r.1 = Ok () ∧ BiLstmCrfLearner.model (self r.2) ≠ None)
  ∧ (zip x_data y_data ≠ [] →
     r.1 = Raise RuntimeError
     ∧ BiLstmCrfLearner.model (self r.2) = BiLstmCrfLearner.model (self st))
  ∧ BiLstmCrfLearner.predict sequences r.2 = (Raise RuntimeError, r.2).
Proof.
  intros Hx r.
  assert (BiLstmCrfLearner.create_index_dictionary x_data = []) as Hempty.
  { by rewrite create_index_dictionary_enumerate, Hx. }
  assert (Hcases :
    (zip x_data y_data = [] ∧ r.1 = Ok ()
     ∧ BiLstmCrfLearner.model (self r.2) ≠ None
     ∧ BiLstmCrfLearner.token_to_index (self r.2) = [])
    ∨ (zip x_data y_data ≠ [] ∧ r.1 = Raise RuntimeError
       ∧ BiLstmCrfLearner.model (self r.2) = BiLstmCrfLearner.model (self st)
       ∧ BiLstmCrfLearner.token_to_index (self r.2) = [])).
  { destruct (zip x_data y_data) as [|ex post] eqn:Hzip.
    - left. unfold r. rewrite fit_bilstm_exact by (by rewrite Hzip).
      by rewrite Hempty.
    - right. assert (Hno : ex.1 = []).
      { assert (ex ∈ zip x_data y_data) as Hin by (rewrite Hzip; left).
        destruct ex as [x y]. apply elem_of_zip_l in Hin. simpl.
        destruct x as [|item x]; [done|]. exfalso.
        assert (item ∈ concat x_data) as Hitem.
        { apply list_elem_of_In, in_concat. exists (item :: x).
          split; apply list_elem_of_In; [done | left]. }
        rewrite Hx in Hitem. by apply elem_of_nil in Hitem. }
      unfold r. rewrite (fit_bilstm_stops x_data y_data [] ex post st Hzip).
      + rewrite Hempty, decide_True by done. done.
      + constructor.
      + intros [Hne _]. done. }
  assert (Htok : BiLstmCrfLearner.token_to_index (self r.2) = [])
    by (destruct Hcases as [(_ & _ & _ & H)|(_ & _ & _ & H)]; exact H).
  split_and!.
  - done.
  - intros Hz. destruct Hcases as [(_ & H1 & H2 & _)|(Hne & _)]; done.
  - intros Hz. destruct Hcases as [(Hnil & _)|(_ & H1 & H2 & _)]; done.
  - unfold BiLstmCrfLearner.predict, mbind, M_bind. simpl. by rewrite Htok.
Qed.

Lemma predict_after_fit_without_tokens_witness :
  (BiLstmCrfLearner.fit [[]; []] [["O"]; []]
     {| self := BiLstmCrfLearner.init; env := counting_world |}).1
  = Raise RuntimeError
  ∧ BiLstmCrfLearner.predict [["Give"]]
      (BiLstmCrfLearner.fit [[]; []] [["O"]; []]
         {| self := BiLstmCrfLearner.init; env := counting_world |}).2
    = (Raise RuntimeError,
       (BiLstmCrfLearner.fit [[]; []] [["O"]; []]
          {| self := BiLstmCrfLearner.init; env := counting_world |}).2).
Proof.
  destruct (predict_after_fit_without_tokens [[]; []] [["O"]; []] [["Give"]]
              {| self := BiLstmCrfLearner.init; env := counting_world |}
              eq_refl) as (_ & _ & H1 & H2).
  split; [by apply H1 | exact H2].
Defined.

(** X18: [BiLstmCrfLearner.fit] validates nothing and stops at the first
    (tokens, tags) pair a training step cannot work on, after the steps on
    the pairs before it: with [RuntimeError] from the forward pass when the
    pair has no token, with [ValueError] from the loss function when it
    has tokens and another number of tags.  The failing step has reset the
    gradients and run forward, nothing more; both mappings are already
    replaced and the model attribute is as it was. *)
Theorem fit_bilstm_untrainable x_data y_data pre ex post
    (st : state BiLstmCrfLearner.t) :
  zip x_data y_data = pre ++ ex :: post →
  Forall trainable pre → ¬ trainable ex →
  let token_to_index := BiLstmCrfLearner.create_index_dictionary x_data in
  let tag_to_index := BiLstmCrfLearner.create_index_dictionary y_data in
  let es := examples_of token_to_index tag_to_index pre in
  let start :=
    fresh (BiLstmCrfNetwork (length token_to_index) (length tag_to_index)) in
  let r := BiLstmCrfLearner.fit x_data y_data st in
  r.1 = Raise (if decide (ex.1 = []) then RuntimeError else ValueError)
  ∧ self r.2
    = {| BiLstmCrfLearner.model := BiLstmCrfLearner.model (self st);
         BiLstmCrfLearner.token_to_index := token_to_index;
         BiLstmCrfLearner.tag_to_index := tag_to_index |}
  ∧ calls (env r.2)
    = calls (env st) ++ steps_calls start es
      ++ [(ZeroGrad, match last es with Some e => [e] | None => [] end);
          (Forward, [])]
  ∧ rand (env r.2) = rand (env st).
Proof.
  intros Hzip Hpre Hex token_to_index tag_to_index es start r. unfold r.
  rewrite (fit_bilstm_stops x_data y_data pre ex post st Hzip Hpre Hex).
  fold token_to_index tag_to_index es start. simpl.
  split_and!; [done | done | | done].
  by rewrite foldl_after_step_grad.
Qed.

Lemma fit_bilstm_untrainable_witness :
  (BiLstmCrfLearner.fit [["Give"; "Aspirin"]; ["now"; "please"]]
                        [["O"; "DRUG"]; ["O"]]
     {| self := BiLstmCrfLearner.init; env := counting_world |}).1
  = Raise ValueError
  ∧ fst <$> calls (env (BiLstmCrfLearner.fit
                          [["Give"; "Aspirin"]; ["now"; "please"]]
                          [["O"; "DRUG"]; ["O"]]
                          {| self := BiLstmCrfLearner.init;
                             env := counting_world |}).2)
    = [ZeroGrad; Forward; Backward ([0; 1], [0; 1]); Step; ZeroGrad; Forward].
Proof.
  destruct (fit_bilstm_untrainable [["Give"; "Aspirin"]; ["now"; "please"]]
              [["O"; "DRUG"]; ["O"]]
              [(["Give"; "Aspirin"], ["O"; "DRUG"])]
              (["now"; "please"], ["O"]) []
              {| self := BiLstmCrfLearner.init; env := counting_world |})
    as (H1 & _ & H2 & _).
  - done.
  - by repeat constructor.
  - intros [_ Hlen]. done.
  - split; [exact H1 | by rewrite H2].
Defined.

(** ** Prediction with the single-pass learner *)

Lemma devectorize_total (d : dict string nat) (vectors : list (list Z)) :
  index_mapping d → d ≠ [] →
  Forall (λ v, length v = length d) vectors →
  ∃ tags, PytorchModel.devectorize vectors d = Ok tags
    ∧ length tags = length vectors
    ∧ Forall (λ tag, tag ∈ d.*1) tags.
Proof.
  intros Hd Hne Hlen.
  destruct (PytorchModel.devectorize vectors d) as [tags|e] eqn:Hr.
  - exists tags. unfold PytorchModel.devectorize in Hr. apply rmap_Ok in Hr.
    split_and!; [done | symmetry; by eapply Forall2_length |].
    apply Forall_lookup. intros k tag Hk.
    destruct (Forall2_lookup_r _ _ _ _ _ Hr Hk) as (v & _ & Hone).
    apply devectorize_one_Ok in Hone as (i & _ & Hi); [|done].
    apply dict_get_Some in Hi; [|apply Hd].
    apply list_elem_of_fmap. by exists (tag, i).
  - exfalso. assert (Hex : is_raise (PytorchModel.devectorize vectors d))
      by (by rewrite Hr).
    unfold PytorchModel.devectorize in Hex.
    apply rmap_raise, Exists_exists in Hex as (v & Hv & Hbad).
    apply devectorize_one_raise in Hbad; [|done].
    rewrite Forall_forall in Hlen. specialize (Hlen v Hv).
    destruct Hbad as [->|(i & Hi%is_first_max_lt & Hle)].
    + destruct d; [done | simpl in Hlen; lia].
    + lia.
Qed.

Section predict_loop.
Context (st0 : state BiLstmCrfLearner.t) (m : network).
Context (Hmodel : BiLstmCrfLearner.model (self st0) = Some m).
Context (Htok : BiLstmCrfLearner.token_to_index (self st0) ≠ []).
Context (Hmtok : index_mapping (BiLstmCrfLearner.token_to_index (self st0))).
Context (Htag : index_mapping (BiLstmCrfLearner.tag_to_index (self st0))).
Context (Htags : BiLstmCrfLearner.tag_to_index (self st0) ≠ []).
Context (Hfits : fits m (length (BiLstmCrfLearner.token_to_index (self st0)))
                        (length (BiLstmCrfLearner.tag_to_index (self st0)))).

(** Up to the forward pass of one round of the loop. *)
Lemma predict_one_vectorized sequence (st : state BiLstmCrfLearner.t) :
  same_learner st0 st →
  ∃ indices st1,
    BiLstmCrfLearner.vectorize sequence
      (BiLstmCrfLearner.token_to_index (self st0)) st = (Ok indices, st1)
    ∧ length indices = length sequence
    ∧ Forall (λ i, i < embedding_rows (layers_of (params m))) indices
    ∧ same_learner st0 st1
    ∧ cursor (rand (env st1))
      = cursor (rand (env st))
        + oov_count (BiLstmCrfLearner.token_to_index (self st0)) sequence
    ∧ calls (env st1) = calls (env st).
Proof.
  intros (Hself & Hsc & Hfiles & Hdraws).
  destruct (vectorize_loop (BiLstmCrfLearner.token_to_index (self st0))
              sequence [] st Htok)
    as (indices & st1 & Hrun & Hall & H1 & H2 & H3 & H4 & H5 & H6).
  exists indices, st1. split_and!; try done.
  - symmetry. by eapply Forall2_length.
  - destruct Hfits as [-> _]. apply Forall_lookup. intros k i Hk.
    destruct (Forall2_lookup_r _ _ _ _ _ Hall Hk) as (item & _ & Hi).
    destruct (dict_contains _ item); [|done].
    by eapply index_mapping_get_lt.
  - split_and!; congruence.
Qed.

Lemma predict_one_ok predictions sequence (st : state BiLstmCrfLearner.t) :
  same_learner st0 st → sequence ≠ [] →
  ∃ tags st',
    BiLstmCrfLearner.predict_one predictions sequence st
    = (Ok (predictions ++ [tags]), st')
    ∧ length tags = length sequence
    ∧ Forall (λ tag, tag ∈ (BiLstmCrfLearner.tag_to_index (self st0)).*1) tags
    ∧ same_learner st0 st'
    ∧ cursor (rand (env st'))
      = cursor (rand (env st))
        + oov_count (BiLstmCrfLearner.token_to_index (self st0)) sequence
    ∧ calls (env st') = calls (env st) ++ [(ForwardNoGrad, grad m)].
Proof.
  intros Hsame Hne.
  destruct (predict_one_vectorized sequence st Hsame)
    as (indices & st1 & Hrun & Hlen & Hin & Hsame1 & Hcur & Hcalls).
  pose proof Hsame as (Hself & _). pose proof Hsame1 as (Hself1 & Hsc1 & _).
  unfold BiLstmCrfLearner.predict_one, mbind, M_bind. simpl.
  rewrite Hself, Hrun. simpl. rewrite Hself1, Hmodel.
  unfold call_model_no_grad, perform, mbind, M_bind, lift. simpl.
  destruct Hfits as [_ Hfeat].
  rewrite (forward_Ok _ _ _ _ Hfeat); [|by destruct sequence, indices|done].
  destruct (score_matrix_shape (scores (env st1)) (params m) indices
              (length (BiLstmCrfLearner.tag_to_index (self st0))))
    as [Hl Hvec].
  destruct (devectorize_total _ _ Htag Htags Hvec) as (tags & Hdev & Hlt & Hint).
  unfold PytorchModel.devectorize in Hdev. simpl. rewrite Hself1, Hdev. simpl.
  exists tags. eexists. split_and!; [done | | done | | |].
  - by rewrite Hlt, Hl.
  - destruct Hsame1 as (? & ? & ? & ?). split_and!; simpl; congruence.
  - simpl. lia.
  - simpl. by rewrite Hcalls.
Qed.

(** A sequence without a token stops the loop in the forward pass. *)
Lemma predict_one_stops predictions (st : state BiLstmCrfLearner.t) :
  same_learner st0 st →
  BiLstmCrfLearner.predict_one predictions [] st
  = (Raise RuntimeError, with_calls st [(ForwardNoGrad, grad m)]).
Proof.
  intros (Hself & _).
  unfold BiLstmCrfLearner.predict_one, mbind, M_bind. simpl.
  rewrite Hself, Hmodel. done.
Qed.

Lemma predict_loop_ok sequences predictions (st : state BiLstmCrfLearner.t) :
  same_learner st0 st → Forall (λ sequence, sequence ≠ []) sequences →
  ∃ out st',
    for_each BiLstmCrfLearner.predict_one predictions sequences st
    = (Ok (predictions ++ out), st')
    ∧ Forall2 (λ sequence tags,
         length tags = length sequence
         ∧ Forall (λ tag,
             tag ∈ (BiLstmCrfLearner.tag_to_index (self st0)).*1) tags)
       sequences out
    ∧ same_learner st0 st'
    ∧ cursor (rand (env st'))
      = cursor (rand (env st))
        + oov_count (BiLstmCrfLearner.token_to_index (self st0))
                    (concat sequences)
    ∧ calls (env st')
      = calls (env st) ++ replicate (length sequences) (ForwardNoGrad, grad m).
Proof.
  revert predictions st.
  induction sequences as [|sequence l IH]; intros predictions st Hsame Hne.
  - exists [], st. simpl. rewrite !app_nil_r. unfold oov_count. simpl.
    split_and!; [done | constructor | done | lia | done].
  - apply Forall_cons in Hne as [Hne Hnel]. simpl. unfold mbind, M_bind.
    destruct (predict_one_ok predictions sequence st Hsame Hne)
      as (tags & st1 & Hone & Hlen & Hin & Hsame1 & Hcur & Hcalls).
    rewrite Hone.
    destruct (IH (predictions ++ [tags]) st1 Hsame1 Hnel)
      as (out & st' & Hrun & Hall & Hsame' & Hcur' & Hcalls').
    exists (tags :: out), st'. rewrite Hrun, <- app_assoc.
    split_and!; [done | by constructor | done | |].
    + rewrite Hcur', Hcur. unfold oov_count.
      rewrite List.filter_app, length_app. lia.
    + rewrite Hcalls', Hcalls, <- app_assoc. done.
Qed.
End predict_loop.

Lemma create_index_dictionary_nonempty sequences :
  concat sequences ≠ [] →
  BiLstmCrfLearner.create_index_dictionary sequences ≠ [].
Proof.
  intros Hne Hempty. destruct (concat sequences) as [|x l] eqn:Hc; [done|].
  assert (x ∈ (BiLstmCrfLearner.create_index_dictionary sequences).*1) as Hx.
  { rewrite create_index_dictionary_enumerate, enumerate_keys, Hc.
    apply first_seen_elem_of. left. }
  rewrite Hempty in Hx. by apply elem_of_nil in Hx.
Qed.

(** What [fit] leaves for [predict], when it returns. *)
Lemma fitted_learner x_data y_data (st : state BiLstmCrfLearner.t) :
  Forall trainable (zip x_data y_data) →
  concat x_data ≠ [] → concat y_data ≠ [] →
  let fitted := (BiLstmCrfLearner.fit x_data y_data st).2 in
  ∃ m,
    BiLstmCrfLearner.model (self fitted) = Some m
    ∧ BiLstmCrfLearner.token_to_index (self fitted)
      = BiLstmCrfLearner.create_index_dictionary x_data
    ∧ BiLstmCrfLearner.tag_to_index (self fitted)
      = BiLstmCrfLearner.create_index_dictionary y_data
    ∧ fits m (length (BiLstmCrfLearner.create_index_dictionary x_data))
             (length (BiLstmCrfLearner.create_index_dictionary y_data))
    ∧ cursor (rand (env fitted)) = cursor (rand (env st)).
Proof.
  intros Hall Hx Hy fitted. unfold fitted.
  rewrite fit_bilstm_exact by done. cbv zeta. simpl.
  eexists. split_and!; [done | done | done | | done].
  by apply fits_foldl.
Qed.

(** X14: after [fit] on pairs it can train on, with at least one token and
    one tag among them, [predict] returns for any sequences of at least one
    token each, known tokens or not: one list of tags per sequence, one tag
    per token, every tag one of the training tags.  It makes one forward
    pass without gradients per sequence and no other call, leaves the
    learner as [fit] left it, and advances the random generator by one
    draw per token that was not in the training data. *)
Theorem predict_after_fit x_data y_data sequences
    (st : state BiLstmCrfLearner.t) :
  Forall trainable (zip x_data y_data) →
  concat x_data ≠ [] → concat y_data ≠ [] →
  Forall (λ sequence, sequence ≠ []) sequences →
  let fitted := (BiLstmCrfLearner.fit x_data y_data st).2 in
  ∃ predictions st' g,
    BiLstmCrfLearner.predict sequences fitted = (Ok predictions, st')
    ∧ Forall2 (λ sequence tags,
         length tags = length sequence
         ∧ Forall (λ tag, tag ∈ concat y_data) tags) sequences predictions
    ∧ self st' = self fitted
    ∧ calls (env st')
      = calls (env fitted) ++ replicate (length sequences) (ForwardNoGrad, g)
    ∧ cursor (rand (env st'))
      = cursor (rand (env st))
        + oov_count (BiLstmCrfLearner.create_index_dictionary x_data)
                    (concat sequences).
Proof.
  intros Htrain Hx Hy Hseq fitted.
  destruct (fitted_learner x_data y_data st Htrain Hx Hy)
    as (m & Hm & Htok & Htg & Hfits & Hcur0).
  fold fitted in Hm, Htok, Htg, Hcur0.
  destruct (predict_loop_ok fitted m) with (sequences := sequences)
    (predictions := @nil (list string)) (st := fitted)
    as (out & st' & Hrun & Hall & Hsame & Hcur & Hcalls); try done.
  - rewrite Htok. by apply create_index_dictionary_nonempty.
  - rewrite Htok. apply create_index_dictionary_index_mapping.
  - rewrite Htg. apply create_index_dictionary_index_mapping.
  - rewrite Htg. by apply create_index_dictionary_nonempty.
  - by rewrite Htok, Htg.
  - exists out, st', (grad m).
    unfold BiLstmCrfLearner.predict, mbind, M_bind. simpl.
    rewrite decide_False.
    2:{ rewrite Htok.
        pose proof (create_index_dictionary_nonempty x_data Hx) as Hne.
        by destruct (BiLstmCrfLearner.create_index_dictionary x_data). }
    simpl in Hrun. rewrite Htok in Hcur.
    split_and!; [done | | apply Hsame | done | by rewrite Hcur, Hcur0].
    eapply Forall2_impl; [exact Hall|]. intros sequence tags [Hlen Hin].
    split; [done|]. eapply Forall_impl; [exact Hin|]. intros tag Htag.
    simpl in Htag. rewrite Htg in Htag.
    rewrite create_index_dictionary_enumerate, enumerate_keys in Htag.
    by apply (proj1 (first_seen_elem_of _ _)) in Htag.
Qed.

Lemma predict_after_fit_witness :
  ∃ predictions st' g,
    BiLstmCrfLearner.predict [["Give"; "Ibuprofen"]; ["now"]]
      (BiLstmCrfLearner.fit [["Give"; "Aspirin"; "now"]] [["O"; "DRUG"; "O"]]
         {| self := BiLstmCrfLearner.init; env := uniform_world |}).2
    = (Ok predictions, st')
    ∧ Forall2 (λ sequence tags,
         length tags = length sequence
         ∧ Forall (λ tag, tag ∈ concat [["O"; "DRUG"; "O"]]) tags)
       [["Give"; "Ibuprofen"]; ["now"]] predictions
    ∧ calls (env st')
      = calls (env (BiLstmCrfLearner.fit [["Give"; "Aspirin"; "now"]]
                      [["O"; "DRUG"; "O"]]
                      {| self := BiLstmCrfLearner.init;
                         env := uniform_world |}).2)
        ++ replicate 2 (ForwardNoGrad, g).
Proof.
  pose proof (predict_after_fit [["Give"; "Aspirin"; "now"]]
                [["O"; "DRUG"; "O"]] [["Give"; "Ibuprofen"]; ["now"]]
                {| self := BiLstmCrfLearner.init; env := uniform_world |}) as H.
  cbv zeta in H.
  destruct H as (predictions & st' & g & H1 & H2 & H3 & H4 & H5).
  - by repeat constructor.
  - done.
  - done.
  - by repeat constructor.
  - by exists predictions, st', g.
Defined.

(** X19: a sequence without a token makes [predict] raise [RuntimeError]
    in the forward pass on it, after a forward pass on each sequence before
    it, whatever follows; the predictions made so far are lost and the
    learner is as [fit] left it. *)
Theorem predict_stops_at_empty_sequence x_data y_data pre post
    (st : state BiLstmCrfLearner.t) :
  Forall trainable (zip x_data y_data) →
  concat x_data ≠ [] → concat y_data ≠ [] →
  Forall (λ sequence, sequence ≠ []) pre →
  let fitted := (BiLstmCrfLearner.fit x_data y_data st).2 in
  ∃ st' g,
    BiLstmCrfLearner.predict (pre ++ [] :: post) fitted
    = (Raise RuntimeError, st')
    ∧ self st' = self fitted
    ∧ calls (env st')
      = calls (env fitted) ++ replicate (S (length pre)) (ForwardNoGrad, g).
Proof.
  intros Htrain Hx Hy Hseq fitted.
  destruct (fitted_learner x_data y_data st Htrain Hx Hy)
    as (m & Hm & Htok & Htg & Hfits & Hcur0).
  fold fitted in Hm, Htok, Htg, Hcur0.
  pose proof (create_index_dictionary_nonempty x_data Hx) as Hne.
  destruct (predict_loop_ok fitted m) with (sequences := pre)
    (predictions := @nil (list string)) (st := fitted)
    as (out & st1 & Hrun & _ & Hsame & _ & Hcalls); try done.
  - by rewrite Htok.
  - rewrite Htok. apply create_index_dictionary_index_mapping.
  - rewrite Htg. apply create_index_dictionary_index_mapping.
  - rewrite Htg. by apply create_index_dictionary_nonempty.
  - by rewrite Htok, Htg.
  - exists (with_calls st1 [(ForwardNoGrad, grad m)]), (grad m).
    unfold BiLstmCrfLearner.predict, mbind, M_bind. simpl.
    rewrite decide_False.
    2:{ rewrite Htok.
        by destruct (BiLstmCrfLearner.create_index_dictionary x_data). }
    rewrite for_each_app, Hrun. simpl. unfold mbind, M_bind.
    rewrite (predict_one_stops fitted m Hm _ st1 Hsame).
    split_and!; [done | apply Hsame |].
    simpl. rewrite Hcalls, <- app_assoc. f_equal.
    change [(ForwardNoGrad, grad m)] with (replicate 1 (ForwardNoGrad, grad m)).
    rewrite <- replicate_add, Nat.add_1_r. done.
Qed.

Lemma predict_stops_at_empty_sequence_witness :
  (BiLstmCrfLearner.predict [["Give"; "Ibuprofen"]; []; ["now"]]
     (BiLstmCrfLearner.fit [["Give"; "Aspirin"; "now"]] [["O"; "DRUG"; "O"]]
        {| self := BiLstmCrfLearner.init; env := uniform_world |}).2).1
  = Raise RuntimeError.
Proof.
  destruct (predict_stops_at_empty_sequence [["Give"; "Aspirin"; "now"]]
              [["O"; "DRUG"; "O"]] [["Give"; "Ibuprofen"]] [["now"]]
              {| self := BiLstmCrfLearner.init; env := uniform_world |})
    as (st' & g & H & _).
  - by repeat constructor.
  - done.
  - done.
  - by repeat constructor.
  - simpl app in H. by rewrite H.
Defined.

(** ** What [get_training_data] installs and returns *)

Lemma segment_elem_of {A} (source seg : list A) :
  seg ∈ PytorchModel.get_segments source →
  0 < length seg ≤ 100 ∧ seg ⊆ source.
Proof.
  intros [i Hi]%list_elem_of_lookup.
  assert (0 < SEGMENT_SIZE) as HW by (unfold SEGMENT_SIZE; lia).
  destruct (windows_spec SEGMENT_SIZE HW source) as (_ & _ & Hseg & _ & Hlen).
  split; [by apply (Hlen i)|].
  rewrite (Hseg i seg Hi). etrans; [apply subseteq_take | apply subseteq_drop].
Qed.

Lemma segment_pairs_elem_of training_data p :
  p ∈ segment_pairs training_data →
  ∃ dt, dt ∈ training_data
    ∧ p.1 ∈ PytorchModel.get_segments dt.1
    ∧ p.2 ∈ PytorchModel.get_segments dt.2.
Proof.
  unfold segment_pairs. intros Hp%list_elem_of_In%in_concat.
  destruct Hp as (ps & Hps%list_elem_of_In & Hp%list_elem_of_In).
  apply list_elem_of_fmap in Hps as (dt & -> & Hdt).
  exists dt. destruct p as [s g]. split; [done|]. simpl.
  split; [by eapply elem_of_zip_l | by eapply elem_of_zip_r].
Qed.

Lemma segment_pairs_in_vocabulary training_data :
  Forall (λ p, p.1 ≠ [] ∧ length p.1 ≤ 100
               ∧ Forall (λ word,
                   dict_contains (PytorchModel.index_words training_data) word
                   = true) p.1)
         (segment_pairs training_data).
Proof.
  apply Forall_forall. intros p Hp.
  apply segment_pairs_elem_of in Hp as (dt & Hdt & Hs & _).
  apply segment_elem_of in Hs as [Hlen Hsub].
  split_and!; [intros Hnil; rewrite Hnil in Hlen; simpl in Hlen; lia | lia |].
  rewrite index_words_create.
  assert (dt.1 ∈ training_data.*1) as Hin
    by (apply list_elem_of_fmap; by exists dt).
  pose proof (in_vocabulary _ _ Hin) as Hall. rewrite Forall_forall in Hall.
  apply Forall_forall. intros word Hword. by apply Hall, Hsub.
Qed.

(** X15: when [get_training_data] returns, it returns the segments of
    every document paired by position with the segments of its tags, and
    it has replaced the labels and both mappings of the instance, leaving
    the model, the flag and the environment alone.  Then ['O'] is a tag of
    the tag mapping, and every returned token segment is non-empty, has at
    most 100 tokens and consists of words of the word mapping, so
    vectorizing it cannot raise. *)
Theorem get_training_data_installs (ds : Dataset) (st : state PytorchModel.t)
    (data : list (list string * list string)) :
  (PytorchModel.get_training_data ds st).1 = Ok data →
  PytorchModel.get_training_data ds st
  = (Ok (segment_pairs (ds_training_data ds)),
     {| self := installed (env st) ds (self st); env := env st |})
  ∧ dict_contains
      (PytorchModel.tag_to_index (installed (env st) ds (self st))) "O"
    = true
  ∧ Forall (λ p, p.1 ≠ [] ∧ length p.1 ≤ 100
                 ∧ ∃ indices,
                     PytorchModel.vectorize p.1
                       (PytorchModel.word_to_index
                          (installed (env st) ds (self st)))
                     = Ok indices) data.
Proof.
  intros Hok.
  destruct (get_training_data_cases ds st) as [[_ Hrun]|[_ Hrun]];
    rewrite Hrun in Hok; [|done].
  injection Hok as <-. split_and!; [done | |].
  - apply index_labels_contains, set_add_elem_of.
  - eapply Forall_impl; [apply segment_pairs_in_vocabulary|].
    intros p (Hne & Hlen & Hall). split_and!; [done..|].
    eexists. by apply vectorize_strict_in_vocabulary.
Qed.

Lemma get_training_data_installs_witness :
  PytorchModel.get_training_data aligned_dataset
    {| self := PytorchModel.init true; env := counting_world |}
  = (Ok (segment_pairs (ds_training_data aligned_dataset)),
     {| self := installed counting_world aligned_dataset
                  (PytorchModel.init true);
        env := counting_world |}).
Proof.
  apply (get_training_data_installs aligned_dataset
           {| self := PytorchModel.init true; env := counting_world |}
           [(["Give"; "Aspirin"; "now"], ["O"; "DRUG"; "O"])]).
  by vm_compute.
Defined.

(** ** The full trainer *)

Lemma training_step_pytorch_unlabelled word_to_index tag_to_index acc ex
    indices (st : state PytorchModel.t) :
  PytorchModel.vectorize ex.1 word_to_index = Ok indices →
  PytorchModel.vectorize ex.2 tag_to_index = Raise KeyError →
  PytorchModel.training_step word_to_index tag_to_index acc ex st
  = (Raise KeyError, with_calls st [(ZeroGrad, grad acc.1)]).
Proof.
  intros Hword Htag.
  unfold PytorchModel.training_step, zero_grad, perform, mbind, M_bind, lift.
  simpl. by rewrite Hword, Htag.
Qed.

(** X16: a tag of the training data that is neither one of the dataset's
    labels nor ['O'] makes [PytorchModel.fit] raise [KeyError] in the
    training step that meets it; for a tag in the first segment pair this
    is the first step of the first epoch, after its [zero_grad]: the labels
    and mappings are already replaced and no model is installed. *)
Theorem fit_unlabelled_tag (ds : Dataset) (epochs : nat)
    (st : state PytorchModel.t) p rest (tag : string) :
  (PytorchModel.get_training_data ds st).1 = Ok (p :: rest) →
  tag ∈ p.2 →
  tag ∉ set_add "O" (get_labels ds) →
  PytorchModel.fit (PyDataset ds) (S epochs) st
  = (Raise KeyError,
     with_calls {| self := installed (env st) ds (self st); env := env st |}
                [(ZeroGrad, [])]).
Proof.
  intros Hok Htag Hnew.
  destruct (get_training_data_cases ds st) as [[_ Hrun]|[_ Hrun]];
    rewrite Hrun in Hok; [|done].
  injection Hok as Hdata.
  pose proof (segment_pairs_in_vocabulary (ds_training_data ds)) as Hvoc.
  rewrite Hdata in Hvoc. apply Forall_cons in Hvoc as [(_ & _ & Hwords) _].
  unfold PytorchModel.fit, mbind, M_bind. rewrite Hrun, Hdata.
  change (seq 0 (S epochs)) with (0 :: seq 1 epochs).
  unfold get_self. simpl.
  unfold mbind, M_bind, PytorchModel.run_epoch at 1. simpl.
  unfold mbind, M_bind.
  erewrite training_step_pytorch_unlabelled; [done | |].
  - by apply vectorize_strict_in_vocabulary.
  - apply vectorize_strict_missing, Exists_exists. exists tag. split; [done|].
    destruct (dict_contains _ tag) eqn:Hc; [|done].
    by apply index_labels_contains in Hc.
Qed.

Lemma fit_unlabelled_tag_witness :
  PytorchModel.fit (PyDataset unlabelled_dataset) 1
    {| self := PytorchModel.init false; env := counting_world |}
  = (Raise KeyError,
     with_calls
       {| self := installed counting_world unlabelled_dataset
                    (PytorchModel.init false);
          env := counting_world |}
       [(ZeroGrad, [])]).
Proof.
  apply (fit_unlabelled_tag unlabelled_dataset 0
           {| self := PytorchModel.init false; env := counting_world |}
           (["Give"; "5mg"], ["O"; "DOSE"]) [] "DOSE").
  - by vm_compute.
  - apply (bool_decide_unpack _). by vm_compute.
  - apply (bool_decide_unpack _). by vm_compute.
Defined.

Lemma steps_calls_app n es1 es2 :
  steps_calls n (es1 ++ es2)
  = steps_calls n es1 ++ steps_calls (foldl after_step n es1) es2.
Proof.
  revert n. induction es1 as [|e es1 IH]; intros n; [done|].
  simpl. by rewrite IH.
Qed.

Section full_trainer.
Context (word_to_index tag_to_index : dict string nat).
Context (Hwords : index_mapping word_to_index).
Context (Htags : index_mapping tag_to_index).

Lemma training_step_pytorch_exact acc ex (st : state PytorchModel.t) :
  fits acc.1 (length word_to_index) (length tag_to_index) →
  usable_with word_to_index tag_to_index ex →
  let e := (indices_of word_to_index ex.1, indices_of tag_to_index ex.2) in
  ∃ l,
    PytorchModel.training_step word_to_index tag_to_index acc ex st
    = (Ok (after_step acc.1 e, acc.2 ++ [l]),
       with_calls st (step_calls acc.1 e)).
Proof.
  intros Hfits (Hex & Hword & Htag) e.
  destruct (forward_then_loss (scores (env st)) acc.1 _ _ ex Hwords Htags
              Hfits Hex Hword Htag) as (v & Hv & Hloss).
  exists (v, e.2).
  unfold PytorchModel.training_step, zero_grad, call_model, backward, step,
    perform, mbind, M_bind, lift.
  simpl. rewrite (vectorize_strict_in_vocabulary _ _ Hword).
  rewrite (vectorize_strict_in_vocabulary _ _ Htag). simpl.
  unfold indices_of in Hv, Hloss. rewrite Hv. simpl. rewrite Hloss. simpl.
  unfold with_calls, step_calls, after_step. simpl.
  by rewrite <- !app_assoc.
Qed.

Lemma training_loop_pytorch data acc (st : state PytorchModel.t) :
  fits acc.1 (length word_to_index) (length tag_to_index) →
  Forall (usable_with word_to_index tag_to_index) data →
  let es := examples_of word_to_index tag_to_index data in
  ∃ losses,
    for_each (PytorchModel.training_step word_to_index tag_to_index)
             acc data st
    = (Ok (foldl after_step acc.1 es, acc.2 ++ losses),
       with_calls st (steps_calls acc.1 es))
    ∧ length losses = length data.
Proof.
  revert acc st. induction data as [|ex data IH]; intros acc st Hfits Hall es.
  - exists []. simpl. rewrite with_calls_nil, app_nil_r. by destruct acc.
  - apply Forall_cons in Hall as [Hex Hall]. simpl.
    unfold mbind, M_bind.
    destruct (training_step_pytorch_exact acc ex st Hfits Hex) as [l Hstep].
    cbv zeta in Hstep. rewrite Hstep.
    set (e := (indices_of word_to_index ex.1, indices_of tag_to_index ex.2)).
    set (acc' := (after_step acc.1 e, acc.2 ++ [l])).
    destruct (IH acc' (with_calls st (step_calls acc.1 e))
                (fits_after_step _ _ _ _ Hfits) Hall)
      as (losses & Hrun & Hlen).
    rewrite Hrun. exists (l :: losses). split.
    + unfold acc'. simpl. by rewrite with_calls_app, <- app_assoc.
    + simpl. by rewrite Hlen.
Qed.

Lemma run_epoch_exact data model epoch (st : state PytorchModel.t) :
  fits model (length word_to_index) (length tag_to_index) →
  data ≠ [] → Forall (usable_with word_to_index tag_to_index) data →
  let es := examples_of word_to_index tag_to_index data in
  PytorchModel.run_epoch word_to_index tag_to_index data model epoch st
  = (Ok (foldl after_step model es), with_calls st (steps_calls model es)).
Proof.
  intros Hfits Hne Hall es. unfold PytorchModel.run_epoch, mbind, M_bind.
  destruct (training_loop_pytorch data (model, []) st Hfits Hall)
    as (losses & Hrun & Hlen).
  rewrite Hrun. simpl. unfold PytorchModel.average.
  rewrite decide_False; [done|]. rewrite Hlen. by destruct data.
Qed.

Lemma epochs_exact data (k j : nat) model (st : state PytorchModel.t) :
  fits model (length word_to_index) (length tag_to_index) →
  data ≠ [] → Forall (usable_with word_to_index tag_to_index) data →
  let all :=
    concat (replicate k (examples_of word_to_index tag_to_index data)) in
  for_each (PytorchModel.run_epoch word_to_index tag_to_index data)
           model (seq j k) st
  = (Ok (foldl after_step model all), with_calls st (steps_calls model all)).
Proof.
  intros Hfits Hne Hall. revert j model st Hfits.
  induction k as [|k IH]; intros j model st Hfits; cbv zeta.
  - simpl. by rewrite with_calls_nil.
  - simpl. unfold mbind, M_bind.
    rewrite (run_epoch_exact data model j st Hfits Hne Hall). cbv zeta.
    rewrite IH by (by apply fits_foldl). cbv zeta.
    by rewrite with_calls_app, foldl_app, steps_calls_app.
Qed.

(** A forward pass by a network whose layers do not fit. *)
Lemma training_step_pytorch_misfit acc ex (st : state PytorchModel.t) :
  embedding_rows (layers_of (params acc.1)) = length word_to_index →
  forward_features (params acc.1) = None →
  usable_with word_to_index tag_to_index ex →
  PytorchModel.training_step word_to_index tag_to_index acc ex st
  = (Raise RuntimeError,
     with_calls st [(ZeroGrad, grad acc.1); (Forward, [])]).
Proof.
  intros Hrows Hfeat (Hex & Hword & Htag).
  unfold PytorchModel.training_step, zero_grad, call_model, backward, step,
    perform, mbind, M_bind, lift.
  simpl. rewrite (vectorize_strict_in_vocabulary _ _ Hword).
  rewrite (vectorize_strict_in_vocabulary _ _ Htag). simpl.
  rewrite forward_misfit; [|done|].
  - unfold with_calls. simpl. by rewrite <- !app_assoc.
  - rewrite Hrows. by apply indices_of_lt.
Qed.
End full_trainer.

Lemma sentence_scores_ok labels n devectorized correct :
  n ≤ length devectorized → n ≤ length correct →
  ∃ f1_scores,
    PytorchModel.sentence_scores labels n devectorized correct = Ok f1_scores
    ∧ length f1_scores = length labels.
Proof.
  intros Hd Hc. unfold PytorchModel.sentence_scores.
  assert (Hinner : ∀ label : string, ∃ row,
    rmap (λ i, match devectorized !! i, correct !! i with
               | Some prediction, Some correct_tag =>
                   Ok (bool_decide (correct_tag = label),
                       bool_decide (prediction = label))
               | _, _ => Raise IndexError
               end) (seq 0 n) = Ok row).
  { intros label.
    destruct (rmap _ (seq 0 n)) as [row|e] eqn:Hr; [by exists row|].
    exfalso. assert (Hex : is_raise (@Raise (list (bool * bool)) e)) by done.
    rewrite <- Hr in Hex. apply rmap_raise, Exists_exists in Hex as (i & Hi & Hbad).
    apply elem_of_seq in Hi.
    destruct (lookup_lt_is_Some_2 devectorized i ltac:(lia)) as [p Hp].
    destruct (lookup_lt_is_Some_2 correct i ltac:(lia)) as [c Hc'].
    by rewrite Hp, Hc' in Hbad. }
  induction labels as [|label labels IH]; simpl.
  - by exists [].
  - destruct (Hinner label) as [row Hrow]. rewrite Hrow. simpl.
    destruct IH as (rows & Hrows & Hlen). rewrite Hrows. simpl.
    exists (row :: rows). split; [done | simpl; by rewrite Hlen].
Qed.

Lemma segment_pairs_aligned training_data (labels : list string) :
  Forall (λ dt, length dt.1 = length dt.2) training_data →
  Forall (λ dt, Forall (λ tag, tag ∈ labels) dt.2) training_data →
  Forall (λ p, length p.1 = length p.2 ∧ Forall (λ tag, tag ∈ labels) p.2)
         (segment_pairs training_data).
Proof.
  intros Hal Hlab. unfold segment_pairs. apply Forall_concat, Forall_fmap.
  rewrite Forall_forall in Hal, Hlab. apply Forall_forall. intros dt Hdt. simpl.
  destruct (zip_segments_aligned dt.1 dt.2 (Hal dt Hdt)) as [_ Hz].
  apply Forall_forall. intros [s g] Hp. split.
  - rewrite Forall_forall in Hz. by apply (Hz (s, g)).
  - simpl. apply elem_of_zip_r, segment_elem_of in Hp as [_ Hsub].
    specialize (Hlab dt Hdt). rewrite Forall_forall in Hlab.
    apply Forall_forall. intros tag Htag. by apply Hlab, Hsub.
Qed.

Lemma segment_pairs_nonempty training_data :
  Forall (λ dt, length dt.1 = length dt.2) training_data →
  Exists (λ dt, dt.1 ≠ []) training_data →
  segment_pairs training_data ≠ [].
Proof.
  intros Hal Hex. apply Exists_exists in Hex as (dt & Hdt & Hne).
  rewrite Forall_forall in Hal. specialize (Hal dt Hdt).
  assert (0 < SEGMENT_SIZE) as HW by (unfold SEGMENT_SIZE; lia).
  assert (dt.2 ≠ []) as Hne2 by (destruct dt.1, dt.2; done).
  pose proof (windows_unfold SEGMENT_SIZE HW dt.1 Hne) as H1.
  pose proof (windows_unfold SEGMENT_SIZE HW dt.2 Hne2) as H2.
  fold (PytorchModel.get_segments dt.1) in H1.
  fold (PytorchModel.get_segments dt.2) in H2.
  assert ((take SEGMENT_SIZE dt.1, take SEGMENT_SIZE dt.2)
          ∈ segment_pairs training_data) as Hin.
  { unfold segment_pairs. apply list_elem_of_In, in_concat.
    exists (zip (PytorchModel.get_segments dt.1)
                (PytorchModel.get_segments dt.2)).
    split; apply list_elem_of_In.
    - apply list_elem_of_fmap. by exists dt.
    - rewrite H1, H2. left. }
  intros Hnil. rewrite Hnil in Hin. by apply elem_of_nil in Hin.
Qed.

(** What [fit] starts from on a dataset whose documents have as many tags
    as tokens, at least one token, and only tags among the labels and
    ['O']: [get_training_data] has returned segment pairs a training step
    can work on, the first of them included. *)
Lemma fit_pytorch_start (ds : Dataset) (st : state PytorchModel.t) :
  Forall (λ dt, length dt.1 = length dt.2) (ds_training_data ds) →
  Exists (λ dt, dt.1 ≠ []) (ds_training_data ds) →
  Forall (λ dt, Forall (λ tag, tag ∈ set_add "O" (get_labels ds)) dt.2)
         (ds_training_data ds) →
  let s1 := installed (env st) ds (self st) in
  PytorchModel.get_training_data ds st
  = (Ok (segment_pairs (ds_training_data ds)), {| self := s1; env := env st |})
  ∧ index_mapping (PytorchModel.word_to_index s1)
  ∧ index_mapping (PytorchModel.tag_to_index s1)
  ∧ PytorchModel.tag_to_index s1 ≠ []
  ∧ PytorchModel.labels s1 ≠ []
  ∧ Forall (λ ex,
        trainable ex
        ∧ Forall (λ item,
            dict_contains (PytorchModel.word_to_index s1) item = true) ex.1
        ∧ Forall (λ item,
            dict_contains (PytorchModel.tag_to_index s1) item = true) ex.2)
      (segment_pairs (ds_training_data ds))
  ∧ ∃ p rest, segment_pairs (ds_training_data ds) = p :: rest.
Proof.
  intros Hal Hex Hlab s1.
  set (td := ds_training_data ds) in *.
  pose proof (segment_pairs_nonempty td Hal Hex) as Hne.
  pose proof (segment_pairs_aligned td _ Hal Hlab) as Hpairs.
  pose proof (segment_pairs_in_vocabulary td) as Hvoc.
  assert (HO : dict_contains (PytorchModel.tag_to_index s1) "O" = true)
    by apply index_labels_contains, set_add_elem_of.
  split_and!.
  - destruct (get_training_data_cases ds st) as [[_ Hrun]|[Hshort _]]; [done|].
    exfalso. apply Exists_exists in Hshort as (dt & Hdt & Hlt).
    rewrite Forall_forall in Hal.
    destruct (zip_segments_aligned dt.1 dt.2 (Hal dt Hdt)) as [Heq _]. lia.
  - simpl. rewrite index_words_create.
    apply create_index_dictionary_index_mapping.
  - apply index_labels_index_mapping.
  - intros Hnil. by rewrite Hnil in HO.
  - simpl. intros Hnil.
    pose proof (set_add_elem_of "O" (get_labels ds)) as Hin.
    rewrite <- (labels_of_Permutation (env st) ds), Hnil in Hin.
    by apply elem_of_nil in Hin.
  - apply Forall_forall. intros p Hp. rewrite Forall_forall in Hpairs, Hvoc.
    destruct (Hpairs p Hp) as [Hlen Htags].
    destruct (Hvoc p Hp) as (Hne1 & _ & Hw).
    split_and!; [done | done |]. eapply Forall_impl; [exact Htags|].
    intros tag Htag. by apply index_labels_contains.
  - destruct (segment_pairs td) as [|p rest]; [done|]. by exists p, rest.
Qed.

(** X17: what [PytorchModel.fit] does on a dataset it can train on.  For a
    model that is not bidirectional and a dataset whose documents have as
    many tags as tokens, at least one token, and only tags among the labels
    and ['O']: [fit] returns; it installs the labels, both mappings and a
    network built for their sizes, updated once per segment pair per epoch
    in order, each update from the gradient of that pair alone; after the
    training steps it makes one forward pass without gradients and no
    other call. *)
Theorem fit_pytorch_spec (ds : Dataset) (epochs : nat)
    (st : state PytorchModel.t) :
  PytorchModel.bidirectional (self st) = false →
  Forall (λ dt, length dt.1 = length dt.2) (ds_training_data ds) →
  Exists (λ dt, dt.1 ≠ []) (ds_training_data ds) →
  Forall (λ dt, Forall (λ tag, tag ∈ set_add "O" (get_labels ds)) dt.2)
         (ds_training_data ds) →
  let s1 := installed (env st) ds (self st) in
  let es := examples_of (PytorchModel.word_to_index s1)
                        (PytorchModel.tag_to_index s1)
                        (segment_pairs (ds_training_data ds)) in
  let all := concat (replicate epochs es) in
  let start :=
    fresh (LSTMTagger EMBEDDING_DIM HIDDEN_DIM
             (length (PytorchModel.word_to_index s1))
             (length (PytorchModel.tag_to_index s1)) false) in
  let final := foldl after_step start all in
  PytorchModel.fit (PyDataset ds) epochs st
  = (Ok (),
     with_calls
       {| self := {| PytorchModel.model := Some final;
                     PytorchModel.labels := PytorchModel.labels s1;
                     PytorchModel.word_to_index := PytorchModel.word_to_index s1;
                     PytorchModel.tag_to_index := PytorchModel.tag_to_index s1;
                     PytorchModel.bidirectional := false |};
          env := env st |}
       (steps_calls start all ++ [(ForwardNoGrad, grad final)])).
Proof.
  intros Hbi Hal Hex Hlab s1 es all start final.
  destruct (fit_pytorch_start ds st Hal Hex Hlab)
    as (Hrun & Hmw & Hmt & Htne & Hlne & Hdata & p & rest & Hsp).
  fold s1 in Hrun, Hmw, Hmt, Htne, Hlne, Hdata.
  assert (Hstart : fits start (length (PytorchModel.word_to_index s1))
                              (length (PytorchModel.tag_to_index s1))).
  { split; [done | by vm_compute]. }
  assert (Hfinal : fits final (length (PytorchModel.word_to_index s1))
                              (length (PytorchModel.tag_to_index s1)))
    by (by apply fits_foldl).
  unfold PytorchModel.fit, mbind, M_bind. rewrite Hrun.
  unfold get_self at 1. cbv beta iota zeta.
  change (self {| self := s1; env := env st |}) with s1.
  change (PytorchModel.bidirectional s1)
    with (PytorchModel.bidirectional (self st)).
  rewrite Hbi.
  (* the epochs *)
  rewrite (epochs_exact _ _ Hmw Hmt (segment_pairs (ds_training_data ds))
             epochs 0 start _ Hstart); [|by rewrite Hsp|done].
  cbv zeta. fold es all final.
  (* the evaluation pass *)
  rewrite Hsp in Hdata |- *.
  apply Forall_cons in Hdata as [([Hne Hlen] & Hw & Ht) _].
  change ((p :: rest) !! 0) with (Some p). cbv beta iota.
  unfold mret at 1, M_ret at 1. cbv beta iota.
  unfold lift at 1. rewrite (vectorize_strict_in_vocabulary _ _ Hw).
  cbv beta iota.
  unfold call_model_no_grad, perform, mbind, M_bind, log_call, get_env, mret,
    M_ret, lift. cbv beta iota zeta.
  fold (indices_of (PytorchModel.word_to_index s1) p.1).
  set (inputs := indices_of (PytorchModel.word_to_index s1) p.1).
  simpl scores.
  destruct Hfinal as [Hrows Hfeat].
  rewrite (forward_Ok _ _ _ _ Hfeat).
  2:{ unfold inputs, indices_of. by destruct p.1. }
  2:{ rewrite Hrows. by apply indices_of_lt. }
  cbv beta iota.
  destruct (score_matrix_shape (scores (env st)) (params final) inputs
              (length (PytorchModel.tag_to_index s1))) as [Hsl Hsv].
  destruct (devectorize_total _ _ Hmt Htne Hsv) as (tags & Hdev & Hl & _).
  rewrite Hdev. cbv beta iota.
  unfold get_self. cbv beta iota. simpl self at 1.
  destruct (sentence_scores_ok (PytorchModel.labels s1)
              (length (score_matrix (scores (env st)) (params final) inputs
                         (length (PytorchModel.tag_to_index s1)))) tags p.2)
    as (f1 & Hf1 & Hf1len).
  { by rewrite Hl. }
  { rewrite Hsl. unfold inputs. rewrite indices_of_length. lia. }
  rewrite Hf1. cbv beta iota.
  unfold PytorchModel.average. rewrite decide_False.
  2:{ rewrite Hf1len. by destruct (PytorchModel.labels s1). }
  unfold set_self, with_calls, mret, M_ret. simpl.
  by rewrite Hbi, <- app_assoc.
Qed.

Lemma fit_pytorch_spec_witness :
  (PytorchModel.fit (PyDataset aligned_dataset) 2
     {| self := PytorchModel.init false; env := uniform_world |}).1 = Ok ()
  ∧ PytorchModel.word_to_index
      (self (PytorchModel.fit (PyDataset aligned_dataset) 2
               {| self := PytorchModel.init false; env := uniform_world |}).2)
    = [("Give", 0); ("Aspirin", 1); ("now", 2)]
  ∧ fst <$> calls (env (PytorchModel.fit (PyDataset aligned_dataset) 2
               {| self := PytorchModel.init false; env := uniform_world |}).2)
    = [ZeroGrad; Forward; Backward ([0; 1; 2], [1; 0; 1]); Step;
       ZeroGrad; Forward; Backward ([0; 1; 2], [1; 0; 1]); Step;
       ForwardNoGrad].
Proof.
  pose proof (fit_pytorch_spec aligned_dataset 2
                {| self := PytorchModel.init false; env := uniform_world |}
                eq_refl) as H.
  cbv zeta in H. rewrite H.
  - split_and!; by vm_compute.
  - by repeat constructor.
  - by apply Exists_cons_hd.
  - apply (bool_decide_unpack _). by vm_compute.
Defined.

(** X10: the network [PytorchModel.fit] constructs for a bidirectional
    model cannot run: [hidden2tag] is built for [hidden_dim] features and
    the bidirectional recurrent layer emits twice as many.  On a dataset
    whose documents have as many tags as tokens, at least one token, and
    only tags among the labels and ['O'], [fit] with [bidirectional=True]
    raises [RuntimeError] in its first forward pass, which is the one of the first training step
    or, for no epoch, the one under [torch.no_grad()]; the labels and both
    mappings are already replaced, and no model is installed. *)
Theorem fit_bidirectional_raises (ds : Dataset) (epochs : nat)
    (st : state PytorchModel.t) :
  PytorchModel.bidirectional (self st) = true →
  Forall (λ dt, length dt.1 = length dt.2) (ds_training_data ds) →
  Exists (λ dt, dt.1 ≠ []) (ds_training_data ds) →
  Forall (λ dt, Forall (λ tag, tag ∈ set_add "O" (get_labels ds)) dt.2)
         (ds_training_data ds) →
  PytorchModel.fit (PyDataset ds) epochs st
  = (Raise RuntimeError,
     with_calls {| self := installed (env st) ds (self st); env := env st |}
       (if decide (epochs = 0) then [(ForwardNoGrad, [])]
        else [(ZeroGrad, []); (Forward, [])])).
Proof.
  intros Hbi Hal Hex Hlab.
  destruct (fit_pytorch_start ds st Hal Hex Hlab)
    as (Hrun & Hmw & Hmt & _ & _ & Hdata & p & rest & Hsp).
  set (s1 := installed (env st) ds (self st)) in *.
  unfold PytorchModel.fit, mbind, M_bind. rewrite Hrun.
  unfold get_self at 1. cbv beta iota zeta.
  change (self {| self := s1; env := env st |}) with s1.
  change (PytorchModel.bidirectional s1)
    with (PytorchModel.bidirectional (self st)).
  rewrite Hbi, Hsp. rewrite Hsp in Hdata.
  apply Forall_cons in Hdata as [Hp _].
  set (start := fresh _).
  assert (Hrows : embedding_rows (layers_of (params start))
                  = length (PytorchModel.word_to_index s1)) by done.
  assert (Hfeat : forward_features (params start) = None) by (by vm_compute).
  destruct epochs as [|epochs].
  - simpl for_each. unfold mret at 1, M_ret at 1. cbv beta iota.
    change ((p :: rest) !! 0) with (Some p). cbv beta iota.
    unfold mret at 1, M_ret at 1. cbv beta iota.
    destruct Hp as (_ & Hw & _).
    unfold lift at 1. rewrite (vectorize_strict_in_vocabulary _ _ Hw).
    cbv beta iota.
    unfold call_model_no_grad, perform, mbind, M_bind, log_call, get_env, mret,
      M_ret, lift. cbv beta iota zeta. simpl scores.
    rewrite forward_misfit; [done | done |].
    rewrite Hrows. by apply indices_of_lt.
  - change (seq 0 (S epochs)) with (0 :: seq 1 epochs).
    simpl for_each. unfold mbind, M_bind, PytorchModel.run_epoch at 1.
    simpl for_each. unfold mbind, M_bind.
    by rewrite (training_step_pytorch_misfit _ _ Hmw (start, []) p _
                  Hrows Hfeat Hp).
Qed.

Lemma fit_bidirectional_raises_witness :
  PytorchModel.fit (PyDataset aligned_dataset) 2
    {| self := PytorchModel.init true; env := uniform_world |}
  = (Raise RuntimeError,
     with_calls
       {| self := installed uniform_world aligned_dataset
                    (PytorchModel.init true);
          env := uniform_world |}
       [(ZeroGrad, []); (Forward, [])]).
Proof.
  apply (fit_bidirectional_raises aligned_dataset 2
           {| self := PytorchModel.init true; env := uniform_world |}).
  - done.
  - by repeat constructor.
  - by apply Exists_cons_hd.
  - apply (bool_decide_unpack _). by vm_compute.
Defined.
